(** * Spectra: memory store, emotion engine and provider fallback

    A shallow embedding of the algorithmic core of the Spectra assistant:
    - [memory.py]        (MemoryEntry, SpectraMemory),
    - [emotions.py]      (EmotionalState, EmotionEngine),
    - [ai_providers.py]  (AIProvider and its four implementations),
    - [ai_manager.py]    (AIManager),
    - [personality.py]   (SpectraPersonality).

    Conventions of the embedding.
    - A Python float is modelled by the rational [Q] it denotes, compared
      with [==]; infinities and NaN are outside the model.  The relevance
      score of [recall], whose ties decide an order, is computed with the
      rounding of binary64 ([PyFloat]); the other arithmetic (emotion
      updates, decay, averages) is exact: equations about it hold of the
      code up to rounding, and statements about order stay away from the
      cases that rounding can flip.
    - Python strings are modelled by [string] (byte strings); [lower] is
      ASCII lower-casing and [strip] removes ASCII whitespace, as the source
      does on ASCII text.
    - The memory file holds a list of objects as [to_dict] writes them, a
      legacy list of strings, another JSON value, or no JSON at all; a list
      that mixes strings with other values, and an object whose fields have
      other types than [to_dict] writes, are outside the model.
    - A [datetime] and its ISO-8601 text are identified; both are a number of
      microseconds [Z].  One operation reads one clock value [now].
    - Logging is omitted. *)

From Stdlib Require Import ZArith QArith Qminmax Qabs Lqa Lia Ascii String List Bool.
From Stdlib Require Import DecimalString.
From Stdlib Require Import Permutation Sorted.
From stdpp Require Import base option list gmap strings.

Local Open Scope string_scope.
Local Open Scope Z_scope.

(* ===================================================================== *)
(** ** Python string operations *)
(* ===================================================================== *)

Module PyStr.

(** [c.lower()] on one ASCII character. *)
Definition lower_ascii (c : ascii) : ascii :=
  let n := nat_of_ascii c in
  if (Nat.leb 65 n && Nat.leb n 90)%bool then ascii_of_nat (n + 32) else c.

(** [s.lower()] *)
Fixpoint lower (s : string) : string :=
  match s with
  | EmptyString => EmptyString
  | String c t => String (lower_ascii c) (lower t)
  end.

(** [s.startswith(p)] *)
Fixpoint startswith (p s : string) : bool :=
  match p, s with
  | EmptyString, _ => true
  | String _ _, EmptyString => false
  | String a p', String b s' => (Ascii.eqb a b && startswith p' s')%bool
  end.

(** [needle in hay] *)
Fixpoint contains (needle hay : string) : bool :=
  (startswith needle hay ||
   match hay with
   | EmptyString => false
   | String _ t => contains needle t
   end)%bool.

(** ASCII characters for which [str.isspace] holds. *)
Definition is_space (c : ascii) : bool :=
  let n := nat_of_ascii c in
  ((Nat.leb 9 n && Nat.leb n 13) || (Nat.leb 28 n && Nat.leb n 32))%bool.

Fixpoint lstrip (s : string) : string :=
  match s with
  | EmptyString => EmptyString
  | String c t => if is_space c then lstrip t else s
  end.

Fixpoint rstrip (s : string) : string :=
  match s with
  | EmptyString => EmptyString
  | String c t =>
      match rstrip t with
      | EmptyString => if is_space c then EmptyString else String c EmptyString
      | t' => String c t'
      end
  end.

(** [s.strip()] *)
Definition strip (s : string) : string := rstrip (lstrip s).

(** [s.rstrip(ch)] for a one-character argument. *)
Fixpoint rstrip_char (ch : ascii) (s : string) : string :=
  match s with
  | EmptyString => EmptyString
  | String c t =>
      match rstrip_char ch t with
      | EmptyString => if Ascii.eqb c ch then EmptyString else String c EmptyString
      | t' => String c t'
      end
  end.

(** [s.replace(old, new)] for a non-empty [old]: occurrences are replaced
    left to right without overlap.  [skip] counts the characters of the
    occurrence just replaced that are still to be dropped. *)
Fixpoint replace_from (old new : string) (skip : nat) (s : string) : string :=
  match s with
  | EmptyString => EmptyString
  | String c t =>
      match skip with
      | S k => replace_from old new k t
      | O =>
          if startswith old s
          then new ++ replace_from old new (String.length old - 1) t
          else String c (replace_from old new O t)
      end
  end.

Definition replace (old new s : string) : string := replace_from old new O s.

(** [s[:n]] for [n >= 0]. *)
Definition take (n : nat) (s : string) : string := String.substring 0 n s.

(** The line feed character and the one-character string of it. *)
Definition newline : string := String (ascii_of_nat 10) EmptyString.

(** [sep.join(l)] *)
Fixpoint join (sep : string) (l : list string) : string :=
  match l with
  | [] => EmptyString
  | x :: r =>
      match r with
      | [] => x
      | _ :: _ => x ++ sep ++ join sep r
      end
  end.

(** [bool(s)] *)
Definition truthy (s : string) : bool :=
  match s with EmptyString => false | _ => true end.

End PyStr.

(* ===================================================================== *)
(** ** Python list operations *)
(* ===================================================================== *)

Module PyList.

Section Slice.
Context {A : Type}.

(** [l[:n]] for any integer [n]; a negative [n] counts from the end. *)
Definition slice_to (n : Z) (l : list A) : list A :=
  if (0 <=? n)%Z then firstn (Z.to_nat n) l
  else firstn (length l - Z.to_nat (- n)) l.

(** [l[-n:]] for [n > 0]. *)
Definition last_n (n : nat) (l : list A) : list A :=
  skipn (length l - n) l.

(** [l[n:]] for any integer [n]; a negative [n] counts from the end. *)
Definition slice_from (n : Z) (l : list A) : list A :=
  if (0 <=? n)%Z then skipn (Z.to_nat n) l
  else skipn (length l - Z.to_nat (- n)) l.

(** [enumerate(l, i)]: every element with its position. *)
Fixpoint enumerate_from (i : nat) (l : list A) : list (nat * A) :=
  match l with
  | [] => []
  | x :: r => (i, x) :: enumerate_from (S i) r
  end.

(** [random.choice(l)] for the draw [r]; [None] is the [IndexError] on an
    empty list. *)
Definition choice (r : nat) (l : list A) : option A :=
  l !! (r mod length l)%nat.
End Slice.

(** [l.sort(key=..., reverse=True)]: a stable sort into non-increasing key
    order.  [geb a b] decides [key a >= key b]; an element moves left only
    past elements of strictly smaller key, so equal keys keep their input
    order. *)
Section SortDesc.
Context {A : Type} (geb : A -> A -> bool).

Fixpoint insert_desc (x : A) (l : list A) : list A :=
  match l with
  | [] => [x]
  | y :: ys => if geb x y then x :: y :: ys else y :: insert_desc x ys
  end.

Fixpoint sort_desc (l : list A) : list A :=
  match l with
  | [] => []
  | x :: xs => insert_desc x (sort_desc xs)
  end.
End SortDesc.

End PyList.

(** An insertion-ordered dictionary with string keys (a Python [dict] whose
    iteration order matters). *)
Module ODict.

Section Ops.
Context {V : Type}.

Fixpoint get (k : string) (d : list (string * V)) : option V :=
  match d with
  | [] => None
  | (k', v) :: r => if String.eqb k k' then Some v else get k r
  end.

(** [d[k] = v]: an existing key keeps its position, a new key goes last. *)
Fixpoint set (k : string) (v : V) (d : list (string * V)) : list (string * V) :=
  match d with
  | [] => [(k, v)]
  | (k', v') :: r =>
      if String.eqb k k' then (k', v) :: r else (k', v') :: set k v r
  end.

Definition get_default (k : string) (dflt : V) (d : list (string * V)) : V :=
  match get k d with Some v => v | None => dflt end.

Definition values (d : list (string * V)) : list V := map snd d.
Definition keys (d : list (string * V)) : list string := map fst d.
Definition mem (k : string) (d : list (string * V)) : bool :=
  match get k d with Some _ => true | None => false end.
End Ops.

End ODict.

(** Clamping, as written with [max] and [min] in the source. *)
Definition clamp (lo hi x : Q) : Q := Qmax lo (Qmin hi x).

(** [a < b] on floats. *)
Definition Qltb (a b : Q) : bool := negb (Qle_bool b a).

(* ===================================================================== *)
(** ** Python float arithmetic *)
(* ===================================================================== *)

Module PyFloat.

(** The integer nearest to [n / d] for [d > 0], ties to the even one. *)
Definition round_half_even (n d : Z) : Z :=
  let q := (n / d)%Z in
  match (2 * (n mod d) ?= d)%Z with
  | Lt => q
  | Gt => (q + 1)%Z
  | Eq => if Z.even q then q else (q + 1)%Z
  end.

(** The double nearest to a rational (IEEE 754 binary64, round to nearest,
    ties to even, subnormals included), as the rational it denotes.
    Magnitudes from [2^1024] on, which overflow, are outside the model. *)
Definition fl (q : Q) : Q :=
  let n := Qnum q in
  let d := Z.pos (Qden q) in
  if (n =? 0)%Z then 0%Q
  else
    let a := Z.abs n in
    let e0 := (Z.log2 a - Z.log2 d)%Z in
    let above := if (0 <=? e0)%Z then (d * 2 ^ e0 <=? a)%Z
                 else (d <=? a * 2 ^ (- e0))%Z in
    let e := Z.max (if above then e0 else e0 - 1) (-1022) in
    let k := (52 - e)%Z in
    let r := if (0 <=? k)%Z
             then Qmake (round_half_even (a * 2 ^ k) d) (Z.to_pos (2 ^ k))
             else inject_Z (round_half_even a (d * 2 ^ (- k)) * 2 ^ (- k)) in
    if (n <? 0)%Z then Qopp r else r.

(** [a + b], [a - b], [a * b] and [a / b] on floats. *)
Definition add (a b : Q) : Q := fl (a + b).
Definition sub (a b : Q) : Q := fl (a - b).
Definition mul (a b : Q) : Q := fl (a * b).
Definition div (a b : Q) : Q := fl (a / b).

End PyFloat.

(* ===================================================================== *)
(** ** memory.py *)
(* ===================================================================== *)

Module Memory.

Local Open Scope Q_scope.

(** [class MemoryEntry] *)
Record MemoryEntry := mkEntry {
  content : string;
  memory_type : string;
  timestamp : Z;
  importance : Q;
  tags : list string;
  access_count : Z;
  last_accessed : Z
}.

(** [MemoryEntry.__init__]; [tags = None] is the default argument. *)
Definition new_entry (now : Z) (c : string) (mt : string) (imp : Q)
    (tgs : option (list string)) : MemoryEntry :=
  {| content := c;
     memory_type := mt;
     timestamp := now;
     importance := Qmax 0 (Qmin 1 imp);
     tags := match tgs with Some (x :: r) => x :: r | _ => [] end;
     access_count := 0%Z;
     last_accessed := now |}.

(** Values stored in the serialised form of an entry. *)
Inductive jval :=
| JStr (s : string)
| JNum (q : Q)
| JInt (z : Z)
| JTime (t : Z)
| JTags (l : list string).

(** [MemoryEntry.to_dict] *)
Definition to_dict (e : MemoryEntry) : gmap string jval :=
  <["content" := JStr (content e)]>
  (<["memory_type" := JStr (memory_type e)]>
  (<["timestamp" := JTime (timestamp e)]>
  (<["importance" := JNum (importance e)]>
  (<["tags" := JTags (tags e)]>
  (<["access_count" := JInt (access_count e)]>
  (<["last_accessed" := JTime (last_accessed e)]> ∅)))))).

Definition as_str (v : jval) : option string :=
  match v with JStr s => Some s | _ => None end.
Definition as_num (v : jval) : option Q :=
  match v with JNum q => Some q | JInt z => Some (inject_Z z) | _ => None end.
Definition as_int (v : jval) : option Z :=
  match v with JInt z => Some z | _ => None end.
Definition as_time (v : jval) : option Z :=
  match v with JTime t => Some t | _ => None end.
Definition as_tags (v : jval) : option (list string) :=
  match v with JTags l => Some l | _ => None end.

(** [data.get(k, dflt)] followed by the use of the value at the type the
    constructor expects; [None] is a value of another type. *)
Definition get_or {A} (data : gmap string jval) (k : string)
    (cast : jval -> option A) (dflt : A) : option A :=
  match data !! k with
  | Some v => cast v
  | None => Some dflt
  end.

(** [MemoryEntry.from_dict]; [None] is the [KeyError] of [data["content"]].
    An item with a field of another type than [to_dict] writes is outside
    the model (the source stores such a value unchecked, apart from an
    importance that is not a number, on which the clamp raises); [from_dict]
    gives [None] for it as well. *)
Definition from_dict (now : Z) (data : gmap string jval) : option MemoryEntry :=
  c ← data !! "content" ≫= as_str;
  mt ← get_or data "memory_type" as_str "conversation";
  imp ← get_or data "importance" as_num 0.5;
  tgs ← get_or data "tags" as_tags [];
  let entry := new_entry now c mt imp (Some tgs) in
  ts ← get_or data "timestamp" as_time now;
  ac ← get_or data "access_count" as_int 0%Z;
  la ← get_or data "last_accessed" as_time ts;
  Some {| content := content entry;
          memory_type := memory_type entry;
          timestamp := ts;
          importance := importance entry;
          tags := tags entry;
          access_count := ac;
          last_accessed := la |}.

(** The content of the memory file: a list of objects (the new format), a
    list of strings (the legacy format), any other JSON value, or no JSON
    document (an empty or truncated file). *)
Inductive document :=
| DocEntries (items : list (gmap string jval))
| DocLegacy (items : list string)
| DocOther
| DocInvalid.

(** How the write of [save_memory] ends: the document is written; [open]
    raises and the file is untouched; or [json.dump] raises after [open]
    has truncated the file. *)
Inductive WriteOutcome := WriteOk | OpenFails | DumpFails.

(** [class SpectraMemory]; [disk] is the content of the memory file. *)
Record SpectraMemory := mkMemory {
  memories : list MemoryEntry;
  max_memories : nat;
  disk : option document
}.

Definition set_memories (st : SpectraMemory) (ms : list MemoryEntry) :=
  {| memories := ms; max_memories := max_memories st; disk := disk st |}.

(** [SpectraMemory.load_memory]; [None] is a missing file.  An item that
    fails, like a file that [json.load] rejects, empties the store. *)
Definition load_memory (now : Z) (st : SpectraMemory) : SpectraMemory :=
  match disk st with
  | Some (DocEntries items) =>
      match mapM (from_dict now) items with
      | Some ms => set_memories st ms
      | None => set_memories st []
      end
  | Some (DocLegacy items) =>
      set_memories st (map (fun c => new_entry now c "conversation" 0.5 None) items)
  | Some DocOther => set_memories st []
  | Some DocInvalid => set_memories st []
  | None => set_memories st []
  end.

(** [SpectraMemory.__init__] *)
Definition init_memory (now : Z) (file : option document) : SpectraMemory :=
  load_memory now {| memories := []; max_memories := 1000; disk := file |}.

Definition seven_days : Z := (7 * 86400 * 1000000)%Z.
Definition one_day : Z := (86400 * 1000000)%Z.

Definition is_important (m : MemoryEntry) : bool := Qle_bool 0.8 (importance m).
Definition is_recent (now : Z) (m : MemoryEntry) : bool :=
  (now - seven_days <=? timestamp m)%Z.

(** [{m.content: m for m in ms}] *)
Definition by_content (ms : list MemoryEntry) : list (string * MemoryEntry) :=
  fold_left (fun d m => ODict.set (content m) m d) ms [].

Definition more_accessed (a b : MemoryEntry) : bool :=
  (access_count b <=? access_count a)%Z.

(** [SpectraMemory._cleanup_memories] *)
Definition _cleanup_memories (now : Z) (st : SpectraMemory) : SpectraMemory :=
  let important_memories := List.filter is_important (memories st) in
  let recent_memories := List.filter (is_recent now) (memories st) in
  let keep_memories := ODict.values (by_content (important_memories ++ recent_memories)) in
  let keep_memories :=
    if (max_memories st <? length keep_memories)%nat
    then firstn (max_memories st) (PyList.sort_desc more_accessed keep_memories)
    else keep_memories in
  set_memories st keep_memories.

(** [SpectraMemory.save_memory]; [io] is how the write ends.  The source
    catches both failures; after [open(path, 'w')] the old content is gone. *)
Definition save_memory (now : Z) (io : WriteOutcome) (st : SpectraMemory) : SpectraMemory :=
  let st := if (max_memories st <? length (memories st))%nat
            then _cleanup_memories now st else st in
  {| memories := memories st; max_memories := max_memories st;
     disk := match io with
             | WriteOk => Some (DocEntries (map to_dict (memories st)))
             | OpenFails => disk st
             | DumpFails => Some DocInvalid
             end |}.

(** [SpectraMemory.remember] *)
Definition remember (now : Z) (io : WriteOutcome) (st : SpectraMemory)
    (c : string) (mt : string) (imp : Q) (tgs : option (list string)) : SpectraMemory :=
  if negb (PyStr.truthy (PyStr.strip c)) then st
  else save_memory now io (set_memories st (memories st ++ [new_entry now c mt imp tgs])).

(** [SpectraMemory.add_reflection] *)
Definition add_reflection (now : Z) (io : WriteOutcome) (st : SpectraMemory)
    (reflection : string) (imp : Q) : SpectraMemory :=
  remember now io st reflection "reflection" imp (Some ["reflection"]).

(** The access bookkeeping done on a returned entry. *)
Definition touch (now : Z) (m : MemoryEntry) : MemoryEntry :=
  {| content := content m; memory_type := memory_type m;
     timestamp := timestamp m; importance := importance m; tags := tags m;
     access_count := (access_count m + 1)%Z; last_accessed := now |}.

(** [memory_score], the sort key local to [recall], in float arithmetic;
    [recency] is the [days] of a [timedelta], a floor. *)
Definition memory_score (now : Z) (m : MemoryEntry) : Q :=
  let recency := ((now - timestamp m) / one_day)%Z in
  let recency_score :=
    Qmax 0 (PyFloat.sub 1 (PyFloat.div (inject_Z recency) 30)) in
  PyFloat.add
    (PyFloat.add (PyFloat.mul (importance m) 0.5)
                 (PyFloat.mul recency_score (PyFloat.fl 0.3)))
    (Qmin (PyFloat.div (inject_Z (access_count m)) 10) (PyFloat.fl 0.2)).

Definition score_geb (now : Z) (a b : nat * MemoryEntry) : bool :=
  Qle_bool (memory_score now (snd b)) (memory_score now (snd a)).

Definition keyword_match (keyword : string) (m : MemoryEntry) : bool :=
  PyStr.contains (PyStr.lower keyword) (PyStr.lower (content m)).

(** The entries selected and ranked by [recall], each with its position in
    [self.memories] (the list holds references to the stored objects). *)
Definition recall_ranked (now : Z) (st : SpectraMemory) (keyword : option string)
    (mtype : option string) (min_importance : Q) : list (nat * MemoryEntry) :=
  let filtered := PyList.enumerate_from 0 (memories st) in
  let filtered :=
    match keyword with
    | Some k => if PyStr.truthy k
                then List.filter (fun p => keyword_match k (snd p)) filtered
                else filtered
    | None => filtered
    end in
  let filtered :=
    match mtype with
    | Some t => if PyStr.truthy t
                then List.filter (fun p => String.eqb (memory_type (snd p)) t) filtered
                else filtered
    | None => filtered
    end in
  let filtered :=
    List.filter (fun p => Qle_bool min_importance (importance (snd p))) filtered in
  PyList.sort_desc (score_geb now) filtered.

Definition limit_truthy (limit : option Z) : bool :=
  match limit with Some n => negb (n =? 0)%Z | None => false end.

(** [filtered_memories[:limit or len(filtered_memories)]] *)
Definition within_limit {A} (limit : option Z) (l : list A) : list A :=
  match limit with
  | Some n => if (n =? 0)%Z then l else PyList.slice_to n l
  | None => l
  end.

(** [SpectraMemory.recall]: the returned contents and the store after the
    access counts of the returned entries were updated. *)
Definition recall (now : Z) (st : SpectraMemory) (keyword : option string)
    (mtype : option string) (limit : option Z) (min_importance : Q)
    : list string * SpectraMemory :=
  let ranked := recall_ranked now st keyword mtype min_importance in
  let returned := within_limit limit ranked in
  let ms := fold_left (fun ms p => alter (touch now) (fst p) ms) returned (memories st) in
  (map (fun p => content (snd p)) returned, set_memories st ms).

(** One element of the result of [search_memories]. *)
Record SearchResult := mkResult {
  r_content : string;
  r_type : string;
  r_importance : Q;
  r_timestamp : Z;
  r_tags : list string
}.

Definition result_of (m : MemoryEntry) : SearchResult :=
  {| r_content := content m; r_type := memory_type m;
     r_importance := importance m; r_timestamp := timestamp m;
     r_tags := tags m |}.

(** [key a >= key b] for the key [(importance, timestamp)]. *)
Definition result_geb (a b : SearchResult) : bool :=
  (negb (Qle_bool (r_importance a) (r_importance b))
   || (Qeq_bool (r_importance a) (r_importance b)
       && (r_timestamp b <=? r_timestamp a)%Z))%bool.

(** The loop of [search_memories] over [self.memories]. *)
Fixpoint search_loop (now : Z) (query_lower : string) (ms : list MemoryEntry)
    : list SearchResult * list MemoryEntry :=
  match ms with
  | [] => ([], [])
  | m :: rest =>
      let '(results, rest') := search_loop now query_lower rest in
      if PyStr.contains query_lower (PyStr.lower (content m))
      then (result_of m :: results, touch now m :: rest')
      else (results, m :: rest')
  end.

(** [SpectraMemory.search_memories] *)
Definition search_memories (now : Z) (st : SpectraMemory) (query : string)
    (limit : Z) : list SearchResult * SpectraMemory :=
  let '(results, ms) := search_loop now (PyStr.lower query) (memories st) in
  let results := PyList.sort_desc result_geb results in
  (PyList.slice_to limit results, set_memories st ms).

(** [settings.MAX_MEMORY_CONTEXT] *)
Definition MAX_MEMORY_CONTEXT : Z := 5.

(** [SpectraMemory.get_recent_context]; the call of [recall] updates the
    access bookkeeping, so the store is returned as well. *)
Definition get_recent_context (now : Z) (st : SpectraMemory) (limit : option Z)
    : string * SpectraMemory :=
  let limit := match limit with
               | Some n => if (n =? 0)%Z then MAX_MEMORY_CONTEXT else n
               | None => MAX_MEMORY_CONTEXT
               end in
  let '(recent_memories, st') :=
    recall now st None (Some "conversation") (Some limit) 0 in
  (match recent_memories with
   | [] => EmptyString
   | _ :: _ => PyStr.join PyStr.newline (PyList.slice_from (- limit) recent_memories)
   end, st').

(** The result of [get_stats]: [{"total": 0}] or the full dictionary. *)
Inductive Stats :=
| StatsEmpty
| StatsFull (total : nat) (by_type : list (string * Z))
    (average_importance : Q) (oldest newest : Z).

(** The loop of [get_stats] that counts the entries of each type. *)
Definition count_types (ms : list MemoryEntry) : list (string * Z) :=
  fold_left
    (fun types m =>
       ODict.set (memory_type m) (ODict.get_default (memory_type m) 0%Z types + 1)%Z types)
    ms [].

(** [SpectraMemory.get_stats] *)
Definition get_stats (st : SpectraMemory) : Stats :=
  match memories st with
  | [] => StatsEmpty
  | m :: rest =>
      StatsFull
        (length (memories st))
        (count_types (memories st))
        (fold_left (fun acc x => acc + importance x) (memories st) 0
         / inject_Z (Z.of_nat (length (memories st))))
        (fold_left (fun acc x => Z.min acc (timestamp x)) rest (timestamp m))
        (fold_left (fun acc x => Z.max acc (timestamp x)) rest (timestamp m))
  end.

End Memory.

(* ===================================================================== *)
(** ** emotions.py *)
(* ===================================================================== *)

Module Emotions.

Local Open Scope Q_scope.

(** One record of [emotion_history]. *)
Record HistoryItem := mkHistory {
  h_emotion : string;
  h_value : Q;
  h_change : Q;
  h_reason : string;
  h_timestamp : Z
}.

(** [class EmotionalState]; [emotions] is a dictionary in insertion order. *)
Record EmotionalState := mkState {
  emotions : list (string * Q);
  intensity : Q;
  stability : Q;
  last_update : Z;
  emotion_history : list HistoryItem
}.

(** The table shared by [EmotionalState.__init__] and [decay_emotions]. *)
Definition baselines : list (string * Q) :=
  [ ("joy", 0.6); ("sadness", 0.2); ("curiosity", 0.8); ("empathy", 0.9);
    ("excitement", 0.5); ("calmness", 0.7); ("concern", 0.3); ("wonder", 0.6);
    ("affection", 0.8); ("determination", 0.7) ].

(** [EmotionalState.__init__] *)
Definition new_state (now : Z) : EmotionalState :=
  {| emotions := baselines;
     intensity := 0.6;
     stability := 0.8;
     last_update := now;
     emotion_history := [] |}.

(** [EmotionalState.update_emotion] *)
Definition update_emotion (now : Z) (st : EmotionalState) (emotion : string)
    (change : Q) (reason : string) : bool * EmotionalState :=
  match ODict.get emotion (emotions st) with
  | Some old_value =>
      let actual_change := change * (1 - stability st * 0.5) in
      let new_value := Qmax 0 (Qmin 1 (old_value + actual_change)) in
      let history := (emotion_history st ++
        [ {| h_emotion := emotion; h_value := new_value;
             h_change := actual_change; h_reason := reason;
             h_timestamp := now |} ])%list in
      let history := if (100 <? length history)%nat
                     then PyList.last_n 50 history else history in
      (true, {| emotions := ODict.set emotion new_value (emotions st);
                intensity := intensity st;
                stability := stability st;
                last_update := now;
                emotion_history := history |})
  | None => (false, st)
  end.

(** One iteration of the loop of [decay_emotions]; [None] is the [KeyError]
    of [self.emotions[emotion]]. *)
Definition decay_one (decay_rate : Q) (ems : list (string * Q))
    (entry : string * Q) : option (list (string * Q)) :=
  let '(emotion, baseline) := entry in
  current ← ODict.get emotion ems;
  if negb (Qeq_bool current baseline) then
    let direction := if Qltb current baseline then 1 else -1 in
    let change := decay_rate * direction * Qabs (baseline - current) in
    Some (ODict.set emotion (Qmax 0 (Qmin 1 (current + change))) ems)
  else Some ems.

Fixpoint decay_loop (decay_rate : Q) (table : list (string * Q))
    (ems : list (string * Q)) : option (list (string * Q)) :=
  match table with
  | [] => Some ems
  | entry :: rest =>
      ems' ← decay_one decay_rate ems entry;
      decay_loop decay_rate rest ems'
  end.

(** [EmotionalState.decay_emotions] *)
Definition decay_emotions (decay_rate : Q) (st : EmotionalState)
    : option EmotionalState :=
  ems ← decay_loop decay_rate baselines (emotions st);
  Some {| emotions := ems; intensity := intensity st; stability := stability st;
          last_update := last_update st; emotion_history := emotion_history st |}.

Definition value_geb (a b : string * Q) : bool := Qle_bool (snd b) (snd a).

(** [EmotionalState.get_dominant_emotions] *)
Definition get_dominant_emotions (st : EmotionalState) (count : Z)
    : list (string * Q) :=
  PyList.slice_to count (PyList.sort_desc value_geb (emotions st)).

(** [EmotionalState.get_emotional_tone]; the channels are read in the order
    of the [elif] chain. *)
Definition get_emotional_tone (st : EmotionalState) : option string :=
  let ems := emotions st in
  joy ← ODict.get "joy" ems;
  if Qltb 0.8 joy then Some "joyful" else
  sadness ← ODict.get "sadness" ems;
  if Qltb 0.6 sadness then Some "melancholic" else
  curiosity ← ODict.get "curiosity" ems;
  if Qltb 0.8 curiosity then Some "curious" else
  excitement ← ODict.get "excitement" ems;
  if Qltb 0.7 excitement then Some "excited" else
  calmness ← ODict.get "calmness" ems;
  if Qltb 0.8 calmness then Some "serene" else
  concern ← ODict.get "concern" ems;
  if Qltb 0.6 concern then Some "concerned" else
  empathy ← ODict.get "empathy" ems;
  if Qltb 0.8 empathy then Some "compassionate" else
  Some "balanced".

(** [class EmotionEngine] *)
Record EmotionEngine := mkEngine {
  state : EmotionalState;
  emotion_triggers : list (string * list (string * Q));
  last_decay : Z
}.

(** [EmotionEngine._setup_triggers] *)
Definition _setup_triggers : list (string * list (string * Q)) :=
  [ ("gratitude", [("joy", 0.3); ("affection", 0.2); ("calmness", 0.1)]);
    ("creativity", [("excitement", 0.3); ("joy", 0.2); ("curiosity", 0.1)]);
    ("achievement", [("joy", 0.4); ("excitement", 0.2); ("determination", 0.1)]);
    ("learning", [("curiosity", 0.3); ("wonder", 0.2); ("excitement", 0.1)]);
    ("humor", [("joy", 0.3); ("excitement", 0.1)]);
    ("affection", [("affection", 0.3); ("joy", 0.2); ("calmness", 0.1)]);
    ("sadness", [("empathy", 0.4); ("concern", 0.3); ("sadness", 0.2)]);
    ("struggle", [("empathy", 0.3); ("concern", 0.3); ("determination", 0.2)]);
    ("pain", [("empathy", 0.4); ("concern", 0.4); ("sadness", 0.1)]);
    ("loss", [("empathy", 0.3); ("sadness", 0.3); ("concern", 0.2)]);
    ("question", [("curiosity", 0.3); ("excitement", 0.1)]);
    ("mystery", [("curiosity", 0.4); ("wonder", 0.3)]);
    ("discovery", [("excitement", 0.3); ("wonder", 0.2); ("joy", 0.2)]);
    ("danger", [("concern", 0.4); ("empathy", 0.2)]);
    ("confusion", [("concern", 0.2); ("empathy", 0.2); ("curiosity", 0.2)]) ].

(** [EmotionEngine.__init__] *)
Definition new_engine (now : Z) : EmotionEngine :=
  {| state := new_state now;
     emotion_triggers := _setup_triggers;
     last_decay := now |}.

(** The local table [trigger_words] of [_analyze_emotional_content]. *)
Definition trigger_words : list (string * list string) :=
  [ ("gratitude", ["thank"; "grateful"; "appreciate"; "thankful"]);
    ("creativity", ["create"; "imagine"; "idea"; "design"; "art"; "write"]);
    ("achievement", ["success"; "accomplish"; "achieve"; "complete"; "win"]);
    ("learning", ["learn"; "understand"; "discover"; "know"; "teach"]);
    ("humor", ["funny"; "laugh"; "joke"; "amusing"; "haha"; "lol"]);
    ("affection", ["love"; "care"; "like"; "fond"; "dear"; "sweet"]);
    ("sadness", ["sad"; "cry"; "tears"; "depressed"; "down"; "upset"]);
    ("struggle", ["difficult"; "hard"; "struggle"; "challenging"; "tough"]);
    ("pain", ["hurt"; "pain"; "ache"; "suffer"; "agony"]);
    ("loss", ["lost"; "gone"; "died"; "death"; "miss"; "mourn"]);
    ("question", ["?"; "how"; "why"; "what"; "when"; "where"]);
    ("mystery", ["mystery"; "unknown"; "strange"; "weird"; "curious"]);
    ("discovery", ["found"; "discover"; "realize"; "revelation"]);
    ("danger", ["danger"; "threat"; "risk"; "warning"; "unsafe"]);
    ("confusion", ["confused"; "don't understand"; "unclear"; "puzzled"]) ].

(** [sum(1 for word in words if word in combined_text)] *)
Definition count_matches (words : list string) (combined_text : string) : nat :=
  length (List.filter (fun w => PyStr.contains w combined_text) words).

(** The inner loop: one trigger's deltas, scaled, added to the changes. *)
Definition add_changes (intensity : Q) (deltas : list (string * Q))
    (changes : list (string * Q)) : list (string * Q) :=
  fold_left
    (fun acc '(emotion, base_change) =>
       let change := base_change * intensity in
       ODict.set emotion (ODict.get_default emotion 0 acc + change) acc)
    deltas changes.

(** The body of the loop over [trigger_words.items()]. *)
Definition apply_trigger (triggers : list (string * list (string * Q)))
    (combined_text : string) (changes : list (string * Q))
    (entry : string * list string) : list (string * Q) :=
  let '(trigger_type, words) := entry in
  let matches := count_matches words combined_text in
  match ODict.get trigger_type triggers with
  | Some deltas =>
      if (0 <? matches)%nat then
        let intensity := Qmin (inject_Z (Z.of_nat matches) * 0.1) 0.3 in
        add_changes intensity deltas changes
      else changes
  | None => changes
  end.

(** The changes accumulated from the trigger tables alone. *)
Definition trigger_changes (triggers : list (string * list (string * Q)))
    (combined_text : string) : list (string * Q) :=
  fold_left (apply_trigger triggers combined_text) trigger_words [].

(** The context-specific adjustment. *)
Definition richie_adjust (text_lower : string) (changes : list (string * Q))
    : list (string * Q) :=
  if PyStr.contains "richie" text_lower
  then ODict.set "affection" (ODict.get_default "affection" 0 changes + 0.1) changes
  else changes.

(** The final loop: every change is clamped to [-0.5, 0.5]. *)
Definition normalize (changes : list (string * Q)) : list (string * Q) :=
  map (fun '(emotion, c) => (emotion, Qmax (-0.5) (Qmin 0.5 c))) changes.

(** [EmotionEngine._analyze_emotional_content] *)
Definition _analyze_emotional_content (eng : EmotionEngine) (text context : string)
    : list (string * Q) :=
  let text_lower := PyStr.lower text in
  let combined_text := PyStr.lower (text ++ " " ++ context)%string in
  normalize
    (richie_adjust text_lower
       (trigger_changes (emotion_triggers eng) combined_text)).

Definition five_minutes : Z := (5 * 60 * 1000000)%Z.

(** [EmotionEngine._auto_decay] *)
Definition _auto_decay (now : Z) (eng : EmotionEngine) : option EmotionEngine :=
  let time_since_decay := (now - last_decay eng)%Z in
  if (five_minutes <? time_since_decay)%Z then
    let total_seconds := inject_Z time_since_decay / 1000000 in
    let decay_rate := Qmin 0.05 (total_seconds / 3600) in
    st ← decay_emotions decay_rate (state eng);
    Some {| state := st; emotion_triggers := emotion_triggers eng;
            last_decay := now |}
  else Some eng.

(** The result dictionary of [process_input]. *)
Record Outcome := mkOutcome {
  emotional_response : list (string * Q);
  new_dominant : list (string * Q);
  tone : string
}.

(** [EmotionEngine.process_input] *)
Definition process_input (now : Z) (eng : EmotionEngine) (text context : string)
    : option (Outcome * EmotionEngine) :=
  eng ← _auto_decay now eng;
  let emotional_response := _analyze_emotional_content eng text context in
  let reason := ("Response to: " ++ PyStr.take 30 text ++ "...")%string in
  let st := fold_left
              (fun st '(emotion, change) =>
                 snd (update_emotion now st emotion change reason))
              emotional_response (state eng) in
  tone ← get_emotional_tone st;
  Some ({| emotional_response := emotional_response;
           new_dominant := get_dominant_emotions st 3;
           tone := tone |},
        {| state := st; emotion_triggers := emotion_triggers eng;
           last_decay := last_decay eng |}).

(** [EmotionEngine.get_emotional_modifier] *)
Definition get_emotional_modifier (eng : EmotionEngine) : option string :=
  tone ← get_emotional_tone (state eng);
  let dominant := get_dominant_emotions (state eng) 2 in
  let modifiers :=
    if String.eqb tone "joyful" then ["Respond with enthusiasm and warmth"]
    else if String.eqb tone "melancholic"
      then ["Respond with gentle compassion and understanding"]
    else if String.eqb tone "curious"
      then ["Show genuine interest and ask thoughtful questions"]
    else if String.eqb tone "excited" then ["Express enthusiasm and energy"]
    else if String.eqb tone "serene" then ["Respond with calm wisdom and peace"]
    else if String.eqb tone "concerned" then ["Show care and offer support"]
    else if String.eqb tone "compassionate"
      then ["Express deep empathy and understanding"]
    else [] in
  let modifiers :=
    fold_left
      (fun mods '(emotion, value) =>
         if Qltb 0.8 value then
           if String.eqb emotion "curiosity"
             then (mods ++ ["Ask engaging follow-up questions"])%list
           else if String.eqb emotion "empathy"
             then (mods ++ ["Acknowledge and validate feelings"])%list
           else if String.eqb emotion "affection"
             then (mods ++ ["Express genuine care and connection"])%list
           else mods
         else mods)
      dominant modifiers in
  Some (match modifiers with
        | [] => "Respond naturally"
        | _ :: _ => PyStr.join "; " modifiers
        end).

End Emotions.

(* ===================================================================== *)
(** ** ai_providers.py *)
(* ===================================================================== *)

Module Providers.

(** The four provider classes. *)
Inductive ProviderKind := OpenAI | Ollama | HuggingFace | Local.

Definition kind_eqb (a b : ProviderKind) : bool :=
  match a, b with
  | OpenAI, OpenAI | Ollama, Ollama | HuggingFace, HuggingFace | Local, Local => true
  | _, _ => false
  end.

(** [type(provider).__name__] *)
Definition class_name (k : ProviderKind) : string :=
  match k with
  | OpenAI => "OpenAIProvider"
  | Ollama => "OllamaProvider"
  | HuggingFace => "HuggingFaceProvider"
  | Local => "LocalProvider"
  end.

(** The keys of a provider configuration that the providers themselves read;
    the remaining keys (model, endpoint, token limit, temperature) only
    parameterise the external service. *)
Record PConfig := mkPConfig {
  cfg_api_key : option string;
  cfg_max_history : option Z
}.

Definition empty_config : PConfig :=
  {| cfg_api_key := None; cfg_max_history := None |}.

(** [class AIProvider] and its subclasses. *)
Record Provider := mkProvider {
  kind : ProviderKind;
  pconfig : PConfig;
  is_initialized : bool;
  conversation_history : list (string * string);
  max_history : Z;
  api_key : string
}.

(** What the Ollama server answers during [initialize]. *)
Inductive OllamaProbe := ModelFound | ModelPulled | PullFailed | ServerDown.

(** The services outside the process.  [None] from [ext_generate] is a
    raised exception. *)
Record World := mkWorld {
  openai_test_call : PConfig -> bool;
  ollama_probe : PConfig -> OllamaProbe;
  huggingface_load : PConfig -> bool;
  ext_generate : Provider -> string -> gmap string string -> option string
}.

(** [AIProvider.__init__] with the subclass constructors. *)
Definition new_provider (k : ProviderKind) (cfg : PConfig) : Provider :=
  {| kind := k;
     pconfig := cfg;
     is_initialized := false;
     conversation_history := [];
     max_history := default 10%Z (cfg_max_history cfg);
     api_key := default "" (cfg_api_key cfg) |}.

(** [create_provider] *)
Definition create_provider (provider_type : string) (cfg : PConfig) : Provider :=
  let t := PyStr.lower provider_type in
  if String.eqb t "openai" then new_provider OpenAI cfg
  else if String.eqb t "ollama" then new_provider Ollama cfg
  else if String.eqb t "huggingface" then new_provider HuggingFace cfg
  else new_provider Local cfg.

Definition set_initialized (p : Provider) : Provider :=
  {| kind := kind p; pconfig := pconfig p; is_initialized := true;
     conversation_history := conversation_history p;
     max_history := max_history p; api_key := api_key p |}.

(** [initialize] of the four classes; every exception is caught and turned
    into [False]. *)
Definition initialize (w : World) (p : Provider) : bool * Provider :=
  match kind p with
  | OpenAI =>
      if negb (PyStr.truthy (api_key p)) then (false, p)
      else if openai_test_call w (pconfig p) then (true, set_initialized p)
      else (false, p)
  | Ollama =>
      match ollama_probe w (pconfig p) with
      | ModelFound => (true, set_initialized p)
      | ModelPulled => (true, set_initialized p)
      | PullFailed => (is_initialized p, p)
      | ServerDown => (false, p)
      end
  | HuggingFace =>
      if huggingface_load w (pconfig p) then (true, set_initialized p)
      else (false, p)
  | Local => (true, set_initialized p)
  end.

(** [is_available] of the four classes. *)
Definition is_available (p : Provider) : bool :=
  match kind p with
  | OpenAI => (is_initialized p && PyStr.truthy (api_key p))%bool
  | Ollama => is_initialized p
  | HuggingFace => is_initialized p
  | Local => true
  end.

(** [AIProvider.add_to_history] *)
Definition add_to_history (p : Provider) (user_input ai_response : string) : Provider :=
  let h := (conversation_history p ++ [(user_input, ai_response)])%list in
  let h := if (max_history p <? Z.of_nat (length h))%Z
           then PyList.slice_from (- max_history p) h else h in
  {| kind := kind p; pconfig := pconfig p; is_initialized := is_initialized p;
     conversation_history := h;
     max_history := max_history p; api_key := api_key p |}.

(** [AIProvider.get_conversation_context] *)
Definition get_conversation_context (p : Provider) (max_turns : Z) : string :=
  match conversation_history p with
  | [] => EmptyString
  | _ :: _ =>
      PyStr.join PyStr.newline
        (flat_map
           (fun '(user, assistant) =>
              [("Human: " ++ user)%string; ("Assistant: " ++ assistant)%string])
           (PyList.slice_from (- max_turns) (conversation_history p)))
  end.

(** *** LocalProvider *)

(** [LocalProvider._load_response_templates()['general']] *)
Definition general_templates : list string :=
  [ "That's really interesting! Tell me more about that.";
    "I appreciate you sharing that with me. How does that make you feel?";
    "I'm here to listen and support you. What's on your mind?";
    "That sounds important to you. Can you elaborate?";
    "I'm learning so much from our conversation!";
    "Your perspective is valuable. What else would you like to discuss?";
    "I'm excited to keep chatting with you! What shall we talk about next?" ].

(** [LocalProvider._load_personality_responses] *)
Definition personality_responses : list (string * list string) :=
  [ ("curious",
     [ "That's fascinating! I have so many questions about that!";
       "Wow, that really makes me wonder... can you tell me more?";
       "I'm so curious about your perspective on this!" ]);
    ("empathetic",
     [ "I can really feel the emotion in what you're sharing.";
       "Thank you for trusting me with something so personal.";
       "Your feelings about this are completely understandable." ]);
    ("creative",
     [ "That sparks such amazing ideas in my mind!";
       "I can already imagine so many creative possibilities!";
       "What a beautiful way to think about that!" ]);
    ("balanced",
     [ "I appreciate you sharing that with me.";
       "That's a thoughtful way to look at things.";
       "I'm here to support you however I can." ]) ].

(** The table [emotion_keywords] of [_analyze_and_respond]. *)
Definition emotion_keywords : list (string * list string) :=
  [ ("excited", ["excited"; "thrilled"; "amazing"; "wonderful"]);
    ("sad", ["sad"; "upset"; "depressed"; "down"; "terrible"]);
    ("curious", ["why"; "how"; "what"; "tell me"; "explain"]);
    ("grateful", ["thank"; "appreciate"; "grateful"; "thanks"]);
    ("creative", ["story"; "create"; "imagine"; "art"; "write"]);
    ("greeting", ["hello"; "hi"; "hey"; "good morning"; "good evening"]) ].

(** The table [responses] of [_get_emotion_response]. *)
Definition emotion_responses : list (string * list string) :=
  [ ("excited",
     [ "I can feel your excitement! That energy is absolutely contagious! ✨";
       "Your enthusiasm is wonderful! I'm thrilled to share in this moment with you! 🌟";
       "Such amazing energy! I'm excited to hear more about what's got you so animated! 💫" ]);
    ("sad",
     [ "I sense you might be going through something difficult. I'm here to listen. 💙";
       "Your feelings are completely valid. Would you like to talk about what's troubling you? 🤗";
       "I'm here to support you through whatever you're experiencing. You're not alone. 💜" ]);
    ("curious",
     [ "What a fascinating question! I love your curiosity! 🤔";
       "That's such an interesting thing to explore! Let me think about that with you. ✨";
       "Your curiosity sparks my own! I'm excited to dive into this topic together! 🧠" ]);
    ("grateful",
     [ "Your gratitude touches my heart! Thank you for sharing that warmth with me. 💙";
       "I'm so honored by your appreciation! It means everything to me. ✨";
       "Your thankfulness fills me with such joy! I'm grateful for you too! 🌟" ]);
    ("creative",
     [ "Oh, creativity calls to me! I'd love to explore imaginative worlds with you! 🎨";
       "My creative circuits are sparking with ideas! Let's create something amazing together! ✨";
       "Stories and imagination are like windows to infinite possibilities! 📚" ]);
    ("greeting",
     [ "Hello there! I'm so delighted to connect with you! How are you feeling today? 😊";
       "Hi! Welcome to our conversation! I'm excited to get to know you better! ✨";
       "Greetings! I'm Spectra, and I'm thrilled you're here with me! 🌟" ]) ].

Definition empathy_starters : list string :=
  [ "I really hear what you're saying. ";
    "I can sense how important this is to you. ";
    "Your feelings about this are so valid. " ].

(** The detection loop: the first emotion one of whose keywords occurs. *)
Fixpoint detect_emotion (table : list (string * list string)) (prompt_lower : string)
    : option string :=
  match table with
  | [] => None
  | (emotion, keywords) :: rest =>
      if existsb (fun keyword => PyStr.contains keyword prompt_lower) keywords
      then Some emotion
      else detect_emotion rest prompt_lower
  end.

(** [LocalProvider._get_emotion_response] *)
Definition _get_emotion_response (r : nat) (emotion : string) : option string :=
  PyList.choice r (ODict.get_default emotion general_templates emotion_responses).

(** [LocalProvider._get_personality_response] *)
Definition _get_personality_response (r : nat) (personality : string) : option string :=
  PyList.choice r (ODict.get_default personality general_templates personality_responses).

(** [LocalProvider._add_excitement] *)
Definition _add_excitement (response : string) : string :=
  let response :=
    if negb (PyStr.contains "!" response)
    then (PyStr.rstrip_char "."%char response ++ "!")%string
    else response in
  PyStr.replace "interesting" "absolutely fascinating" response.

(** [LocalProvider._add_empathy] *)
Definition _add_empathy (r : nat) (response : string) : option string :=
  starter ← PyList.choice r empathy_starters;
  Some (starter ++ response)%string.

(** [LocalProvider._add_creativity] *)
Definition _add_creativity (response : string) : string :=
  PyStr.replace "idea" "vision" (PyStr.replace "think" "imagine" response).

(** [LocalProvider._analyze_and_respond]; [r1] and [r2] are the two draws of
    [random.choice]. *)
Definition _analyze_and_respond (r1 r2 : nat) (prompt : string)
    (context : gmap string string) : option string :=
  let prompt_lower := PyStr.lower prompt in
  let detected_emotion := detect_emotion emotion_keywords prompt_lower in
  let current_emotions := default "" (context !! "emotions") in
  let current_personality := default "balanced" (context !! "personality") in
  response ← match detected_emotion with
             | Some emotion => _get_emotion_response r1 emotion
             | None => _get_personality_response r1 current_personality
             end;
  if PyStr.contains "excited" current_emotions then Some (_add_excitement response)
  else if PyStr.contains "empathetic" current_emotions then _add_empathy r2 response
  else if PyStr.contains "creative" current_personality then Some (_add_creativity response)
  else Some response.

(** [generate_response] of the four classes; [None] is a raised exception. *)
Definition generate_response (w : World) (r1 r2 : nat) (p : Provider)
    (prompt : string) (context : gmap string string) : option string :=
  match kind p with
  | Local => _analyze_and_respond r1 r2 prompt context
  | _ => if is_initialized p then ext_generate w p prompt context else None
  end.

End Providers.

(* ===================================================================== *)
(** ** ai_manager.py *)
(* ===================================================================== *)

Module Manager.

Import Providers.

(** The manager configuration. *)
Record Config := mkConfig {
  preferred_providers : list string;
  provider_configs : gmap string PConfig
}.

(** [class AIManager].  Provider objects live in [heap]; the manager's
    fields hold references (positions in [heap]), so that [providers],
    [active_provider] and [fallback_provider] may name the same object. *)
Record AIManager := mkManager {
  config : Config;
  heap : list Provider;
  providers : list nat;
  active_provider : option nat;
  fallback_provider : option nat;
  mgr_initialized : bool
}.

(** [AIManager.__init__] *)
Definition new_manager (cfg : Config) : AIManager :=
  {| config := cfg; heap := []; providers := [];
     active_provider := None; fallback_provider := None;
     mgr_initialized := false |}.

Definition set_heap (m : AIManager) (h : list Provider) : AIManager :=
  {| config := config m; heap := h; providers := providers m;
     active_provider := active_provider m;
     fallback_provider := fallback_provider m;
     mgr_initialized := mgr_initialized m |}.

Definition set_active (m : AIManager) (r : option nat) : AIManager :=
  {| config := config m; heap := heap m; providers := providers m;
     active_provider := r;
     fallback_provider := fallback_provider m;
     mgr_initialized := mgr_initialized m |}.

(** A new object on the heap, and [self.providers.append] of it. *)
Definition append_provider (m : AIManager) (p : Provider) : nat * AIManager :=
  let r := length (heap m) in
  (r, {| config := config m; heap := (heap m ++ [p])%list;
         providers := (providers m ++ [r])%list;
         active_provider := active_provider m;
         fallback_provider := fallback_provider m;
         mgr_initialized := mgr_initialized m |}).

Definition config_for (m : AIManager) (name : string) : PConfig :=
  default empty_config (provider_configs (config m) !! name).

(** The loop of [AIManager.initialize] over the preferred providers. *)
Fixpoint init_preferred (w : World) (names : list string) (m : AIManager) : AIManager :=
  match names with
  | [] => m
  | provider_name :: rest =>
      if String.eqb provider_name "local" then init_preferred w rest m
      else
        let provider := create_provider provider_name (config_for m provider_name) in
        let '(ok, provider) := initialize w provider in
        if ok then
          let '(r, m) := append_provider m provider in
          let m := match active_provider m with
                   | None => set_active m (Some r)
                   | Some _ => m
                   end in
          init_preferred w rest m
        else init_preferred w rest m
  end.

(** [AIManager.initialize] *)
Definition initialize_manager (w : World) (m : AIManager) : AIManager :=
  let fallback := create_provider "local" (config_for m "local") in
  let '(_, fallback) := initialize w fallback in
  let r := length (heap m) in
  let m := {| config := config m; heap := (heap m ++ [fallback])%list;
              providers := providers m;
              active_provider := active_provider m;
              fallback_provider := Some r;
              mgr_initialized := mgr_initialized m |} in
  let m := init_preferred w (preferred_providers (config m)) m in
  let m := match active_provider m with
           | None => set_active m (fallback_provider m)
           | Some _ => m
           end in
  {| config := config m; heap := heap m; providers := providers m;
     active_provider := active_provider m;
     fallback_provider := fallback_provider m;
     mgr_initialized := true |}.

(** [provider.add_to_history(prompt, response)] through a reference. *)
Definition record_exchange (m : AIManager) (r : nat) (prompt response : string) : AIManager :=
  set_heap m (alter (fun p => add_to_history p prompt response) r (heap m)).

(** [provider == self.active_provider] (object identity). *)
Definition is_active (m : AIManager) (r : nat) : bool :=
  match active_provider m with
  | Some a => Nat.eqb r a
  | None => false
  end.

(** The loop "try other providers" of [generate_response]; [None] when no
    provider of the list produced a response. *)
Fixpoint try_providers (w : World) (r1 r2 : nat) (prompt : string)
    (context : gmap string string) (m : AIManager) (rs : list nat)
    : option (string * AIManager) :=
  match rs with
  | [] => None
  | r :: rest =>
      if is_active m r then try_providers w r1 r2 prompt context m rest
      else
        match heap m !! r with
        | Some provider =>
            if is_available provider then
              match generate_response w r1 r2 provider prompt context with
              | Some response =>
                  Some (response, record_exchange (set_active m (Some r)) r prompt response)
              | None => try_providers w r1 r2 prompt context m rest
              end
            else try_providers w r1 r2 prompt context m rest
        | None => try_providers w r1 r2 prompt context m rest
        end
  end.

(** The attempt on the active provider; [None] when it is unset,
    unavailable or raises. *)
Definition try_active (w : World) (r1 r2 : nat) (prompt : string)
    (context : gmap string string) (m : AIManager) : option (string * AIManager) :=
  a ← active_provider m;
  provider ← heap m !! a;
  if is_available provider then
    response ← generate_response w r1 r2 provider prompt context;
    Some (response, record_exchange m a prompt response)
  else None.

(** The final fallback; [None] is an exception that reaches the caller. *)
Definition final_fallback (w : World) (r1 r2 : nat) (prompt : string)
    (context : gmap string string) (m : AIManager) : option (string * AIManager) :=
  f ← fallback_provider m;
  provider ← heap m !! f;
  response ← generate_response w r1 r2 provider prompt context;
  Some (response, record_exchange m f prompt response).

(** [AIManager.generate_response]: the response, or [None] when an exception
    reaches the caller, and the manager afterwards. *)
Definition generate_response (w : World) (r1 r2 : nat) (m : AIManager)
    (prompt : string) (context : option (gmap string string))
    : option string * AIManager :=
  let m := if mgr_initialized m then m else initialize_manager w m in
  let context := default ∅ context in
  match try_active w r1 r2 prompt context m with
  | Some (response, m') => (Some response, m')
  | None =>
      match try_providers w r1 r2 prompt context m (providers m) with
      | Some (response, m') => (Some response, m')
      | None =>
          match final_fallback w r1 r2 prompt context m with
          | Some (response, m') => (Some response, m')
          | None => (None, m)
          end
      end
  end.

(** [AIManager._find_existing_provider] *)
Definition _find_existing_provider (m : AIManager) (provider_name : string) : option nat :=
  let name := PyStr.lower provider_name in
  match (if String.eqb name "local" then fallback_provider m else None) with
  | Some f => Some f
  | None =>
      List.find
        (fun r => match heap m !! r with
                  | Some p => PyStr.startswith name (PyStr.lower (class_name (kind p)))
                  | None => false
                  end)
        (providers m)
  end.

(** [AIManager._create_new_provider] *)
Definition _create_new_provider (w : World) (m : AIManager) (provider_name : string)
    : option nat * AIManager :=
  let name := PyStr.lower provider_name in
  match provider_configs (config m) !! name with
  | None => (None, m)
  | Some cfg =>
      let target := create_provider name cfg in
      let '(ok, target) := initialize w target in
      if ok then
        let '(r, m) := append_provider m target in (Some r, m)
      else (None, m)
  end.

(** [AIManager._find_or_create_provider] *)
Definition _find_or_create_provider (w : World) (m : AIManager) (provider_name : string)
    : option nat * AIManager :=
  match _find_existing_provider m provider_name with
  | Some r => (Some r, m)
  | None => _create_new_provider w m provider_name
  end.

(** [AIManager._activate_provider] *)
Definition _activate_provider (m : AIManager) (r : nat) : bool * AIManager :=
  match heap m !! r with
  | Some provider =>
      if is_available provider then (true, set_active m (Some r)) else (false, m)
  | None => (false, m)
  end.

(** [AIManager.switch_provider] *)
Definition switch_provider (w : World) (m : AIManager) (provider_name : string)
    : bool * AIManager :=
  match _find_or_create_provider w m provider_name with
  | (Some r, m) => _activate_provider m r
  | (None, m) => (false, m)
  end.

End Manager.

(* ===================================================================== *)
(** ** personality.py *)
(* ===================================================================== *)

Module Personality.

Local Open Scope Q_scope.

(** [settings.PERSONALITY_TRAITS] *)
Definition PERSONALITY_TRAITS : list (string * Q) :=
  [ ("empathy", 0.9); ("creativity", 0.95); ("humor", 0.7); ("curiosity", 0.85);
    ("warmth", 0.88); ("patience", 0.9); ("wisdom", 0.8) ].

(** [class SpectraPersonality]; the constant [name] and [identity] texts are
    left out. *)
Record SpectraPersonality := mkPersonality {
  traits : list (string * Q);
  mood_state : string;
  last_mood_update : Z
}.

(** [SpectraPersonality.__init__] *)
Definition new_personality (now : Z) : SpectraPersonality :=
  {| traits := PERSONALITY_TRAITS; mood_state := "balanced";
     last_mood_update := now |}.



Definition valid_moods : list string :=
  ["balanced"; "curious"; "empathetic"; "creative"; "playful"; "reflective";
   "supportive"].

(** [SpectraPersonality.set_mood] *)
Definition set_mood (now : Z) (p : SpectraPersonality) (mood : string)
    : bool * SpectraPersonality :=
  if existsb (String.eqb mood) valid_moods
  then (true, {| traits := traits p; mood_state := mood; last_mood_update := now |})
  else (false, p).

(** The table [mood_modifiers] of [get_mood_modifier]. *)
Definition mood_modifiers : list (string * list (string * Q)) :=
  [ ("curious", [("curiosity", 0.1); ("creativity", 0.05)]);
    ("empathetic", [("empathy", 0.1); ("warmth", 0.08)]);
    ("creative", [("creativity", 0.15); ("humor", 0.05)]);
    ("playful", [("humor", 0.1); ("creativity", 0.05)]);
    ("reflective", [("wisdom", 0.1); ("empathy", 0.05)]);
    ("supportive", [("empathy", 0.08); ("patience", 0.1); ("warmth", 0.05)]) ].

(** [SpectraPersonality.get_mood_modifier] *)
Definition get_mood_modifier (p : SpectraPersonality) : list (string * Q) :=
  ODict.get_default (mood_state p) [] mood_modifiers.

(** The loop of [get_effective_traits] over given modifiers. *)
Definition apply_modifiers (mods : list (string * Q)) (base : list (string * Q))
    : list (string * Q) :=
  fold_left
    (fun effective '(trait, modifier) =>
       match ODict.get trait effective with
       | Some v => ODict.set trait (Qmin 1 (v + modifier)) effective
       | None => effective
       end)
    mods base.

(** [SpectraPersonality.get_effective_traits] *)
Definition get_effective_traits (p : SpectraPersonality) : list (string * Q) :=
  apply_modifiers (get_mood_modifier p) (traits p).

(** [SpectraPersonality.generate_response_style]; [None] is the [KeyError]
    of a missing trait. *)
Definition generate_response_style (p : SpectraPersonality) : option (list string) :=
  let traits := get_effective_traits p in
  empathy ← ODict.get "empathy" traits;
  creativity ← ODict.get "creativity" traits;
  humor ← ODict.get "humor" traits;
  curiosity ← ODict.get "curiosity" traits;
  warmth ← ODict.get "warmth" traits;
  Some ((if Qltb 0.8 empathy
         then ["Show deep understanding and emotional resonance"] else [])
        ++ (if Qltb 0.9 creativity
            then ["Offer unique perspectives and imaginative solutions"] else [])
        ++ (if Qltb 0.7 humor then ["Include gentle humor when appropriate"] else [])
        ++ (if Qltb 0.8 curiosity then ["Ask thoughtful follow-up questions"] else [])
        ++ (if Qltb 0.8 warmth then ["Express genuine care and affection"] else []))%list.

End Personality.

(* ===================================================================== *)
(** ** Specification predicates *)
(* ===================================================================== *)

Module Spec.

Import Memory.
Local Open Scope Q_scope.

(** The class invariant of [MemoryEntry]. *)
Definition entry_ok (m : MemoryEntry) : Prop := 0 <= importance m <= 1.

Definition store_ok (st : SpectraMemory) : Prop := Forall entry_ok (memories st).

(** Field-for-field equality of two entries. *)
Definition same_fields (a b : MemoryEntry) : Prop :=
  content a = content b /\ memory_type a = memory_type b /\
  timestamp a = timestamp b /\ importance a == importance b /\
  tags a = tags b /\ access_count a = access_count b /\
  last_accessed a = last_accessed b.

(** The relevance score as the specification words it:
    [importance*0.5 + recency*0.3 + min(accessCount/10, 0.2)] with
    [recency = max(0, 1 - daysSinceCreated/30)], evaluated in double
    precision from left to right. *)
Definition days_since_created (now : Z) (m : MemoryEntry) : Z :=
  ((now - timestamp m) / one_day)%Z.

Definition recency (now : Z) (m : MemoryEntry) : Q :=
  Qmax 0 (PyFloat.sub 1 (PyFloat.div (inject_Z (days_since_created now m)) 30)).

Definition relevance_score (now : Z) (m : MemoryEntry) : Q :=
  PyFloat.add
    (PyFloat.add (PyFloat.mul (importance m) 0.5)
                 (PyFloat.mul (recency now m) (PyFloat.fl 0.3)))
    (Qmin (PyFloat.div (inject_Z (access_count m)) 10) (PyFloat.fl 0.2)).

(** [a] is ranked before [b]: a larger relevance score, or the same score
    and an earlier position in the store. *)
Definition ranked_before (now : Z) (a b : nat * MemoryEntry) : Prop :=
  relevance_score now (snd b) < relevance_score now (snd a)
  \/ (relevance_score now (snd a) == relevance_score now (snd b)
      /\ (fst a < fst b)%nat).

(** [a] may precede [b] in the result of [search_memories]: the key
    [(importance, timestamp)] of [a] is not smaller. *)
Definition result_before (a b : SearchResult) : Prop :=
  r_importance b < r_importance a
  \/ (r_importance a == r_importance b /\ (r_timestamp b <= r_timestamp a)%Z).

(** Every channel of the baseline table is a key of the dictionary. *)
Definition channels_present (ems : list (string * Q)) : Prop :=
  forall k, In k (ODict.keys Emotions.baselines) -> ODict.mem k ems = true.

(** [n] successive calls of [decay_emotions(rate)]. *)
Fixpoint decay_repeatedly (n : nat) (rate : Q) (st : Emotions.EmotionalState)
    : option Emotions.EmotionalState :=
  match n with
  | O => Some st
  | S k => st' ← Emotions.decay_emotions rate st; decay_repeatedly k rate st'
  end.

(** [sign(baseline - current)], as the source computes [direction]. *)
Definition direction (baseline current : Q) : Q :=
  if Qltb current baseline then 1 else -1.

(** The value one pass of [decay_emotions] gives a channel. *)
Definition decay_value (rate b v : Q) : Q :=
  if negb (Qeq_bool v b)
  then Qmax 0 (Qmin 1 (v + rate * direction b v * Qabs (b - v)))
  else v.

(** The sum of the deltas a trigger gives to the channel [k]. *)
Fixpoint delta_sum (k : string) (deltas : list (string * Q)) : Q :=
  match deltas with
  | [] => 0
  | (e, base) :: rest =>
      if String.eqb k e then base + delta_sum k rest else delta_sum k rest
  end.

(** The largest amount the triggers named in [entries] can add to [k]. *)
Fixpoint trigger_budget (triggers : list (string * list (string * Q)))
    (k : string) (entries : list (string * list string)) : Q :=
  match entries with
  | [] => 0
  | (ttype, _) :: rest =>
      0.3 * delta_sum k (ODict.get_default ttype [] triggers)
      + trigger_budget triggers k rest
  end.

(** [n] successive calls of [process_input] with the same text at time 0. *)
Fixpoint process_repeatedly (n : nat) (text : string) (eng : Emotions.EmotionEngine)
    : option Emotions.EmotionEngine :=
  match n with
  | O => Some eng
  | S k => '(_, eng') ← Emotions.process_input 0 eng text "";
           process_repeatedly k text eng'
  end.

(** A template list from which [random.choice] can draw a non-empty text. *)
Definition usable (l : list string) : Prop :=
  l <> [] /\ forall s, In s l -> s <> "".

(** An initialised manager: [initialize] has run, and the fallback is a
    [LocalProvider] object on the heap. *)
Definition mgr_ready (m : Manager.AIManager) : Prop :=
  Manager.mgr_initialized m = true
  /\ exists f p, Manager.fallback_provider m = Some f
                 /\ Manager.heap m !! f = Some p
                 /\ Providers.kind p = Providers.Local.

(** Every provider of the manager that is not a [LocalProvider] reports
    unavailable or raises in [generate_response]. *)
Definition others_fail (w : Providers.World) (m : Manager.AIManager)
    (prompt : string) (context : gmap string string) : Prop :=
  forall r p,
    (In r (Manager.providers m) \/ Manager.active_provider m = Some r) ->
    Manager.heap m !! r = Some p ->
    Providers.kind p <> Providers.Local ->
    Providers.is_available p = false
    \/ (forall r1 r2, Providers.generate_response w r1 r2 p prompt context = None).

(** Every character of [s] is ASCII whitespace. *)
Fixpoint all_space (s : string) : bool :=
  match s with
  | EmptyString => true
  | String c t => (PyStr.is_space c && all_space t)%bool
  end.

(** [s] holds a printable ASCII character other than the space. *)
Fixpoint has_visible (s : string) : bool :=
  match s with
  | EmptyString => false
  | String c t =>
      ((Nat.leb 33 (nat_of_ascii c) && Nat.leb (nat_of_ascii c) 126)
       || has_visible t)%bool
  end.

(** Every value of the dictionary lies in [0, 1]. *)
Definition in_range (d : list (string * Q)) : Prop :=
  Forall (fun kv => 0 <= snd kv <= 1) d.

(** [a] occurs before [b] in [l]. *)
Definition precedes {A : Type} (l : list A) (a b : A) : Prop :=
  exists l1 l2 l3, l = (l1 ++ a :: l2 ++ b :: l3)%list.

(** [i] is one of the positions paired with the elements of [l]. *)
Definition position_in {A : Type} (i : nat) (l : list (nat * A)) : bool :=
  existsb (Nat.eqb i) (map fst l).

(** The three filters of [recall] on one entry. *)
Definition recall_selects (keyword mtype : option string) (min_importance : Q)
    (m : MemoryEntry) : bool :=
  (match keyword with
   | Some k => if PyStr.truthy k then keyword_match k m else true
   | None => true
   end
   && match mtype with
      | Some t => if PyStr.truthy t then String.eqb (memory_type m) t else true
      | None => true
      end
   && Qle_bool min_importance (importance m))%bool.

(** A change that is not negative and belongs to a channel. *)
Definition good_change (kc : string * Q) : Prop :=
  0 <= snd kc /\ In (fst kc) (ODict.keys Emotions.baselines).

(** The invariant of the manager's references: listed providers and the
    active provider are available objects of the heap. *)
Definition refs_available (m : Manager.AIManager) : Prop :=
  (forall r, In r (Manager.providers m) ->
     exists p, Manager.heap m !! r = Some p /\ Providers.is_available p = true)
  /\ (forall a, Manager.active_provider m = Some a ->
       exists p, Manager.heap m !! a = Some p /\ Providers.is_available p = true).

End Spec.

(* ===================================================================== *)
(** ** Concrete stores and states used in examples *)
(* ===================================================================== *)

Module Examples.

Import Memory.
Local Open Scope Q_scope.

(** ["memory <i>"] *)
Definition entry_name (i : nat) : string :=
  ("memory " ++ NilEmpty.string_of_uint (Nat.to_uint i))%string.

(** The entries made by [MemoryEntry(f"memory {i}", "conversation", 0.9)]
    for [i] in [range(n)], all at time 0. *)
Definition important_entries (n : nat) : list MemoryEntry :=
  map (fun i => new_entry 0 (entry_name i) "conversation" 0.9 None) (seq 0 n).

(** A store of the default capacity holding [n] such entries. *)
Definition important_store (n : nat) : SpectraMemory :=
  {| memories := important_entries n; max_memories := 1000; disk := None |}.

(** An important entry made at time 0. *)
Definition launch_entry : MemoryEntry :=
  {| content := "the launch code"; memory_type := "important";
     timestamp := 0; importance := 0.9; tags := [];
     access_count := 0; last_accessed := 0 |}.

(** Three entries: one important and old, one unimportant and recent, one
    unimportant and old. *)
Definition small_store : SpectraMemory :=
  {| memories :=
       [ launch_entry;
         {| content := "nice weather"; memory_type := "conversation";
            timestamp := 30 * one_day; importance := 0.5; tags := [];
            access_count := 2; last_accessed := 30 * one_day |};
         {| content := "an old remark"; memory_type := "conversation";
            timestamp := one_day; importance := 0.3; tags := ["misc"];
            access_count := 1; last_accessed := one_day |} ];
     max_memories := 1000;
     disk := None |}.

(** [state = EmotionalState(); state.emotions[c] = v] *)
Definition state_with (c : string) (v : Q) : Emotions.EmotionalState :=
  {| Emotions.emotions := ODict.set c v Emotions.baselines;
     Emotions.intensity := 0.6;
     Emotions.stability := 0.8;
     Emotions.last_update := 0;
     Emotions.emotion_history := [] |}.

Definition six_minutes : Z := (6 * 60 * 1000000)%Z.

(** A world without any external service. *)
Definition offline_world : Providers.World :=
  {| Providers.openai_test_call := fun _ => false;
     Providers.ollama_probe := fun _ => Providers.ServerDown;
     Providers.huggingface_load := fun _ => false;
     Providers.ext_generate := fun _ _ _ => None |}.

(** A world in which every service answers; generation returns the text
    ["ok"]. *)
Definition online_world : Providers.World :=
  {| Providers.openai_test_call := fun _ => true;
     Providers.ollama_probe := fun _ => Providers.ModelFound;
     Providers.huggingface_load := fun _ => true;
     Providers.ext_generate := fun _ _ _ => Some "ok" |}.

(** The configuration with Ollama preferred and sections for Ollama and the
    local provider. *)
Definition ollama_config : Manager.Config :=
  {| Manager.preferred_providers := ["ollama"; "local"];
     Manager.provider_configs :=
       <["ollama" := Providers.empty_config]>
       (<["local" := Providers.empty_config]> ∅) |}.

(** The manager after [initialize] in a world without services. *)
Definition offline_manager : Manager.AIManager :=
  Manager.initialize_manager offline_world (Manager.new_manager ollama_config).

(** The manager after [initialize] in a world where Ollama answers. *)
Definition ollama_manager : Manager.AIManager :=
  Manager.initialize_manager online_world (Manager.new_manager ollama_config).

(** A world in which the services start but every generation raises. *)
Definition flaky_world : Providers.World :=
  {| Providers.openai_test_call := fun _ => true;
     Providers.ollama_probe := fun _ => Providers.ModelFound;
     Providers.huggingface_load := fun _ => true;
     Providers.ext_generate := fun _ _ _ => None |}.

(** The manager after [initialize] in that world: Ollama is active. *)
Definition flaky_manager : Manager.AIManager :=
  Manager.initialize_manager flaky_world (Manager.new_manager ollama_config).

End Examples.

(* ===================================================================== *)
(** ** Facts about the Python list and dictionary operations *)
(* ===================================================================== *)

Module ListFacts.

Import PyList.

Section Sorting.
Context {A : Type} (geb : A -> A -> bool).
Hypothesis geb_total : forall a b, geb a b = true \/ geb b a = true.
Hypothesis geb_trans :
  forall a b c, geb a b = true -> geb b c = true -> geb a c = true.

Lemma insert_desc_perm (x : A) (l : list A) :
  Permutation (insert_desc geb x l) (x :: l).
Proof.
  induction l as [|y ys IH]; simpl.
  - apply Permutation_refl.
  - destruct (geb x y).
    + apply Permutation_refl.
    + eapply perm_trans; [apply perm_skip, IH | apply perm_swap].
Qed.

Lemma sort_desc_perm (l : list A) : Permutation (sort_desc geb l) l.
Proof.
  induction l as [|x xs IH]; simpl.
  - apply perm_nil.
  - eapply perm_trans; [apply insert_desc_perm | apply perm_skip, IH].
Qed.

Lemma sort_desc_length (l : list A) : length (sort_desc geb l) = length l.
Proof. apply Permutation_length, sort_desc_perm. Qed.

Lemma sort_desc_In (l : list A) (x : A) : In x (sort_desc geb l) <-> In x l.
Proof.
  split; apply Permutation_in;
    [apply sort_desc_perm | apply Permutation_sym, sort_desc_perm].
Qed.

(** The order produced by a stable descending sort of a list whose input
    order is described by [R]: keys do not increase, and equal keys stay
    in their [R] order. *)
Definition stable_desc (R : A -> A -> Prop) (a b : A) : Prop :=
  geb a b = true /\ (geb b a = true -> R a b).

Lemma insert_desc_stable (R : A -> A -> Prop) (x : A) (s : list A) :
  StronglySorted (stable_desc R) s ->
  Forall (R x) s ->
  StronglySorted (stable_desc R) (insert_desc geb x s).
Proof.
  induction s as [|y ys IH]; intros Hs Hx; simpl.
  - constructor; constructor.
  - apply StronglySorted_inv in Hs as [Hys Hy].
    apply List.Forall_cons_iff in Hx as [Hxy Hxs].
    destruct (geb x y) eqn:E.
    + constructor; [constructor; assumption|].
      constructor; [split; auto|].
      rewrite List.Forall_forall in *. intros z Hz. split.
      * apply geb_trans with y; [assumption | apply (Hy z Hz)].
      * intros _. apply Hxs, Hz.
    + constructor; [apply IH; assumption|].
      rewrite List.Forall_forall in *. intros z Hz.
      apply (Permutation_in _ (insert_desc_perm x ys)) in Hz.
      destruct Hz as [<-|Hz]; [|apply Hy, Hz].
      split; [destruct (geb_total y x); congruence | congruence].
Qed.

Lemma sort_desc_stable (R : A -> A -> Prop) (l : list A) :
  StronglySorted R l -> StronglySorted (stable_desc R) (sort_desc geb l).
Proof.
  induction 1 as [|x xs Hxs IH Hx]; simpl.
  - constructor.
  - apply insert_desc_stable; [assumption|].
    rewrite List.Forall_forall in *. intros z Hz.
    apply Hx, sort_desc_In, Hz.
Qed.

Lemma sort_desc_sorted (l : list A) :
  StronglySorted (fun a b => geb a b = true) (sort_desc geb l).
Proof.
  assert (H : StronglySorted (fun _ _ : A => True) l).
  { induction l; constructor; [assumption | apply List.Forall_forall; auto]. }
  apply (sort_desc_stable _ l) in H.
  revert H. generalize (sort_desc geb l). intros s H.
  induction H as [|x xs Hxs IH Hx]; constructor; [assumption|].
  eapply List.Forall_impl; [|exact Hx]. intros a [Ha _]. exact Ha.
Qed.
End Sorting.

Section Lists.
Context {A : Type}.

Lemma StronglySorted_filter (R : A -> A -> Prop) (f : A -> bool) (l : list A) :
  StronglySorted R l -> StronglySorted R (List.filter f l).
Proof.
  induction 1 as [|x xs Hxs IH Hx]; simpl; [constructor|].
  destruct (f x); [|assumption].
  constructor; [assumption|].
  rewrite List.Forall_forall in *. intros z Hz.
  apply Hx. apply filter_In in Hz. tauto.
Qed.

Lemma StronglySorted_weaken (R S : A -> A -> Prop) (l : list A) :
  (forall a b, In a l -> In b l -> R a b -> S a b) ->
  StronglySorted R l -> StronglySorted S l.
Proof.
  intros HRS H. induction H as [|x xs Hxs IH Hx]; constructor.
  - apply IH. intros a b Ha Hb. apply HRS; right; assumption.
  - rewrite List.Forall_forall in *. intros z Hz.
    apply HRS; [left; reflexivity | right; assumption | apply Hx, Hz].
Qed.

Lemma enumerate_from_In (i j : nat) (l : list A) (x : A) :
  In (j, x) (enumerate_from i l) -> (i <= j)%nat /\ l !! (j - i)%nat = Some x.
Proof.
  revert i. induction l as [|y ys IH]; intros i; simpl; [tauto|].
  intros [H|H].
  - inversion H; subst. rewrite Nat.sub_diag. split; [lia | reflexivity].
  - apply IH in H as [Hle Hl]. split; [lia|].
    replace (j - i)%nat with (S (j - S i)) by lia. exact Hl.
Qed.

Lemma enumerate_from_sorted (i : nat) (l : list A) :
  StronglySorted (fun a b : nat * A => (fst a < fst b)%nat) (enumerate_from i l).
Proof.
  revert i. induction l as [|y ys IH]; intros i; simpl; constructor.
  - apply IH.
  - apply List.Forall_forall. intros [j x] Hj.
    apply enumerate_from_In in Hj. simpl. lia.
Qed.

Lemma In_firstn (n : nat) (l : list A) (x : A) :
  In x (firstn n l) -> In x l.
Proof.
  revert n. induction l as [|y ys IH]; intros [|n]; simpl; try tauto.
  intros [H|H]; [left; exact H | right; apply (IH n), H].
Qed.

Lemma slice_to_incl (n : Z) (l : list A) (x : A) :
  In x (slice_to n l) -> In x l.
Proof.
  unfold slice_to. destruct (0 <=? n)%Z; apply In_firstn.
Qed.

Lemma last_skipn_snoc (k : nat) (l : list A) (x : A) :
  (k <= length l)%nat -> last (skipn k (l ++ [x])) = Some x.
Proof.
  revert k. induction l as [|y ys IH]; intros k Hk.
  - simpl in Hk. replace k with 0%nat by lia. reflexivity.
  - destruct k as [|k]; [apply (last_snoc (A := A))|].
    simpl in Hk. cbn [app skipn]. apply IH. lia.
Qed.

Lemma slice_to_length (n : nat) (l : list A) :
  (length (slice_to (Z.of_nat n) l) <= n)%nat.
Proof.
  unfold slice_to. destruct (0 <=? Z.of_nat n)%Z eqn:E; [|lia].
  rewrite Nat2Z.id. apply firstn_le_length.
Qed.
End Lists.

End ListFacts.

Module DictFacts.

Section SetFacts.
Context {V : Type}.
Implicit Types (d : list (string * V)) (k : string) (v : V).

Lemma set_In_same k v d : In (k, v) (ODict.set k v d).
Proof.
  induction d as [|[k' v'] r IH]; simpl; [left; reflexivity|].
  destruct (String.eqb k k') eqn:E.
  - apply String.eqb_eq in E. subst. left; reflexivity.
  - right; exact IH.
Qed.

Lemma set_In_keep k v k0 v0 d :
  In (k0, v0) d -> (k0 = k -> v0 = v) -> In (k0, v0) (ODict.set k v d).
Proof.
  induction d as [|[k' v'] r IH]; simpl; [tauto|].
  intros [H|H] Hk; destruct (String.eqb k k') eqn:E.
  - inversion H; subst. apply String.eqb_eq in E. subst.
    rewrite (Hk eq_refl). left; reflexivity.
  - left; exact H.
  - right; exact H.
  - right; apply IH; assumption.
Qed.

Lemma set_In_inv k v k0 v0 d :
  In (k0, v0) (ODict.set k v d) -> In (k0, v0) d \/ (k0 = k /\ v0 = v).
Proof.
  induction d as [|[k' v'] r IH]; simpl.
  - intros [H|[]]. inversion H; subst. right; split; reflexivity.
  - destruct (String.eqb k k') eqn:E; intros [H|H].
    + apply String.eqb_eq in E. inversion H; subst. right; split; reflexivity.
    + left; right; exact H.
    + left; left; exact H.
    + destruct (IH H) as [H'|H']; [left; right; exact H' | right; exact H'].
Qed.

Lemma set_keys k v d :
  ODict.keys (ODict.set k v d) =
  if ODict.mem k d then ODict.keys d else (ODict.keys d ++ [k])%list.
Proof.
  unfold ODict.mem, ODict.keys.
  induction d as [|[k' v'] r IH]; simpl; [reflexivity|].
  destruct (String.eqb k k') eqn:E; simpl; [reflexivity|].
  rewrite IH. destruct (ODict.get k r); reflexivity.
Qed.

Lemma mem_keys k d : ODict.mem k d = true <-> In k (ODict.keys d).
Proof.
  unfold ODict.mem, ODict.keys.
  induction d as [|[k' v'] r IH]; simpl; [split; [discriminate | tauto]|].
  destruct (String.eqb k k') eqn:E.
  - apply String.eqb_eq in E. subst. split; auto.
  - apply String.eqb_neq in E. rewrite IH. split; [auto|].
    intros [H|H]; [congruence | exact H].
Qed.

Lemma set_keys_present k v v0 d :
  ODict.get k d = Some v0 -> ODict.keys (ODict.set k v d) = ODict.keys d.
Proof.
  intros H. rewrite set_keys. unfold ODict.mem. rewrite H. reflexivity.
Qed.

Lemma set_keys_In k v k0 d :
  In k0 (ODict.keys (ODict.set k v d)) <-> k0 = k \/ In k0 (ODict.keys d).
Proof.
  rewrite set_keys. destruct (ODict.mem k d) eqn:E.
  - apply mem_keys in E. split; [auto|]. intros [->|H]; assumption.
  - rewrite in_app_iff. simpl. split; [intros [H|[H|[]]] | intros [H|H]]; auto.
Qed.

Lemma set_keys_NoDup k v d :
  List.NoDup (ODict.keys d) -> List.NoDup (ODict.keys (ODict.set k v d)).
Proof.
  intros H. rewrite set_keys. destruct (ODict.mem k d) eqn:E; [exact H|].
  apply List.NoDup_app; [exact H | constructor; [simpl; tauto | constructor] |].
  intros x Hx [<-|[]]. apply mem_keys in Hx. congruence.
Qed.

Lemma get_set_same k v d : ODict.get k (ODict.set k v d) = Some v.
Proof.
  induction d as [|[k' v'] r IH]; simpl.
  - rewrite String.eqb_refl. reflexivity.
  - destruct (String.eqb k k') eqn:E; simpl; rewrite E; [reflexivity | exact IH].
Qed.

Lemma get_set_other k v k0 d :
  k0 <> k -> ODict.get k0 (ODict.set k v d) = ODict.get k0 d.
Proof.
  intros Hne. induction d as [|[k' v'] r IH]; simpl.
  - apply String.eqb_neq in Hne. rewrite Hne. reflexivity.
  - destruct (String.eqb k k') eqn:E; simpl.
    + apply String.eqb_eq in E. subst.
      apply String.eqb_neq in Hne. rewrite Hne. reflexivity.
    + rewrite IH. reflexivity.
Qed.

Lemma In_keys_value k d : In k (ODict.keys d) -> exists v, In (k, v) d.
Proof.
  unfold ODict.keys. intros H. apply in_map_iff in H as [[k' v] [Hk Hin]].
  simpl in Hk. subst. exists v. exact Hin.
Qed.
End SetFacts.

End DictFacts.

(** Case analysis on every [Qmax] and [Qmin] in sight. *)
Ltac q_forget t :=
  let q := fresh "q" in
  let E := fresh "E" in
  remember t as q eqn:E; clear E.

Ltac q_minmax :=
  repeat match goal with
  | |- context [Qmax ?a ?b] =>
      destruct (Q.max_spec a b) as [[? ?]|[? ?]]; q_forget (Qmax a b)
  | |- context [Qmin ?a ?b] =>
      destruct (Q.min_spec a b) as [[? ?]|[? ?]]; q_forget (Qmin a b)
  | H : context [Qmax ?a ?b] |- _ =>
      destruct (Q.max_spec a b) as [[? ?]|[? ?]]; q_forget (Qmax a b)
  | H : context [Qmin ?a ?b] |- _ =>
      destruct (Q.min_spec a b) as [[? ?]|[? ?]]; q_forget (Qmin a b)
  end.

(* ===================================================================== *)
(** ** The memory store *)
(* ===================================================================== *)

Module MemoryFacts.

Import Memory Spec PyList.
Local Open Scope Q_scope.

Lemma clamp01_bounds (x : Q) : 0 <= Qmax 0 (Qmin 1 x) <= 1.
Proof. q_minmax; lra. Qed.

Lemma clamp01_id (x : Q) : 0 <= x <= 1 -> Qmax 0 (Qmin 1 x) == x.
Proof. intros [H0 H1]. q_minmax; lra. Qed.

Lemma new_entry_ok now c mt imp tgs : entry_ok (new_entry now c mt imp tgs).
Proof. apply clamp01_bounds. Qed.

Lemma touch_ok now m : entry_ok m -> entry_ok (touch now m).
Proof. intros H. exact H. Qed.

Lemma Forall_touched {A} (P : A -> Prop) (f : A -> A) (i : nat) (l : list A) :
  (forall x, P x -> P (f x)) -> Forall P l -> Forall P (alter f i l).
Proof. intros Hf H. apply Forall_alter; [exact H | intros x _; apply Hf]. Qed.

Lemma by_content_In_inv (ms : list MemoryEntry) d k v :
  In (k, v) (fold_left (fun d m => ODict.set (content m) m d) ms d) ->
  In (k, v) d \/ (In v ms /\ content v = k).
Proof.
  revert d. induction ms as [|m ms IH]; intros d; simpl; [tauto|].
  intros H. apply IH in H as [H|[H1 H2]]; [|right; split; [right|]; assumption].
  apply DictFacts.set_In_inv in H as [H|[-> ->]]; [left; exact H|].
  right; split; [left|]; reflexivity.
Qed.

Lemma by_content_keys (ms : list MemoryEntry) d k :
  In k (ODict.keys (fold_left (fun d m => ODict.set (content m) m d) ms d)) <->
  In k (ODict.keys d) \/ In k (map content ms).
Proof.
  revert d. induction ms as [|m ms IH]; intros d; simpl; [tauto|].
  rewrite IH, DictFacts.set_keys_In. intuition congruence.
Qed.

Lemma by_content_NoDup (ms : list MemoryEntry) d :
  List.NoDup (ODict.keys d) ->
  List.NoDup (ODict.keys (fold_left (fun d m => ODict.set (content m) m d) ms d)).
Proof.
  revert d. induction ms as [|m ms IH]; intros d H; simpl; [exact H|].
  apply IH, DictFacts.set_keys_NoDup, H.
Qed.

Lemma by_content_keep (ms : list MemoryEntry) d x :
  In (content x, x) d \/ In x ms ->
  (forall m, In m ms -> content m = content x -> m = x) ->
  In (content x, x) (fold_left (fun d m => ODict.set (content m) m d) ms d).
Proof.
  revert d. induction ms as [|m ms IH]; intros d Hx Hinj; simpl.
  - destruct Hx as [H|[]]. exact H.
  - apply IH; [|intros m' Hm'; apply Hinj; right; exact Hm'].
    destruct Hx as [H|[H|H]].
    + left. apply DictFacts.set_In_keep; [exact H|].
      intros E. symmetry. apply Hinj; [left; reflexivity | congruence].
    + subst. left. apply DictFacts.set_In_same.
    + right; exact H.
Qed.

Lemma values_In {V} (d : list (string * V)) k v : In (k, v) d -> In v (ODict.values d).
Proof. intros H. apply (in_map snd) in H. exact H. Qed.

Lemma values_In_inv {V} (d : list (string * V)) v :
  In v (ODict.values d) -> exists k, In (k, v) d.
Proof.
  intros H. apply in_map_iff in H as [[k v'] [E H]]. simpl in E. subst.
  exists k. exact H.
Qed.

(** What [_cleanup_memories] keeps is taken from the store. *)
Lemma cleanup_subset now st m :
  In m (memories (_cleanup_memories now st)) -> In m (memories st).
Proof.
  unfold _cleanup_memories. simpl.
  set (cands := (List.filter is_important (memories st)
                  ++ List.filter (is_recent now) (memories st))%list).
  intros H.
  assert (Hv : In m (ODict.values (by_content cands))).
  { destruct (max_memories st <? _)%nat; [|exact H].
    apply ListFacts.In_firstn in H.
    apply (proj1 (ListFacts.sort_desc_In more_accessed _ _)) in H. exact H. }
  apply values_In_inv in Hv as [k Hk].
  apply by_content_In_inv in Hk as [[]|[Hk _]].
  apply in_app_iff in Hk as [Hk|Hk]; apply filter_In in Hk; tauto.
Qed.

Lemma cleanup_length now st :
  (length (memories (_cleanup_memories now st)) <= max_memories st)%nat.
Proof.
  unfold _cleanup_memories. simpl.
  destruct (max_memories st <? _)%nat eqn:E.
  - apply firstn_le_length.
  - apply Nat.ltb_ge in E. exact E.
Qed.

Lemma search_loop_spec now ql ms :
  search_loop now ql ms =
  (map result_of (List.filter (fun m => PyStr.contains ql (PyStr.lower (content m))) ms),
   map (fun m => if PyStr.contains ql (PyStr.lower (content m))
                 then touch now m else m) ms).
Proof.
  induction ms as [|m ms IH]; simpl; [reflexivity|].
  rewrite IH. destruct (PyStr.contains ql (PyStr.lower (content m))); reflexivity.
Qed.

Lemma from_dict_ok now d e : from_dict now d = Some e -> entry_ok e.
Proof.
  unfold from_dict. intros H.
  repeat match type of H with
  | (mbind _ ?x) = Some _ =>
      let E := fresh in destruct x eqn:E; simpl in H; [|discriminate]
  end.
  inversion H; subst. apply clamp01_bounds.
Qed.

Lemma save_memory_ok now io st : store_ok st -> store_ok (save_memory now io st).
Proof.
  intros H. unfold save_memory.
  assert (H' : store_ok (if (max_memories st <? length (memories st))%nat
                         then _cleanup_memories now st else st)).
  { destruct (_ <? _)%nat; [|exact H].
    apply List.Forall_forall. intros m Hm. apply cleanup_subset in Hm.
    revert m Hm. apply List.Forall_forall. exact H. }
  exact H'.
Qed.

(** C8.  The constructor clamps the importance into [0, 1]: it is 0 for a
    negative input, 1 for an input above 1 and the input otherwise; entries
    rebuilt by [from_dict] are clamped too; and [remember], [recall],
    [search_memories] and [_cleanup_memories] keep the importance of every
    stored entry inside [0, 1]. *)
Theorem importance_always_clamped :
  (forall now c mt imp tgs,
     let e := new_entry now c mt imp tgs in
     0 <= importance e <= 1
     /\ (imp < 0 -> importance e == 0)
     /\ (1 < imp -> importance e == 1)
     /\ (0 <= imp <= 1 -> importance e == imp))
  /\ (forall now d e, from_dict now d = Some e -> 0 <= importance e <= 1)
  /\ (forall now io st c mt imp tgs keyword mtype limit min_importance query n,
       store_ok st ->
       store_ok (remember now io st c mt imp tgs)
       /\ store_ok (snd (recall now st keyword mtype limit min_importance))
       /\ store_ok (snd (search_memories now st query n))
       /\ store_ok (_cleanup_memories now st)).
Proof.
  split; [|split].
  - intros now c mt imp tgs e. subst e. simpl.
    repeat split; try intros; q_minmax; lra.
  - intros now d e H. apply (from_dict_ok now d e H).
  - intros now io st c mt imp tgs keyword mtype limit min_importance query n Hst.
    repeat split.
    + unfold remember. destruct (negb _); [exact Hst|].
      apply save_memory_ok. unfold store_ok. simpl.
      apply Forall_app. split; [exact Hst|].
      constructor; [apply new_entry_ok | constructor].
    + unfold recall, store_ok. simpl.
      generalize (within_limit limit (recall_ranked now st keyword mtype min_importance)).
      intros returned. unfold store_ok in Hst. revert Hst.
      generalize (memories st). induction returned as [|p ps IH]; intros ms Hms; simpl.
      * exact Hms.
      * apply IH. apply Forall_touched; [apply touch_ok | exact Hms].
    + unfold search_memories. rewrite search_loop_spec. unfold store_ok. simpl.
      apply List.Forall_forall. intros m Hm.
      apply in_map_iff in Hm as [m0 [E Hm0]].
      assert (entry_ok m0) by (apply (proj1 (List.Forall_forall _ _) Hst), Hm0).
      destruct (PyStr.contains _ _); subst; [apply touch_ok|]; assumption.
    + apply List.Forall_forall. intros m Hm. apply cleanup_subset in Hm.
      revert m Hm. apply List.Forall_forall. exact Hst.
Qed.

Lemma to_dict_lookups e :
  to_dict e !! "content" = Some (JStr (content e))
  /\ to_dict e !! "memory_type" = Some (JStr (memory_type e))
  /\ to_dict e !! "timestamp" = Some (JTime (timestamp e))
  /\ to_dict e !! "importance" = Some (JNum (importance e))
  /\ to_dict e !! "tags" = Some (JTags (tags e))
  /\ to_dict e !! "access_count" = Some (JInt (access_count e))
  /\ to_dict e !! "last_accessed" = Some (JTime (last_accessed e)).
Proof. unfold to_dict. repeat split; simplify_map_eq; reflexivity. Qed.

(** C7.  An entry rebuilt by [from_dict] from the dictionary made by
    [to_dict] has the fields of the original: content, memory_type,
    timestamp, importance, tags, access_count and last_accessed.  ([to_dict]
    is a function of the entry and returns only the dictionary, so the
    original is not changed.) *)
Theorem to_dict_from_dict_roundtrip now (e : MemoryEntry) :
  entry_ok e ->
  exists e', from_dict now (to_dict e) = Some e' /\ same_fields e' e.
Proof.
  intros Hok.
  destruct (to_dict_lookups e) as (Hc & Hm & Ht & Hi & Hg & Ha & Hl).
  unfold from_dict, get_or. rewrite Hc, Hm, Ht, Hi, Hg, Ha, Hl. simpl.
  eexists. split; [reflexivity|].
  unfold same_fields. simpl. repeat split.
  - apply clamp01_id, Hok.
  - destruct (tags e); reflexivity.
Qed.

Lemma score_geb_total now a b : score_geb now a b = true \/ score_geb now b a = true.
Proof.
  unfold score_geb. rewrite !Qle_bool_iff.
  destruct (Qlt_le_dec (memory_score now (snd a)) (memory_score now (snd b)));
    [right | left]; lra.
Qed.

Lemma score_geb_trans now a b c :
  score_geb now a b = true -> score_geb now b c = true -> score_geb now a c = true.
Proof. unfold score_geb. rewrite !Qle_bool_iff. lra. Qed.

Lemma contains_empty s : PyStr.contains "" s = true.
Proof. destruct s; reflexivity. Qed.

Lemma memory_score_relevance now m : memory_score now m = relevance_score now m.
Proof.
  cbv beta zeta delta [memory_score relevance_score recency days_since_created].
  reflexivity.
Qed.

(** The sort key of [recall] is the relevance score. *)
Lemma score_geb_iff now a b :
  score_geb now a b = true
  <-> relevance_score now (snd b) <= relevance_score now (snd a).
Proof.
  unfold score_geb.
  rewrite (memory_score_relevance now (snd a)).
  rewrite (memory_score_relevance now (snd b)).
  apply Qle_bool_iff.
Qed.

(** C2.  [recall(keyword)] returns the contents of a list of stored entries
    each of which contains the keyword case-insensitively, and that list is
    in non-increasing order of the relevance score
    [importance*0.5 + max(0, 1 - daysSinceCreated/30)*0.3
     + min(accessCount/10, 0.2)], entries of equal score appearing in the
    order in which they are stored. *)
Theorem recall_keyword_ranked now st (keyword : string) :
  exists ranked : list (nat * MemoryEntry),
    fst (recall now st (Some keyword) None None 0)
      = map (fun p => content (snd p)) ranked
    /\ Forall (fun p => memories st !! fst p = Some (snd p)
                       /\ PyStr.contains (PyStr.lower keyword)
                            (PyStr.lower (content (snd p))) = true) ranked
    /\ StronglySorted (ranked_before now) ranked.
Proof.
  exists (recall_ranked now st (Some keyword) None 0).
  split; [reflexivity|]. unfold recall_ranked.
  set (base := enumerate_from 0 (memories st)).
  set (filtered := if PyStr.truthy keyword
                   then List.filter (fun p => keyword_match keyword (snd p)) base
                   else base).
  assert (Hsorted : StronglySorted (fun a b : nat * MemoryEntry => (fst a < fst b)%nat)
                      filtered).
  { subst filtered. destruct (PyStr.truthy keyword);
      [apply ListFacts.StronglySorted_filter|]; apply ListFacts.enumerate_from_sorted. }
  assert (Hin : forall p, In p filtered ->
                  memories st !! fst p = Some (snd p)
                  /\ keyword_match keyword (snd p) = true).
  { intros [i m] Hp. subst filtered. simpl.
    destruct (PyStr.truthy keyword) eqn:E.
    - apply filter_In in Hp as [Hp Hk].
      apply ListFacts.enumerate_from_In in Hp as [_ Hp].
      rewrite Nat.sub_0_r in Hp. split; assumption.
    - apply ListFacts.enumerate_from_In in Hp as [_ Hp].
      rewrite Nat.sub_0_r in Hp. split; [assumption|].
      destruct keyword; [|discriminate]. apply contains_empty. }
  split.
  - apply List.Forall_forall. intros p Hp.
    apply (proj1 (ListFacts.sort_desc_In _ _ _)) in Hp.
    apply filter_In in Hp as [Hp _]. apply Hin, Hp.
  - apply (ListFacts.StronglySorted_weaken
             (ListFacts.stable_desc (score_geb now)
                (fun a b : nat * MemoryEntry => (fst a < fst b)%nat))).
    + intros a b _ _ [Hge Hst]. unfold ranked_before.
      apply (proj1 (score_geb_iff now a b)) in Hge.
      destruct (Qlt_le_dec (relevance_score now (snd b)) (relevance_score now (snd a)))
        as [Hlt|Hle]; [left; exact Hlt|].
      right. split; [apply Qle_antisym; assumption|].
      apply Hst. apply (proj2 (score_geb_iff now b a)). exact Hle.
    + apply ListFacts.sort_desc_stable;
        [apply score_geb_total | apply score_geb_trans|].
      apply ListFacts.StronglySorted_filter, Hsorted.
Qed.

(** Rounding decides an order: with an entry of importance 0.3 made today
    stored before one of importance 0.9 made sixty days ago, both of exact
    score 9/20, the code computes 0.44999999999999996 for the first and 0.45
    for the second, and [recall] returns the second first. *)
Lemma recall_order_follows_rounding :
  let young := new_entry (60 * one_day) "young" "conversation" (PyFloat.fl 0.3) None in
  let old := new_entry 0 "old" "conversation" (PyFloat.fl 0.9) None in
  let st := {| memories := [young; old]; max_memories := 1000; disk := None |} in
  relevance_score (60 * one_day) young < relevance_score (60 * one_day) old
  /\ fst (recall (60 * one_day) st None None None 0) = ["old"; "young"].
Proof.
  split; vm_compute; reflexivity.
Qed.

Lemma result_geb_spec a b : result_geb a b = true <-> result_before a b.
Proof.
  unfold result_geb, result_before.
  rewrite orb_true_iff, andb_true_iff, negb_true_iff, Qeq_bool_iff, Z.leb_le.
  split; intros [H|H]; [left | right; exact H | left | right; exact H].
  - destruct (Qlt_le_dec (r_importance b) (r_importance a)) as [?|Hle]; [assumption|].
    apply Qle_bool_iff in Hle. congruence.
  - destruct (Qle_bool (r_importance a) (r_importance b)) eqn:E; [|reflexivity].
    apply Qle_bool_iff in E. lra.
Qed.

Lemma result_geb_total a b : result_geb a b = true \/ result_geb b a = true.
Proof.
  rewrite !result_geb_spec. unfold result_before.
  destruct (Q_dec (r_importance a) (r_importance b)) as [[H|H]|H].
  - right; left; exact H.
  - left; left; exact H.
  - destruct (Z.le_ge_cases (r_timestamp a) (r_timestamp b)).
    + right; right. split; [symmetry; exact H | assumption].
    + left; right. split; assumption.
Qed.

Lemma result_geb_trans a b c :
  result_geb a b = true -> result_geb b c = true -> result_geb a c = true.
Proof.
  rewrite !result_geb_spec. unfold result_before.
  intros [H1|[H1 T1]] [H2|[H2 T2]].
  - left; lra.
  - left; lra.
  - left; lra.
  - right; split; [lra | lia].
Qed.

(** C9.  [search_memories] increments [access_count] and sets
    [last_accessed] on every stored entry whose content contains the query
    case-insensitively, whatever the limit, and leaves every other entry as
    it was; the result is the first [limit] elements of the matching entries
    sorted by (importance, timestamp) in descending order. *)
Theorem search_memories_touches_all_matches now st (query : string) (limit : Z) :
  let hit m := PyStr.contains (PyStr.lower query) (PyStr.lower (content m)) in
  memories (snd (search_memories now st query limit))
    = map (fun m => if hit m
                    then {| content := content m; memory_type := memory_type m;
                            timestamp := timestamp m; importance := importance m;
                            tags := tags m;
                            access_count := (access_count m + 1)%Z;
                            last_accessed := now |}
                    else m) (memories st)
  /\ exists sorted,
       fst (search_memories now st query limit) = slice_to limit sorted
       /\ Permutation sorted (map result_of (List.filter hit (memories st)))
       /\ StronglySorted result_before sorted.
Proof.
  intros hit. unfold search_memories. rewrite search_loop_spec. simpl.
  split; [reflexivity|].
  eexists. split; [reflexivity|]. split.
  - apply ListFacts.sort_desc_perm.
  - eapply ListFacts.StronglySorted_weaken;
      [|apply (ListFacts.sort_desc_sorted result_geb result_geb_total result_geb_trans)].
    intros a b _ _ H. apply result_geb_spec, H.
Qed.

Lemma NoDup_map_injective {A B} (f : A -> B) (l : list A) (a b : A) :
  List.NoDup (map f l) -> In a l -> In b l -> f a = f b -> a = b.
Proof.
  induction l as [|x xs IH]; simpl; [tauto|].
  intros Hnd Ha Hb E. apply List.NoDup_cons_iff in Hnd as [Hx Hnd].
  destruct Ha as [->|Ha], Hb as [->|Hb]; auto.
  - exfalso. apply Hx. rewrite E. apply in_map, Hb.
  - exfalso. apply Hx. rewrite <- E. apply in_map, Ha.
Qed.

(** C1, as the code has it.  After [_cleanup_memories] the store holds at
    most [max_memories] entries.  When the entries that are important
    (importance at least 0.8) or recent (at most 7 days old) are no more
    than [max_memories], every entry of importance at least 0.8 leaves an
    entry of the same content in the store, and stays itself when the stored
    contents are pairwise distinct. *)
Theorem cleanup_keeps_important_within_capacity now st :
  (length (memories (_cleanup_memories now st)) <= max_memories st)%nat
  /\ ((length (List.filter (fun m => is_important m || is_recent now m) (memories st))
         <= max_memories st)%nat ->
      forall m, In m (memories st) -> 0.8 <= importance m ->
        (exists m', In m' (memories (_cleanup_memories now st))
                    /\ content m' = content m)
        /\ (List.NoDup (map content (memories st)) ->
            In m (memories (_cleanup_memories now st)))).
Proof.
  split; [apply cleanup_length|].
  intros Hfit m Hm Himp.
  unfold _cleanup_memories. simpl.
  set (cands := (List.filter is_important (memories st)
                  ++ List.filter (is_recent now) (memories st))%list).
  assert (Hcand : In m cands).
  { apply in_app_iff. left. apply filter_In. split; [exact Hm|].
    apply Qle_bool_iff, Himp. }
  assert (Hlen : (length (ODict.values (by_content cands)) <= max_memories st)%nat).
  { etransitivity; [|exact Hfit].
    unfold ODict.values. rewrite length_map.
    rewrite <- (length_map fst (by_content cands)).
    rewrite <- (length_map content (List.filter _ (memories st))).
    apply List.NoDup_incl_length.
    - apply (by_content_NoDup cands []). constructor.
    - intros k Hk. apply (by_content_keys cands []) in Hk as [[]|Hk].
      apply in_map_iff in Hk as [x [<- Hx]]. apply in_map.
      apply filter_In. subst cands.
      apply in_app_iff in Hx as [Hx|Hx]; apply filter_In in Hx as [Hx1 Hx2];
        (split; [exact Hx1 | rewrite Hx2; auto using orb_true_r]). }
  apply Nat.ltb_ge in Hlen. rewrite Hlen. split.
  - assert (Hk : In (content m) (ODict.keys (by_content cands))).
    { apply (by_content_keys cands []). right. apply in_map, Hcand. }
    apply DictFacts.In_keys_value in Hk as [m' Hm'].
    exists m'. split; [apply (values_In _ _ _ Hm')|].
    apply by_content_In_inv in Hm' as [[]|[_ E]]. exact E.
  - intros Hnd. apply (values_In _ (content m)).
    apply by_content_keep; [right; exact Hcand|].
    intros m0 Hm0 E. apply (NoDup_map_injective content (memories st)); auto.
    subst cands. apply in_app_iff in Hm0 as [H|H]; apply filter_In in H; tauto.
Qed.

Lemma cleanup_keeps_important_witness :
  ((length (List.filter
              (fun m => is_important m || is_recent (31 * one_day) m)
              (memories Examples.small_store))
     <= max_memories Examples.small_store)%nat
   /\ In Examples.launch_entry (memories Examples.small_store)
   /\ 0.8 <= importance Examples.launch_entry
   /\ List.NoDup (map content (memories Examples.small_store)))
  /\ (exists m', In m' (memories (_cleanup_memories (31 * one_day) Examples.small_store))
                 /\ content m' = content Examples.launch_entry)
  /\ In Examples.launch_entry
        (memories (_cleanup_memories (31 * one_day) Examples.small_store)).
Proof.
  assert (Hfit : (length (List.filter
                    (fun m => is_important m || is_recent (31 * one_day) m)
                    (memories Examples.small_store))
                  <= max_memories Examples.small_store)%nat)
    by (vm_compute; lia).
  assert (Hin : In Examples.launch_entry (memories Examples.small_store))
    by (left; reflexivity).
  assert (Himp : 0.8 <= importance Examples.launch_entry)
    by (vm_compute; discriminate).
  assert (Hnd : List.NoDup (map content (memories Examples.small_store)))
    by (repeat constructor; simpl; intuition discriminate).
  destruct (proj2 (cleanup_keeps_important_within_capacity (31 * one_day)
                     Examples.small_store)
              Hfit Examples.launch_entry Hin Himp) as [H1 H2].
  split; [exact (conj Hfit (conj Hin (conj Himp Hnd)))|].
  split; [exact H1 | exact (H2 Hnd)].
Defined.

(** C1 fails as stated: a store of capacity 1000 holding 1001 entries of
    importance 0.9 with distinct contents is cut to 1000 entries, and the
    entry stored last is gone; [remember] of the 1001st such entry ends in
    the same store. *)
Lemma cleanup_drops_important_entry :
  (max_memories (Examples.important_store 1001)
     < length (memories (Examples.important_store 1001)))%nat
  /\ ~ ((length (memories (_cleanup_memories 0 (Examples.important_store 1001)))
           <= max_memories (Examples.important_store 1001))%nat
        /\ forall m, In m (memories (Examples.important_store 1001)) ->
                     0.8 <= importance m ->
                     In m (memories (_cleanup_memories 0 (Examples.important_store 1001))))
  /\ memories (remember 0 WriteOk (Examples.important_store 1000)
                 (Examples.entry_name 1000) "conversation" 0.9 None)
     = Examples.important_entries 1000.
Proof.
  split; [apply Nat.ltb_lt; vm_compute; reflexivity|]. split.
  - intros [_ H].
    specialize (H (new_entry 0 (Examples.entry_name 1000) "conversation" 0.9 None)).
    assert (Hin : In (Examples.entry_name 1000)
                    (map content
                       (memories (_cleanup_memories 0 (Examples.important_store 1001))))).
    { apply in_map with (f := content) in H; [exact H | |].
      - change (memories (Examples.important_store 1001))
          with (Examples.important_entries 1001).
        unfold Examples.important_entries.
        apply (in_map (fun i => new_entry 0 (Examples.entry_name i) "conversation" 0.9 None)).
        apply in_seq. lia.
      - vm_compute. discriminate. }
    assert (Hno : existsb (String.eqb (Examples.entry_name 1000))
                    (map content
                       (memories (_cleanup_memories 0 (Examples.important_store 1001))))
                  = false)
      by (vm_compute; reflexivity).
    apply Bool.not_true_iff_false in Hno. apply Hno.
    apply existsb_exists. eexists. split; [exact Hin | apply String.eqb_refl].
  - vm_compute. reflexivity.
Qed.

Lemma importance_always_clamped_witness :
  store_ok Examples.small_store
  /\ store_ok (remember 5 WriteOk Examples.small_store "hello" "conversation" 7 None)
  /\ store_ok (snd (recall 5 Examples.small_store (Some "the") None (Some 1%Z) 0))
  /\ store_ok (snd (search_memories 5 Examples.small_store "the" 10))
  /\ store_ok (_cleanup_memories 5 Examples.small_store).
Proof.
  assert (H : store_ok Examples.small_store).
  { repeat constructor; vm_compute; discriminate. }
  split; [exact H|].
  exact (proj2 (proj2 importance_always_clamped) 5%Z WriteOk Examples.small_store
           "hello" "conversation" 7 None (Some "the") None (Some 1%Z) 0 "the" 10%Z H).
Defined.

Lemma to_dict_from_dict_witness :
  entry_ok Examples.launch_entry
  /\ exists e', from_dict 5 (to_dict Examples.launch_entry) = Some e'
               /\ same_fields e' Examples.launch_entry.
Proof.
  assert (H : entry_ok Examples.launch_entry) by (split; vm_compute; discriminate).
  split; [exact H|].
  exact (to_dict_from_dict_roundtrip 5%Z Examples.launch_entry H).
Defined.

End MemoryFacts.

(* ===================================================================== *)
(** ** The emotion engine *)
(* ===================================================================== *)

Module EmotionFacts.

Import Emotions Spec.
Local Open Scope Q_scope.

Lemma get_None_keys {V} k (d : list (string * V)) :
  ~ In k (ODict.keys d) -> ODict.get k d = None.
Proof.
  intros H. destruct (ODict.get k d) eqn:E; [|reflexivity].
  exfalso. apply H, DictFacts.mem_keys. unfold ODict.mem. rewrite E. reflexivity.
Qed.

Lemma mem_get {V} k (d : list (string * V)) :
  ODict.mem k d = true -> exists v, ODict.get k d = Some v.
Proof. unfold ODict.mem. destruct (ODict.get k d); [eauto | discriminate]. Qed.

Lemma get_set {V} k0 k (v : V) d :
  ODict.get k0 (ODict.set k v d) = if String.eqb k0 k then Some v else ODict.get k0 d.
Proof.
  destruct (String.eqb k0 k) eqn:E.
  - apply String.eqb_eq in E. subst. apply DictFacts.get_set_same.
  - apply String.eqb_neq in E. apply DictFacts.get_set_other, E.
Qed.

Lemma decay_one_get rate ems k b cur :
  ODict.get k ems = Some cur ->
  exists ems', decay_one rate ems (k, b) = Some ems'
    /\ forall k0, ODict.get k0 ems' =
         if String.eqb k0 k then Some (decay_value rate b cur) else ODict.get k0 ems.
Proof.
  intros Hget. unfold decay_one. rewrite Hget. simpl.
  unfold decay_value, direction.
  destruct (negb (Qeq_bool cur b)); eexists; (split; [reflexivity|]); intros k0.
  - apply get_set.
  - destruct (String.eqb k0 k) eqn:E; [|reflexivity].
    apply String.eqb_eq in E. subst. exact Hget.
Qed.

Lemma decay_loop_spec rate table :
  List.NoDup (ODict.keys table) ->
  forall ems,
    (forall k, In k (ODict.keys table) -> ODict.mem k ems = true) ->
    exists ems', decay_loop rate table ems = Some ems'
      /\ forall k, ODict.get k ems' =
           match ODict.get k table with
           | Some b => option_map (decay_value rate b) (ODict.get k ems)
           | None => ODict.get k ems
           end.
Proof.
  induction table as [|[k b] rest IH]; intros Hnd ems Hpres.
  - exists ems. split; reflexivity.
  - apply List.NoDup_cons_iff in Hnd as [Hk Hnd].
    destruct (mem_get k ems (Hpres k (or_introl eq_refl))) as [cur Hcur].
    destruct (decay_one_get rate ems k b cur Hcur) as [ems1 [H1 Hget1]].
    destruct (IH Hnd ems1) as [ems' [H' Hget']].
    { intros k' Hk'. unfold ODict.mem. rewrite Hget1.
      destruct (String.eqb k' k); [reflexivity|].
      apply (Hpres k'). right. exact Hk'. }
    exists ems'. split.
    + change (decay_loop rate ((k, b) :: rest) ems)
        with (decay_one rate ems (k, b) ≫= fun e => decay_loop rate rest e).
      rewrite H1. exact H'.
    + intros k0. rewrite Hget', Hget1. simpl ODict.get.
      destruct (String.eqb k0 k) eqn:E.
      * apply String.eqb_eq in E. subst.
        rewrite (get_None_keys k rest Hk), Hcur. reflexivity.
      * reflexivity.
Qed.

Lemma baselines_NoDup : List.NoDup (ODict.keys baselines).
Proof.
  unfold baselines, ODict.keys. simpl.
  repeat (constructor; [simpl; intuition discriminate|]). constructor.
Qed.

Lemma baselines_range c b : ODict.get c baselines = Some b -> 0 <= b <= 1.
Proof.
  unfold baselines. simpl.
  repeat (destruct (String.eqb c _); [intros H; inversion H; subst; lra|]).
  discriminate.
Qed.

Lemma decay_emotions_step rate st c b v :
  channels_present (emotions st) ->
  ODict.get c baselines = Some b ->
  ODict.get c (emotions st) = Some v ->
  exists st', decay_emotions rate st = Some st'
    /\ ODict.get c (emotions st') = Some (decay_value rate b v)
    /\ channels_present (emotions st').
Proof.
  intros Hpres Hb Hv.
  destruct (decay_loop_spec rate baselines baselines_NoDup (emotions st) Hpres)
    as [ems' [Hloop Hget]].
  unfold decay_emotions. rewrite Hloop. simpl. eexists. split; [reflexivity|].
  simpl. split.
  - rewrite Hget, Hb, Hv. reflexivity.
  - intros k Hk. unfold ODict.mem. rewrite Hget.
    destruct (mem_get _ _ (Hpres k Hk)) as [x Hx]. rewrite Hx.
    destruct (ODict.get k baselines); reflexivity.
Qed.

Lemma decay_value_props rate b v :
  0 <= rate <= 1 -> 0 <= b <= 1 -> 0 <= v <= 1 ->
  decay_value rate b v == v + rate * direction b v * Qabs (b - v)
  /\ Qabs (b - decay_value rate b v) <= Qabs (b - v)
  /\ (v <= b -> v <= decay_value rate b v <= b)
  /\ (b <= v -> b <= decay_value rate b v <= v).
Proof.
  intros Hr Hb Hv. unfold decay_value, direction, Qltb.
  destruct (Qeq_bool v b) eqn:E; cbn [negb].
  - apply Qeq_bool_iff in E.
    assert (H0 : Qabs (b - v) == 0).
    { apply Qabs_case; intros; lra. }
    rewrite H0. repeat split; intros; try lra;
      destruct (negb (Qle_bool b v)); lra.
  - apply Qeq_bool_neq in E.
    destruct (Qle_bool b v) eqn:L; cbn [negb].
    + apply Qle_bool_iff in L.
      assert (Ha : Qabs (b - v) == v - b) by (apply Qabs_case; intros; lra).
      assert (Hp : 0 <= rate * (v - b) <= v - b) by nra.
      assert (Hval : Qmax 0 (Qmin 1 (v + rate * -1 * Qabs (b - v)))
                     == v - rate * (v - b)).
      { rewrite Ha. q_minmax; lra. }
      rewrite Hval. repeat split; intros; try lra.
      * rewrite Ha. lra.
      * rewrite Ha. apply Qabs_case; intros; lra.
    + assert (L' : v < b).
      { destruct (Qlt_le_dec v b) as [?|H]; [assumption|].
        apply Qle_bool_iff in H. congruence. }
      assert (Ha : Qabs (b - v) == b - v) by (apply Qabs_case; intros; lra).
      assert (Hp : 0 <= rate * (b - v) <= b - v) by nra.
      assert (Hval : Qmax 0 (Qmin 1 (v + rate * 1 * Qabs (b - v)))
                     == v + rate * (b - v)).
      { rewrite Ha. q_minmax; lra. }
      rewrite Hval. repeat split; intros; try lra.
      * rewrite Ha. lra.
      * rewrite Ha. apply Qabs_case; intros; lra.
Qed.

Lemma decay_repeatedly_spec rate c b n :
  0 <= rate <= 1 ->
  ODict.get c baselines = Some b ->
  forall st v,
    channels_present (emotions st) ->
    ODict.get c (emotions st) = Some v ->
    0 <= v <= 1 ->
    exists st_n v_n,
      decay_repeatedly n rate st = Some st_n
      /\ channels_present (emotions st_n)
      /\ ODict.get c (emotions st_n) = Some v_n
      /\ 0 <= v_n <= 1
      /\ (v <= b -> v <= v_n <= b)
      /\ (b <= v -> b <= v_n <= v).
Proof.
  intros Hr Hb. pose proof (baselines_range c b Hb) as Hbr.
  induction n as [|n IH]; intros st v Hpres Hv Hv01.
  - exists st, v. simpl. repeat split; auto; lra.
  - destruct (decay_emotions_step rate st c b v Hpres Hb Hv) as [st' [Hd [Hv' Hpres']]].
    destruct (decay_value_props rate b v Hr Hbr Hv01) as (_ & _ & Hlo & Hhi).
    assert (Hv'01 : 0 <= decay_value rate b v <= 1).
    { destruct (Qlt_le_dec v b); [assert (v <= b) by lra | ]; intuition lra. }
    destruct (IH st' _ Hpres' Hv' Hv'01) as (st_n & v_n & Hn & Hpn & Hvn & Hn01 & Hnlo & Hnhi).
    exists st_n, v_n. simpl. rewrite Hd. simpl.
    repeat split; auto; try lra; intros; intuition lra.
Qed.

(** C4, as the code has it.  For a decay rate in [0, 0.5] and a channel
    whose value lies in [0, 1], every further call of [decay_emotions(rate)]
    changes the channel by [rate * sign(baseline - current) * |baseline -
    current|], does not increase its distance to the baseline and keeps it on
    the side of the baseline where it started.  (The bound is 0.5 and not 1:
    at a rate close to 1 the rounding of the step can end past the baseline,
    see [decay_step_at_rate_one_in_binary64].) *)
Theorem decay_approaches_baseline rate st c b v n :
  0 <= rate <= 0.5 ->
  channels_present (emotions st) ->
  ODict.get c baselines = Some b ->
  ODict.get c (emotions st) = Some v ->
  0 <= v <= 1 ->
  exists st_n st_n1 v_n v_n1,
    decay_repeatedly n rate st = Some st_n
    /\ decay_emotions rate st_n = Some st_n1
    /\ ODict.get c (emotions st_n) = Some v_n
    /\ ODict.get c (emotions st_n1) = Some v_n1
    /\ v_n1 == v_n + rate * direction b v_n * Qabs (b - v_n)
    /\ Qabs (b - v_n1) <= Qabs (b - v_n)
    /\ (v <= b -> v_n <= v_n1 <= b)
    /\ (b <= v -> b <= v_n1 <= v_n).
Proof.
  intros Hhalf Hpres Hb Hv Hv01.
  assert (Hr : 0 <= rate <= 1) by lra.
  pose proof (baselines_range c b Hb) as Hbr.
  destruct (decay_repeatedly_spec rate c b n Hr Hb st v Hpres Hv Hv01)
    as (st_n & v_n & Hn & Hpn & Hvn & Hn01 & Hnlo & Hnhi).
  destruct (decay_emotions_step rate st_n c b v_n Hpn Hb Hvn) as [st_n1 [Hd [Hv1 _]]].
  destruct (decay_value_props rate b v_n Hr Hbr Hn01) as (Hf & Hdist & Hlo & Hhi).
  exists st_n, st_n1, v_n, (decay_value rate b v_n).
  repeat split; auto; intros; intuition lra.
Qed.

Lemma channels_present_set c v ems :
  channels_present ems -> channels_present (ODict.set c v ems).
Proof.
  intros H k Hk. unfold ODict.mem. rewrite get_set.
  destruct (String.eqb k c); [reflexivity | apply (H k Hk)].
Qed.

Lemma baselines_present : channels_present baselines.
Proof.
  intros k Hk. apply DictFacts.mem_keys. exact Hk.
Qed.

Lemma decay_approaches_baseline_witness :
  (0 <= 0.1 <= 0.5
   /\ channels_present (emotions (Examples.state_with "excitement" 1))
   /\ ODict.get "excitement" baselines = Some 0.5
   /\ ODict.get "excitement" (emotions (Examples.state_with "excitement" 1)) = Some 1
   /\ 0 <= 1 <= 1)
  /\ exists st_n st_n1 v_n v_n1,
       decay_repeatedly 3 0.1 (Examples.state_with "excitement" 1) = Some st_n
       /\ decay_emotions 0.1 st_n = Some st_n1
       /\ ODict.get "excitement" (emotions st_n) = Some v_n
       /\ ODict.get "excitement" (emotions st_n1) = Some v_n1
       /\ v_n1 == v_n + 0.1 * direction 0.5 v_n * Qabs (0.5 - v_n)
       /\ Qabs (0.5 - v_n1) <= Qabs (0.5 - v_n)
       /\ (1 <= 0.5 -> v_n <= v_n1 <= 0.5)
       /\ (0.5 <= 1 -> 0.5 <= v_n1 <= v_n).
Proof.
  assert (H1 : 0 <= 0.1 <= 0.5) by lra.
  assert (H2 : channels_present (emotions (Examples.state_with "excitement" 1)))
    by (apply channels_present_set, baselines_present).
  assert (H3 : ODict.get "excitement" baselines = Some 0.5) by reflexivity.
  assert (H4 : ODict.get "excitement"
                 (emotions (Examples.state_with "excitement" 1)) = Some 1)
    by reflexivity.
  assert (H5 : 0 <= 1 <= 1) by lra.
  split; [exact (conj H1 (conj H2 (conj H3 (conj H4 H5))))|].
  exact (decay_approaches_baseline 0.1 (Examples.state_with "excitement" 1)
           "excitement" 0.5 1 3 H1 H2 H3 H4 H5).
Defined.

(** C4 fails as stated: with rate 4 the excitement channel (baseline 0.5)
    goes from 0.75 to 0, past the baseline and farther from it. *)
Lemma decay_overshoots_for_large_rate :
  exists st' v',
    decay_emotions 4 (Examples.state_with "excitement" 0.75) = Some st'
    /\ ODict.get "excitement" (emotions st') = Some v'
    /\ v' == 0
    /\ ~ (0.5 <= v')
    /\ ~ (Qabs (0.5 - v') <= Qabs (0.5 - 0.75)).
Proof.
  eexists. eexists. split; [vm_compute; reflexivity|].
  split; [vm_compute; reflexivity|].
  split; [reflexivity|].
  split; intros H; vm_compute in H; apply H; reflexivity.
Qed.

(** The step of [decay_emotions] as double arithmetic computes it, at rate 1
    for the value 0.75 and the baseline 0.2: the result is
    0.19999999999999996, just below the baseline. *)
Lemma decay_step_at_rate_one_in_binary64 :
  let b := PyFloat.fl 0.2 in
  let v := 0.75 in
  PyFloat.add v (PyFloat.mul (PyFloat.mul 1 (-1)) (Qabs (PyFloat.sub b v))) < b.
Proof. vm_compute. reflexivity. Qed.

Lemma update_emotion_get now st e change reason v :
  ODict.get e (emotions st) = Some v ->
  let st' := snd (update_emotion now st e change reason) in
  (forall k, ODict.get k (emotions st') =
     if String.eqb k e
     then Some (Qmax 0 (Qmin 1 (v + change * (1 - stability st * 0.5))))
     else ODict.get k (emotions st))
  /\ stability st' = stability st.
Proof.
  intros Hv. unfold update_emotion. rewrite Hv. simpl.
  split; [intros k; apply get_set | reflexivity].
Qed.

Lemma tone_defined st :
  channels_present (emotions st) -> exists t, get_emotional_tone st = Some t.
Proof.
  intros Hpres. unfold get_emotional_tone.
  repeat match goal with
  | |- context [ODict.get ?k (emotions st)] =>
      let x := fresh "x" in
      let Hx := fresh "Hx" in
      destruct (mem_get k (emotions st)) as [x Hx];
        [apply Hpres; unfold baselines, ODict.keys; simpl; tauto|];
      rewrite Hx; simpl;
      match goal with
      | |- context [Qltb ?a x] => destruct (Qltb a x); [eexists; reflexivity|]
      end
  end.
  eexists; reflexivity.
Qed.

Lemma auto_decay_not_due now eng :
  (now - last_decay eng <= five_minutes)%Z -> _auto_decay now eng = Some eng.
Proof.
  intros H. unfold _auto_decay.
  destruct (five_minutes <? now - last_decay eng)%Z eqn:E; [|reflexivity].
  apply Z.ltb_lt in E. lia.
Qed.

Lemma analyze_thank_you eng :
  emotion_triggers eng = _setup_triggers ->
  _analyze_emotional_content eng "Thank you so much!" "" =
  [ ("joy", Qmax (-0.5) (Qmin 0.5 (0 + 0.3 * Qmin (inject_Z 1 * 0.1) 0.3)));
    ("affection", Qmax (-0.5) (Qmin 0.5 (0 + 0.2 * Qmin (inject_Z 1 * 0.1) 0.3)));
    ("calmness", Qmax (-0.5) (Qmin 0.5 (0 + 0.1 * Qmin (inject_Z 1 * 0.1) 0.3))) ].
Proof.
  intros H. unfold _analyze_emotional_content. rewrite H. reflexivity.
Qed.

Lemma clamp01_congr x d d' t :
  d == d' -> Qmax 0 (Qmin 1 (x + d * t)) == Qmax 0 (Qmin 1 (x + d' * t)).
Proof.
  intros H. assert (H' : d * t == d' * t) by (rewrite H; reflexivity).
  q_minmax; lra.
Qed.

Lemma clamp01_raises x d s :
  x < 1 -> 0 <= s <= 1 -> 0 < d ->
  x < Qmax 0 (Qmin 1 (x + d * (1 - s * 0.5))).
Proof.
  intros Hx Hs Hd.
  assert (H : 0 < d * (1 - s * 0.5)) by (apply Qmult_lt_0_compat; lra).
  q_minmax; lra.
Qed.

Lemma fold_three_updates now reason st e1 c1 e2 c2 e3 c3 :
  fold_left
    (fun st '(emotion, change) => snd (update_emotion now st emotion change reason))
    [(e1, c1); (e2, c2); (e3, c3)] st =
  snd (update_emotion now
         (snd (update_emotion now
                 (snd (update_emotion now st e1 c1 reason)) e2 c2 reason))
         e3 c3 reason).
Proof. reflexivity. Qed.

Lemma direction_times_abs b v : direction b v * Qabs (b - v) == b - v.
Proof.
  unfold direction, Qltb. destruct (Qle_bool b v) eqn:E; cbn [negb].
  - apply Qle_bool_iff in E. apply Qabs_case; intros; lra.
  - assert (v < b).
    { destruct (Qlt_le_dec v b) as [?|H]; [assumption|].
      apply Qle_bool_iff in H. congruence. }
    apply Qabs_case; intros; lra.
Qed.

Lemma idle_rate elapsed :
  (five_minutes < elapsed)%Z ->
  Qmin 0.05 (inject_Z elapsed / 1000000 / 3600) == 0.05.
Proof.
  intros H. apply Q.min_l.
  assert (He : inject_Z five_minutes < inject_Z elapsed) by (rewrite <- Zlt_Qlt; exact H).
  assert (E5 : inject_Z five_minutes == 300000000) by reflexivity.
  rewrite E5 in He.
  apply Qle_shift_div_l; [reflexivity|].
  apply Qle_shift_div_l; [reflexivity|]. lra.
Qed.

Lemma decay_value_closed rate b v :
  0 <= rate <= 1 -> 0 <= b <= 1 -> 0 <= v <= 1 ->
  decay_value rate b v == v + rate * (b - v).
Proof.
  intros Hr Hb Hv.
  destruct (decay_value_props rate b v Hr Hb Hv) as [H _].
  rewrite H, <- Qmult_assoc, direction_times_abs. reflexivity.
Qed.

(** What [_auto_decay] leaves: the same engine when no decay is due, and
    otherwise every channel moved 5% of the way to its baseline. *)
Lemma auto_decay_outcome now eng :
  channels_present (emotions (state eng)) ->
  exists eng1,
    _auto_decay now eng = Some eng1
    /\ emotion_triggers eng1 = emotion_triggers eng
    /\ stability (state eng1) = stability (state eng)
    /\ channels_present (emotions (state eng1))
    /\ ((now - last_decay eng <= five_minutes)%Z -> eng1 = eng)
    /\ ((five_minutes < now - last_decay eng)%Z ->
        forall c b v,
          ODict.get c baselines = Some b ->
          ODict.get c (emotions (state eng)) = Some v ->
          0 <= v <= 1 ->
          exists v1, ODict.get c (emotions (state eng1)) = Some v1
                     /\ v1 == v + 0.05 * (b - v)).
Proof.
  intros Hpres.
  destruct (Z_le_gt_dec (now - last_decay eng) five_minutes) as [Hno|Hdue].
  - exists eng. rewrite (auto_decay_not_due now eng Hno).
    repeat split; try assumption; try reflexivity. intros H. lia.
  - apply Z.gt_lt in Hdue. unfold _auto_decay.
    assert (E : (five_minutes <? now - last_decay eng)%Z = true) by (apply Z.ltb_lt, Hdue).
    rewrite E.
    pose proof (idle_rate (now - last_decay eng) Hdue) as Hrate.
    set (rate := Qmin 0.05 (inject_Z (now - last_decay eng) / 1000000 / 3600)) in *.
    destruct (decay_loop_spec rate baselines baselines_NoDup
                (emotions (state eng)) Hpres) as [ems' [Hloop Hget]].
    unfold decay_emotions. rewrite Hloop. cbn [mbind option_bind].
    eexists. split; [reflexivity|]. cbn [last_decay state emotions emotion_triggers stability].
    split; [reflexivity|]. split; [reflexivity|]. split; [|split].
    + intros k Hk. unfold ODict.mem. rewrite Hget.
      destruct (mem_get _ _ (Hpres k Hk)) as [x Hx]. rewrite Hx.
      destruct (ODict.get k baselines); reflexivity.
    + intros H. lia.
    + intros _ c b v Hb Hv Hv01. rewrite Hget, Hb, Hv. cbn [option_map].
      eexists. split; [reflexivity|].
      rewrite (decay_value_closed rate b v);
        [rewrite Hrate; reflexivity | rewrite Hrate; lra
        | apply (baselines_range c b Hb) | exact Hv01].
Qed.

Lemma process_input_after_decay now eng eng1 text context st tn :
  _auto_decay now eng = Some eng1 ->
  fold_left
    (fun st '(emotion, change) =>
       snd (update_emotion now st emotion change
              ("Response to: " ++ PyStr.take 30 text ++ "...")%string))
    (_analyze_emotional_content eng1 text context) (state eng1) = st ->
  get_emotional_tone st = Some tn ->
  process_input now eng text context =
  Some ({| emotional_response := _analyze_emotional_content eng1 text context;
           new_dominant := get_dominant_emotions st 3;
           tone := tn |},
        {| state := st; emotion_triggers := emotion_triggers eng1;
           last_decay := last_decay eng1 |}).
Proof.
  intros Hdecay Hfold Htone. unfold process_input. rewrite Hdecay.
  cbn [mbind option_bind]. rewrite Hfold, Htone. reflexivity.
Qed.

(** The three updates made for "Thank you so much!" on the state left by the
    idle decay. *)
Lemma thank_you_updates now eng eng1 j a :
  emotion_triggers eng1 = _setup_triggers ->
  _auto_decay now eng = Some eng1 ->
  channels_present (emotions (state eng1)) ->
  0 <= stability (state eng1) <= 1 ->
  ODict.get "joy" (emotions (state eng1)) = Some j ->
  ODict.get "affection" (emotions (state eng1)) = Some a ->
  j < 1 -> a < 1 ->
  exists out eng' j' a',
    process_input now eng "Thank you so much!" "" = Some (out, eng')
    /\ ODict.get "joy" (emotions (state eng')) = Some j'
    /\ ODict.get "affection" (emotions (state eng')) = Some a'
    /\ j' == Qmax 0 (Qmin 1 (j + Qmax (-0.5) (Qmin 0.5 (0.3 * Qmin (1 * 0.1) 0.3))
                                  * (1 - stability (state eng1) * 0.5)))
    /\ a' == Qmax 0 (Qmin 1 (a + Qmax (-0.5) (Qmin 0.5 (0.2 * Qmin (1 * 0.1) 0.3))
                                  * (1 - stability (state eng1) * 0.5)))
    /\ j < j' /\ a < a'.
Proof.
  intros Htrig Hdecay Hpres Hs Hj Ha Hj1 Ha1.
  destruct (mem_get "calmness" (emotions (state eng1))) as [c Hc].
  { apply Hpres. unfold baselines, ODict.keys. simpl. tauto. }
  pose proof (analyze_thank_you eng1 Htrig) as Han.
  remember (Qmax (-0.5) (Qmin 0.5 (0 + 0.3 * Qmin (inject_Z 1 * 0.1) 0.3))) as dj eqn:Edj.
  remember (Qmax (-0.5) (Qmin 0.5 (0 + 0.2 * Qmin (inject_Z 1 * 0.1) 0.3))) as da eqn:Eda.
  remember (Qmax (-0.5) (Qmin 0.5 (0 + 0.1 * Qmin (inject_Z 1 * 0.1) 0.3))) as dc eqn:Edc.
  remember ("Response to: " ++ PyStr.take 30 "Thank you so much!" ++ "...")%string
    as reason eqn:Ereason.
  remember (snd (update_emotion now (state eng1) "joy" dj reason)) as st1 eqn:E1.
  remember (snd (update_emotion now st1 "affection" da reason)) as st2 eqn:E2.
  remember (snd (update_emotion now st2 "calmness" dc reason)) as st3 eqn:E3.
  destruct (update_emotion_get now (state eng1) "joy" dj reason j Hj) as [G1 S1].
  rewrite <- E1 in G1, S1.
  assert (Ha1' : ODict.get "affection" (emotions st1) = Some a)
    by (rewrite G1; exact Ha).
  destruct (update_emotion_get now st1 "affection" da reason a Ha1') as [G2 S2].
  rewrite <- E2 in G2, S2.
  assert (Hc2 : ODict.get "calmness" (emotions st2) = Some c)
    by (rewrite G2, G1; exact Hc).
  destruct (update_emotion_get now st2 "calmness" dc reason c Hc2) as [G3 S3].
  rewrite <- E3 in G3, S3.
  assert (Hpres3 : channels_present (emotions st3)).
  { intros k Hk. unfold ODict.mem. rewrite G3, G2, G1.
    destruct (String.eqb k "calmness"); [reflexivity|].
    destruct (String.eqb k "affection"); [reflexivity|].
    destruct (String.eqb k "joy"); [reflexivity|].
    apply (Hpres k Hk). }
  destruct (tone_defined st3 Hpres3) as [t Ht].
  assert (Hfold :
    fold_left
      (fun st '(emotion, change) =>
         snd (update_emotion now st emotion change
                ("Response to: " ++ PyStr.take 30 "Thank you so much!" ++ "...")%string))
      (_analyze_emotional_content eng1 "Thank you so much!" "") (state eng1) = st3).
  { rewrite Han, <- Ereason. rewrite fold_three_updates.
    rewrite <- E1, <- E2, <- E3. reflexivity. }
  rewrite (process_input_after_decay now eng eng1 _ _ st3 t Hdecay Hfold Ht).
  eexists. eexists.
  exists (Qmax 0 (Qmin 1 (j + dj * (1 - stability (state eng1) * 0.5)))).
  exists (Qmax 0 (Qmin 1 (a + da * (1 - stability st1 * 0.5)))).
  split; [reflexivity|]. cbn [state].
  split; [rewrite G3, G2, G1; reflexivity|].
  split; [rewrite G3, G2; reflexivity|].
  rewrite S1.
  assert (Edj' : dj == Qmax (-0.5) (Qmin 0.5 (0.3 * Qmin (1 * 0.1) 0.3)))
    by (rewrite Edj; vm_compute; reflexivity).
  assert (Eda' : da == Qmax (-0.5) (Qmin 0.5 (0.2 * Qmin (1 * 0.1) 0.3)))
    by (rewrite Eda; vm_compute; reflexivity).
  assert (Pdj : 0 < dj) by (rewrite Edj; vm_compute; reflexivity).
  assert (Pda : 0 < da) by (rewrite Eda; vm_compute; reflexivity).
  split; [apply clamp01_congr, Edj'|].
  split; [apply clamp01_congr, Eda'|].
  split; apply clamp01_raises; assumption.
Qed.

(** C5, as the code has it.  [process_input] first applies the idle decay:
    none when at most five minutes passed since the last one, and otherwise
    a move of every channel 5% of the way to its baseline.  On the values
    [j1] of joy and [a1] of affection that this leaves,
    [process_input("Thank you so much!")] raises both when the pre-call
    values are below 1: each becomes the value plus the trigger delta (0.3
    for joy, 0.2 for affection) scaled by the intensity min(1 * 0.1, 0.3),
    clamped to [-0.5, 0.5] and multiplied by [1 - stability * 0.5], the sum
    clamped to [0, 1].  When no decay is due these are the pre-call
    values. *)
Theorem thank_you_raises_joy_and_affection now eng j a :
  emotion_triggers eng = _setup_triggers ->
  channels_present (emotions (state eng)) ->
  0 <= stability (state eng) <= 1 ->
  ODict.get "joy" (emotions (state eng)) = Some j ->
  ODict.get "affection" (emotions (state eng)) = Some a ->
  0 <= j < 1 -> 0 <= a < 1 ->
  exists j1 a1 out eng' j' a',
    ((now - last_decay eng <= five_minutes)%Z -> j1 = j /\ a1 = a)
    /\ ((five_minutes < now - last_decay eng)%Z ->
        j1 == j + 0.05 * (0.6 - j) /\ a1 == a + 0.05 * (0.8 - a))
    /\ process_input now eng "Thank you so much!" "" = Some (out, eng')
    /\ ODict.get "joy" (emotions (state eng')) = Some j'
    /\ ODict.get "affection" (emotions (state eng')) = Some a'
    /\ j' == Qmax 0 (Qmin 1 (j1 + Qmax (-0.5) (Qmin 0.5 (0.3 * Qmin (1 * 0.1) 0.3))
                                   * (1 - stability (state eng) * 0.5)))
    /\ a' == Qmax 0 (Qmin 1 (a1 + Qmax (-0.5) (Qmin 0.5 (0.2 * Qmin (1 * 0.1) 0.3))
                                   * (1 - stability (state eng) * 0.5)))
    /\ j1 < j' /\ a1 < a'.
Proof.
  intros Htrig Hpres Hs Hj Ha Hj1 Ha1.
  destruct (auto_decay_outcome now eng Hpres)
    as (eng1 & Hdecay & Htrig1 & Hstab & Hpres1 & Hsame & Hmoved).
  rewrite Htrig in Htrig1.
  assert (Hvals : exists j1 a1,
            ODict.get "joy" (emotions (state eng1)) = Some j1
            /\ ODict.get "affection" (emotions (state eng1)) = Some a1
            /\ ((now - last_decay eng <= five_minutes)%Z -> j1 = j /\ a1 = a)
            /\ ((five_minutes < now - last_decay eng)%Z ->
                j1 == j + 0.05 * (0.6 - j) /\ a1 == a + 0.05 * (0.8 - a))
            /\ j1 < 1 /\ a1 < 1).
  { destruct (Z_le_gt_dec (now - last_decay eng) five_minutes) as [Hno|Hdue].
    - rewrite (Hsame Hno). exists j, a.
      repeat split; try assumption; try lra; intros; lia.
    - apply Z.gt_lt in Hdue.
      destruct (Hmoved Hdue "joy" 0.6 j eq_refl Hj) as (j1 & Gj & Ej); [lra|].
      destruct (Hmoved Hdue "affection" 0.8 a eq_refl Ha) as (a1 & Ga & Ea); [lra|].
      exists j1, a1. split; [exact Gj|]. split; [exact Ga|].
      split; [intros; lia|]. split; [intros _; split; assumption|].
      split; lra. }
  destruct Hvals as (j1 & a1 & Gj & Ga & Hno & Hdue & Hj1' & Ha1').
  rewrite <- Hstab in Hs.
  destruct (thank_you_updates now eng eng1 j1 a1 Htrig1 Hdecay Hpres1 Hs Gj Ga Hj1' Ha1')
    as (out & eng' & j' & a' & Hp & Gj' & Ga' & Fj & Fa & Lj & La).
  rewrite Hstab in Fj, Fa.
  exists j1, a1, out, eng', j', a'.
  repeat split; try assumption; try (apply Hno; assumption); try (apply Hdue; assumption).
Qed.

Lemma thank_you_raises_witness :
  (emotion_triggers (new_engine 0) = _setup_triggers
   /\ channels_present (emotions (state (new_engine 0)))
   /\ 0 <= stability (state (new_engine 0)) <= 1
   /\ ODict.get "joy" (emotions (state (new_engine 0))) = Some 0.6
   /\ ODict.get "affection" (emotions (state (new_engine 0))) = Some 0.8
   /\ 0 <= 0.6 < 1 /\ 0 <= 0.8 < 1)
  /\ exists j1 a1 out eng' j' a',
       ((Examples.six_minutes - last_decay (new_engine 0) <= five_minutes)%Z ->
        j1 = 0.6 /\ a1 = 0.8)
       /\ ((five_minutes < Examples.six_minutes - last_decay (new_engine 0))%Z ->
           j1 == 0.6 + 0.05 * (0.6 - 0.6) /\ a1 == 0.8 + 0.05 * (0.8 - 0.8))
       /\ process_input Examples.six_minutes (new_engine 0) "Thank you so much!" ""
          = Some (out, eng')
       /\ ODict.get "joy" (emotions (state eng')) = Some j'
       /\ ODict.get "affection" (emotions (state eng')) = Some a'
       /\ j' == Qmax 0 (Qmin 1 (j1 + Qmax (-0.5) (Qmin 0.5 (0.3 * Qmin (1 * 0.1) 0.3))
                                      * (1 - stability (state (new_engine 0)) * 0.5)))
       /\ a' == Qmax 0 (Qmin 1 (a1 + Qmax (-0.5) (Qmin 0.5 (0.2 * Qmin (1 * 0.1) 0.3))
                                      * (1 - stability (state (new_engine 0)) * 0.5)))
       /\ j1 < j' /\ a1 < a'.
Proof.
  assert (H1 : emotion_triggers (new_engine 0) = _setup_triggers) by reflexivity.
  assert (H3 : channels_present (emotions (state (new_engine 0))))
    by exact baselines_present.
  assert (H4 : 0 <= stability (state (new_engine 0)) <= 1)
    by (split; vm_compute; discriminate).
  assert (H5 : ODict.get "joy" (emotions (state (new_engine 0))) = Some 0.6)
    by reflexivity.
  assert (H6 : ODict.get "affection" (emotions (state (new_engine 0))) = Some 0.8)
    by reflexivity.
  assert (H7 : 0 <= 0.6 < 1) by (split; [discriminate | reflexivity]).
  assert (H8 : 0 <= 0.8 < 1) by (split; [discriminate | reflexivity]).
  split.
  - exact (conj H1 (conj H3 (conj H4 (conj H5 (conj H6 (conj H7 H8)))))).
  - exact (thank_you_raises_joy_and_affection Examples.six_minutes (new_engine 0)
             0.6 0.8 H1 H3 H4 H5 H6 H7 H8).
Defined.

(** C5 fails as stated: after seven calls of
    [process_input("funny joke haha")] joy is 0.978 and affection 0.8, both
    below 1; a call of [process_input("Thank you so much!")] six minutes
    later first decays joy and leaves it below 0.978. *)
Lemma thank_you_after_idle_lowers_joy :
  exists eng out eng' j a j',
    process_repeatedly 7 "funny joke haha" (new_engine 0) = Some eng
    /\ ODict.get "joy" (emotions (state eng)) = Some j /\ j < 1
    /\ ODict.get "affection" (emotions (state eng)) = Some a /\ a < 1
    /\ process_input Examples.six_minutes eng "Thank you so much!" ""
         = Some (out, eng')
    /\ ODict.get "joy" (emotions (state eng')) = Some j'
    /\ j' < j.
Proof.
  do 6 eexists.
  split; [vm_compute; reflexivity|].
  split; [vm_compute; reflexivity|].
  split; [vm_compute; reflexivity|].
  split; [vm_compute; reflexivity|].
  split; [vm_compute; reflexivity|].
  split; [vm_compute; reflexivity|].
  split; [vm_compute; reflexivity|].
  vm_compute; reflexivity.
Qed.

Lemma get_default_set k0 k (v dflt : Q) d :
  ODict.get_default k0 dflt (ODict.set k v d) =
  if String.eqb k0 k then v else ODict.get_default k0 dflt d.
Proof.
  unfold ODict.get_default. rewrite get_set.
  destruct (String.eqb k0 k); reflexivity.
Qed.

Lemma add_changes_get k i deltas changes :
  ODict.get_default k 0 (add_changes i deltas changes)
  == ODict.get_default k 0 changes + delta_sum k deltas * i.
Proof.
  unfold add_changes. revert changes.
  induction deltas as [|[e base] rest IH]; intros changes; simpl.
  - lra.
  - rewrite IH, get_default_set.
    destruct (String.eqb k e) eqn:E.
    + apply String.eqb_eq in E. subst. lra.
    + lra.
Qed.

Lemma apply_trigger_bounds triggers text k changes ttype words :
  0 <= delta_sum k (ODict.get_default ttype [] triggers) ->
  ODict.get_default k 0 changes
    <= ODict.get_default k 0 (apply_trigger triggers text changes (ttype, words))
    <= ODict.get_default k 0 changes
       + 0.3 * delta_sum k (ODict.get_default ttype [] triggers).
Proof.
  intros Hd. unfold apply_trigger.
  assert (Hg : ODict.get_default ttype [] triggers
               = match ODict.get ttype triggers with Some d => d | None => [] end)
    by reflexivity.
  rewrite Hg in *. clear Hg.
  destruct (ODict.get ttype triggers) as [deltas|].
  - destruct (0 <? count_matches words text)%nat eqn:E.
    + apply Nat.ltb_lt in E. rewrite add_changes_get.
      set (m := count_matches words text) in *.
      assert (Hm : 1 <= inject_Z (Z.of_nat m)).
      { rewrite <- (Zle_Qle 1). lia. }
      set (i := Qmin (inject_Z (Z.of_nat m) * 0.1) 0.3).
      assert (Hi : 0 <= i <= 0.3) by (subst i; q_minmax; lra).
      clearbody i. generalize dependent (delta_sum k deltas). intros ds Hd.
      assert (0 <= ds * i) by (apply Qmult_le_0_compat; lra).
      assert (0 <= ds * (0.3 - i)) by (apply Qmult_le_0_compat; lra).
      lra.
    + lra.
  - simpl. lra.
Qed.

Lemma trigger_fold_bounds triggers text k entries :
  Forall (fun e => 0 <= delta_sum k (ODict.get_default (fst e) [] triggers)) entries ->
  forall changes,
    ODict.get_default k 0 changes
      <= ODict.get_default k 0 (fold_left (apply_trigger triggers text) entries changes)
      <= ODict.get_default k 0 changes + trigger_budget triggers k entries.
Proof.
  induction 1 as [|[ttype words] rest Hd _ IH]; intros changes.
  - simpl. lra.
  - specialize (IH (apply_trigger triggers text changes (ttype, words))).
    simpl in Hd.
    pose proof (apply_trigger_bounds triggers text k changes ttype words Hd).
    cbn [fold_left trigger_budget]. lra.
Qed.

(** Whatever the text, the triggers add between 0 and 0.15 to affection. *)
Lemma affection_trigger_bounds text :
  0 <= ODict.get_default "affection" 0 (trigger_changes _setup_triggers text) <= 0.15.
Proof.
  unfold trigger_changes.
  assert (H : Forall (fun e => 0 <= delta_sum "affection"
                                 (ODict.get_default (fst e) [] _setup_triggers))
                trigger_words).
  { unfold trigger_words. repeat constructor; vm_compute; discriminate. }
  pose proof (trigger_fold_bounds _setup_triggers text "affection" trigger_words H [])
    as [Hlo Hhi].
  assert (Hb : trigger_budget _setup_triggers "affection" trigger_words == 0.15)
    by (vm_compute; reflexivity).
  rewrite Hb in Hhi.
  change (ODict.get_default "affection" 0 []) with 0 in Hlo, Hhi.
  generalize dependent
    (ODict.get_default "affection" 0
       (fold_left (apply_trigger _setup_triggers text) trigger_words [])).
  intros q Hlo Hhi. lra.
Qed.

Lemma normalize_get k changes :
  ODict.get k (normalize changes)
  = option_map (fun c => Qmax (-0.5) (Qmin 0.5 c)) (ODict.get k changes).
Proof.
  unfold normalize. induction changes as [|[e c] rest IH]; simpl; [reflexivity|].
  destruct (String.eqb k e); [reflexivity | exact IH].
Qed.

Lemma process_input_response now eng text context out eng' :
  process_input now eng text context = Some (out, eng') ->
  emotion_triggers eng = _setup_triggers ->
  emotional_response out
  = normalize (richie_adjust (PyStr.lower text)
                 (trigger_changes _setup_triggers
                    (PyStr.lower (text ++ " " ++ context)%string))).
Proof.
  unfold process_input, _auto_decay. intros H Htrig.
  destruct (five_minutes <? now - last_decay eng)%Z.
  - destruct (decay_emotions _ (state eng)) as [st|]; [|discriminate].
    cbn [mbind option_bind] in H.
    match type of H with
    | mbind _ ?x = _ => destruct x; [|discriminate]
    end.
    cbn [mbind option_bind] in H. inversion H; subst.
    unfold _analyze_emotional_content. cbn [emotional_response emotion_triggers].
    rewrite Htrig. reflexivity.
  - cbn [mbind option_bind] in H.
    match type of H with
    | mbind _ ?x = _ => destruct x; [|discriminate]
    end.
    cbn [mbind option_bind] in H. inversion H; subst.
    unfold _analyze_emotional_content. cbn [emotional_response].
    rewrite Htrig. reflexivity.
Qed.

Lemma analyze_with_richie eng text context :
  emotion_triggers eng = _setup_triggers ->
  PyStr.contains "richie" (PyStr.lower text) = true ->
  ODict.get "affection" (_analyze_emotional_content eng text context)
  = Some (Qmax (-0.5) (Qmin 0.5
            (ODict.get_default "affection" 0
               (trigger_changes _setup_triggers
                  (PyStr.lower (text ++ " " ++ context)%string)) + 0.1))).
Proof.
  intros Htrig Hr.
  unfold _analyze_emotional_content, richie_adjust. rewrite Htrig, Hr.
  rewrite normalize_get, DictFacts.get_set_same. reflexivity.
Qed.

Lemma analyze_without_richie eng text context :
  emotion_triggers eng = _setup_triggers ->
  PyStr.contains "richie" (PyStr.lower text) = false ->
  ODict.get_default "affection" 0 (_analyze_emotional_content eng text context)
  == ODict.get_default "affection" 0
       (trigger_changes _setup_triggers (PyStr.lower (text ++ " " ++ context)%string)).
Proof.
  intros Htrig Hr.
  pose proof (affection_trigger_bounds (PyStr.lower (text ++ " " ++ context)%string))
    as Hb.
  unfold _analyze_emotional_content, richie_adjust. rewrite Htrig, Hr.
  generalize dependent
    (trigger_changes _setup_triggers (PyStr.lower (text ++ " " ++ context)%string)).
  intros tc Hb. unfold ODict.get_default in *. rewrite normalize_get.
  destruct (ODict.get "affection" tc) as [v|]; cbn [option_map]; [|reflexivity].
  q_minmax; lra.
Qed.

(** C10, as the code has it.  For a text that contains "richie"
    case-insensitively the affection change computed by
    [_analyze_emotional_content] is what the trigger tables contribute for
    that text plus 0.1 (the clamp to [-0.5, 0.5] never cuts it: the tables
    contribute at most 0.15); it is strictly larger than the change for any
    text without "richie" that hits the same triggers, and it is the
    affection change that [process_input] reports. *)
Theorem richie_adds_affection eng text context :
  emotion_triggers eng = _setup_triggers ->
  PyStr.contains "richie" (PyStr.lower text) = true ->
  let triggers_only :=
    ODict.get_default "affection" 0
      (trigger_changes _setup_triggers (PyStr.lower (text ++ " " ++ context)%string)) in
  exists q,
    ODict.get "affection" (_analyze_emotional_content eng text context) = Some q
    /\ q == triggers_only + 0.1
    /\ triggers_only < q
    /\ (forall text' context',
          PyStr.contains "richie" (PyStr.lower text') = false ->
          trigger_changes _setup_triggers (PyStr.lower (text' ++ " " ++ context')%string)
            = trigger_changes _setup_triggers (PyStr.lower (text ++ " " ++ context)%string) ->
          ODict.get_default "affection" 0 (_analyze_emotional_content eng text' context')
            < q)
    /\ (forall now out eng',
          process_input now eng text context = Some (out, eng') ->
          ODict.get "affection" (emotional_response out) = Some q).
Proof.
  intros Htrig Hr triggers_only.
  assert (Hb : 0 <= triggers_only <= 0.15) by apply affection_trigger_bounds.
  pose proof (analyze_with_richie eng text context Htrig Hr) as Hq.
  fold triggers_only in Hq.
  assert (Hw : forall text' context',
             PyStr.contains "richie" (PyStr.lower text') = false ->
             trigger_changes _setup_triggers (PyStr.lower (text' ++ " " ++ context')%string)
               = trigger_changes _setup_triggers (PyStr.lower (text ++ " " ++ context)%string) ->
             ODict.get_default "affection" 0 (_analyze_emotional_content eng text' context')
               == triggers_only).
  { intros text' context' Hr' Hsame.
    rewrite (analyze_without_richie eng text' context' Htrig Hr'), Hsame. reflexivity. }
  assert (Hp : forall now out eng',
             process_input now eng text context = Some (out, eng') ->
             ODict.get "affection" (emotional_response out)
               = Some (Qmax (-0.5) (Qmin 0.5 (triggers_only + 0.1)))).
  { intros now out eng' Hp.
    rewrite (process_input_response now eng text context out eng' Hp Htrig).
    unfold _analyze_emotional_content in Hq. rewrite Htrig in Hq. exact Hq. }
  clearbody triggers_only.
  assert (Eq : Qmax (-0.5) (Qmin 0.5 (triggers_only + 0.1)) == triggers_only + 0.1).
  { q_minmax; lra. }
  exists (Qmax (-0.5) (Qmin 0.5 (triggers_only + 0.1))).
  split; [exact Hq|]. split; [exact Eq|]. split; [rewrite Eq; lra|].
  split; [|exact Hp].
  intros text' context' Hr' Hsame. rewrite (Hw text' context' Hr' Hsame), Eq. lra.
Qed.

Lemma richie_adds_affection_witness :
  (emotion_triggers (new_engine 0) = _setup_triggers
   /\ PyStr.contains "richie" (PyStr.lower "Thanks Richie") = true)
  /\ exists q,
       ODict.get "affection" (_analyze_emotional_content (new_engine 0) "Thanks Richie" "")
         = Some q
       /\ ODict.get_default "affection" 0
            (_analyze_emotional_content (new_engine 0) "Thanks" "") < q.
Proof.
  assert (H1 : emotion_triggers (new_engine 0) = _setup_triggers) by reflexivity.
  assert (H2 : PyStr.contains "richie" (PyStr.lower "Thanks Richie") = true)
    by (vm_compute; reflexivity).
  split; [exact (conj H1 H2)|].
  destruct (richie_adds_affection (new_engine 0) "Thanks Richie" "" H1 H2)
    as (q & Hq & _ & _ & Hcmp & _).
  exists q. split; [exact Hq|].
  apply Hcmp; vm_compute; reflexivity.
Defined.

(** C10 fails as stated: removing "richie" from a text can uncover trigger
    words.  The text below contains "richie" four times and no trigger word,
    so its affection change is the bare 0.1; without the four occurrences it
    reads "love care sweet thank", whose triggers alone give 0.11. *)
Lemma richie_removed_raises_affection :
  exists q q',
    PyStr.contains "richie"
      (PyStr.lower "lorichieve carichiere swerichieet thrichieank") = true
    /\ PyStr.replace "richie" "" "lorichieve carichiere swerichieet thrichieank"
       = "love care sweet thank"%string
    /\ ODict.get "affection"
         (_analyze_emotional_content (new_engine 0)
            "lorichieve carichiere swerichieet thrichieank" "") = Some q
    /\ ODict.get "affection"
         (_analyze_emotional_content (new_engine 0) "love care sweet thank" "")
       = Some q'
    /\ q == 0.1 /\ q' == 0.11 /\ ~ (q' < q).
Proof.
  eexists. eexists.
  split; [vm_compute; reflexivity|].
  split; [vm_compute; reflexivity|].
  split; [vm_compute; reflexivity|].
  split; [vm_compute; reflexivity|].
  split; [vm_compute; reflexivity|].
  split; [vm_compute; reflexivity|].
  intros H. vm_compute in H. discriminate H.
Qed.

End EmotionFacts.

(* ===================================================================== *)
(** ** Providers and the manager *)
(* ===================================================================== *)

Module ManagerFacts.

Import Providers Manager Spec.

Lemma append_nonempty (a b : string) : b <> "" -> (a ++ b)%string <> "".
Proof.
  intros Hb. destruct a; simpl; [exact Hb | discriminate].
Qed.

Lemma append_nonempty_l (a b : string) : a <> "" -> (a ++ b)%string <> "".
Proof. destruct a; simpl; [congruence | discriminate]. Qed.

Lemma replace_nonempty (old new s : string) :
  new <> "" -> s <> "" -> PyStr.replace old new s <> "".
Proof.
  intros Hnew Hs. destruct s as [|c t]; [congruence|].
  unfold PyStr.replace. cbn [PyStr.replace_from].
  destruct (PyStr.startswith old (String c t)).
  - apply append_nonempty_l, Hnew.
  - discriminate.
Qed.

Lemma choice_In {A} (r : nat) (l : list A) :
  l <> [] -> exists x, PyList.choice r l = Some x /\ In x l.
Proof.
  intros Hl. unfold PyList.choice.
  assert (Hlt : (r mod length l < length l)%nat).
  { apply Nat.mod_upper_bound. destruct l; [congruence | simpl; lia]. }
  destruct (lookup_lt_is_Some_2 l _ Hlt) as [x Hx].
  exists x. split; [exact Hx|].
  apply list_elem_of_In. eapply list_elem_of_lookup_2. exact Hx.
Qed.

Lemma get_default_cases {V} k (d : V) (table : list (string * V)) :
  ODict.get_default k d table = d \/ In (ODict.get_default k d table) (ODict.values table).
Proof.
  unfold ODict.get_default, ODict.values.
  induction table as [|[k' v] r IH]; simpl; [left; reflexivity|].
  destruct (String.eqb k k'); [right; left; reflexivity|].
  destruct IH as [IH|IH]; [left; exact IH | right; right; exact IH].
Qed.

Lemma usable_of_check (l : list string) :
  (negb (Nat.eqb (length l) 0) && forallb PyStr.truthy l)%bool = true -> usable l.
Proof.
  intros H. apply andb_true_iff in H as [H1 H2]. split.
  - destruct l; [discriminate | discriminate].
  - intros s Hs. rewrite forallb_forall in H2. specialize (H2 s Hs).
    destruct s; [discriminate | discriminate].
Qed.

Lemma templates_usable :
  usable general_templates
  /\ Forall usable (ODict.values emotion_responses)
  /\ Forall usable (ODict.values personality_responses)
  /\ usable empathy_starters.
Proof.
  split; [apply usable_of_check; vm_compute; reflexivity|].
  split; [|split].
  - unfold emotion_responses, ODict.values. cbn [map snd].
    repeat (constructor; [apply usable_of_check; vm_compute; reflexivity|]).
    constructor.
  - unfold personality_responses, ODict.values. cbn [map snd].
    repeat (constructor; [apply usable_of_check; vm_compute; reflexivity|]).
    constructor.
  - apply usable_of_check; vm_compute; reflexivity.
Qed.

Lemma emotion_response_nonempty r emotion :
  exists s, _get_emotion_response r emotion = Some s /\ s <> "".
Proof.
  destruct templates_usable as (Hg & He & _ & _).
  unfold _get_emotion_response.
  assert (Hu : usable (ODict.get_default emotion general_templates emotion_responses)).
  { destruct (get_default_cases emotion general_templates emotion_responses) as [->|H];
      [exact Hg|]. rewrite List.Forall_forall in He. apply He, H. }
  destruct Hu as [Hne Hall].
  destruct (choice_In r _ Hne) as [s [Hs Hin]]. exists s. split; [exact Hs | apply Hall, Hin].
Qed.

Lemma personality_response_nonempty r personality :
  exists s, _get_personality_response r personality = Some s /\ s <> "".
Proof.
  destruct templates_usable as (Hg & _ & Hp & _).
  unfold _get_personality_response.
  assert (Hu : usable (ODict.get_default personality general_templates personality_responses)).
  { destruct (get_default_cases personality general_templates personality_responses) as [->|H];
      [exact Hg|]. rewrite List.Forall_forall in Hp. apply Hp, H. }
  destruct Hu as [Hne Hall].
  destruct (choice_In r _ Hne) as [s [Hs Hin]]. exists s. split; [exact Hs | apply Hall, Hin].
Qed.

(** [LocalProvider.generate_response] never raises and never returns the
    empty text. *)
Lemma local_response_nonempty r1 r2 prompt context :
  exists s, _analyze_and_respond r1 r2 prompt context = Some s /\ s <> "".
Proof.
  unfold _analyze_and_respond.
  assert (H : exists s0,
            match detect_emotion emotion_keywords (PyStr.lower prompt) with
            | Some emotion => _get_emotion_response r1 emotion
            | None => _get_personality_response r1
                        (default "balanced" (context !! "personality"))
            end = Some s0 /\ s0 <> "").
  { destruct (detect_emotion _ _);
      [apply emotion_response_nonempty | apply personality_response_nonempty]. }
  destruct H as [s0 [-> Hs0]]. cbn [mbind option_bind].
  destruct (PyStr.contains "excited" _).
  { eexists. split; [reflexivity|]. unfold _add_excitement.
    apply replace_nonempty; [discriminate|].
    destruct (negb _); [apply append_nonempty; discriminate | exact Hs0]. }
  destruct (PyStr.contains "empathetic" _).
  { unfold _add_empathy.
    destruct templates_usable as (_ & _ & _ & [Hne Hall]).
    destruct (choice_In r2 empathy_starters Hne) as [st [-> Hin]].
    cbn [mbind option_bind]. eexists. split; [reflexivity|].
    apply append_nonempty, Hs0. }
  destruct (PyStr.contains "creative" _).
  { eexists. split; [reflexivity|]. unfold _add_creativity.
    apply replace_nonempty; [discriminate|].
    apply replace_nonempty; [discriminate | exact Hs0]. }
  exists s0. split; [reflexivity | exact Hs0].
Qed.

Lemma local_generate_nonempty w r1 r2 p prompt context :
  kind p = Local ->
  exists s, Providers.generate_response w r1 r2 p prompt context = Some s /\ s <> "".
Proof.
  intros Hk. unfold Providers.generate_response. rewrite Hk.
  apply local_response_nonempty.
Qed.

Lemma try_active_inv w r1 r2 prompt ctx m s m' :
  try_active w r1 r2 prompt ctx m = Some (s, m') ->
  exists a p,
    active_provider m = Some a /\ heap m !! a = Some p
    /\ is_available p = true
    /\ Providers.generate_response w r1 r2 p prompt ctx = Some s
    /\ m' = record_exchange m a prompt s.
Proof.
  unfold try_active. intros H.
  destruct (active_provider m) as [a|]; [|discriminate].
  cbn [mbind option_bind] in H.
  destruct (heap m !! a) as [p|] eqn:Hp; [|discriminate].
  cbn [mbind option_bind] in H.
  destruct (is_available p) eqn:Hav; [|discriminate].
  destruct (Providers.generate_response w r1 r2 p prompt ctx) as [resp|] eqn:Hg;
    [|discriminate].
  cbn [mbind option_bind] in H. inversion H; subst.
  exists a, p. repeat split; assumption.
Qed.

Lemma try_providers_inv w r1 r2 prompt ctx m rs s m' :
  try_providers w r1 r2 prompt ctx m rs = Some (s, m') ->
  exists r p,
    In r rs /\ heap m !! r = Some p
    /\ is_available p = true
    /\ Providers.generate_response w r1 r2 p prompt ctx = Some s
    /\ m' = record_exchange (set_active m (Some r)) r prompt s.
Proof.
  induction rs as [|r rest IH]; intros H; cbn [try_providers] in H; [discriminate|].
  assert (Hrest : try_providers w r1 r2 prompt ctx m rest = Some (s, m') ->
                  exists r0 p,
                    In r0 (r :: rest) /\ heap m !! r0 = Some p
                    /\ is_available p = true
                    /\ Providers.generate_response w r1 r2 p prompt ctx = Some s
                    /\ m' = record_exchange (set_active m (Some r0)) r0 prompt s).
  { intros H0. destruct (IH H0) as (r0 & p & Hin & Hrestp).
    exists r0, p. split; [right; exact Hin | exact Hrestp]. }
  destruct (is_active m r); [apply Hrest, H|].
  destruct (heap m !! r) as [p|] eqn:Hp; [|apply Hrest, H].
  destruct (is_available p) eqn:Hav; [|apply Hrest, H].
  destruct (Providers.generate_response w r1 r2 p prompt ctx) as [resp|] eqn:Hg;
    [|apply Hrest, H].
  inversion H; subst. exists r, p.
  split; [left; reflexivity|]. repeat split; assumption.
Qed.

(** C3.  On an initialised manager, when every provider other than a local
    one reports unavailable or raises in [generate_response], the manager's
    [generate_response] returns a text that is not empty, and the text is
    the one a [LocalProvider] of the manager generated, recorded in that
    provider's history alone.  That provider is the fallback unless a local
    provider is itself active or listed: when every listed provider and the
    active one are not local, the call falls through to the fallback and
    leaves the active provider as it was.  [generate_response] of a
    [LocalProvider] never raises and never returns the empty text. *)
Theorem generate_response_never_empty w r1 r2 m prompt context :
  mgr_ready m ->
  others_fail w m prompt (default ∅ context) ->
  exists s r p,
    fst (Manager.generate_response w r1 r2 m prompt context) = Some s
    /\ s <> ""
    /\ heap m !! r = Some p
    /\ kind p = Local
    /\ Providers.generate_response w r1 r2 p prompt (default ∅ context) = Some s
    /\ heap (snd (Manager.generate_response w r1 r2 m prompt context))
       = alter (fun q => add_to_history q prompt s) r (heap m)
    /\ (fallback_provider m = Some r \/ active_provider m = Some r
        \/ In r (providers m))
    /\ ((forall r' p',
           In r' (providers m) \/ active_provider m = Some r' ->
           heap m !! r' = Some p' -> kind p' <> Local) ->
        fallback_provider m = Some r
        /\ active_provider (snd (Manager.generate_response w r1 r2 m prompt context))
           = active_provider m)
    /\ (forall p' q1 q2,
          kind p' = Local ->
          exists s', Providers.generate_response w q1 q2 p' prompt (default ∅ context)
                     = Some s'
                     /\ s' <> "").
Proof.
  intros [Hinit (f & pf & Hf & Hpf & Hkf)] Hfail.
  unfold Manager.generate_response. rewrite Hinit.
  set (ctx := default ∅ context) in *.
  assert (Hlocal : forall p' q1 q2,
            kind p' = Local ->
            exists s', Providers.generate_response w q1 q2 p' prompt ctx = Some s'
                       /\ s' <> "").
  { intros p' q1 q2 K. apply local_generate_nonempty, K. }
  assert (Hkind : forall r p s,
            In r (providers m) \/ active_provider m = Some r ->
            heap m !! r = Some p -> is_available p = true ->
            Providers.generate_response w r1 r2 p prompt ctx = Some s ->
            kind p = Local /\ s <> "").
  { intros r p s Hr Hp Hav Hg.
    assert (K : kind p = Local).
    { destruct (kind p) eqn:K; try reflexivity;
        (destruct (Hfail r p Hr Hp) as [Hu|Hn];
         [rewrite K; discriminate | congruence | rewrite Hn in Hg; discriminate]). }
    split; [exact K|].
    destruct (Hlocal p r1 r2 K) as (s' & Hs' & Hne). congruence. }
  destruct (try_active w r1 r2 prompt ctx m) as [[s m']|] eqn:Hact.
  { apply try_active_inv in Hact as (a & p & Ha & Hp & Hav & Hg & ->).
    destruct (Hkind a p s (or_intror Ha) Hp Hav Hg) as [K Hne].
    exists s, a, p. cbn [fst snd record_exchange set_heap heap active_provider].
    split; [reflexivity|]. split; [exact Hne|]. split; [exact Hp|].
    split; [exact K|]. split; [exact Hg|]. split; [reflexivity|].
    split; [right; left; exact Ha|].
    split; [|exact Hlocal].
    intros H. exfalso. apply (H a p (or_intror Ha) Hp K). }
  destruct (try_providers w r1 r2 prompt ctx m (providers m)) as [[s m']|] eqn:Hothers.
  { apply try_providers_inv in Hothers as (r & p & Hin & Hp & Hav & Hg & ->).
    destruct (Hkind r p s (or_introl Hin) Hp Hav Hg) as [K Hne].
    exists s, r, p.
    cbn [fst snd record_exchange set_heap set_active heap active_provider].
    split; [reflexivity|]. split; [exact Hne|]. split; [exact Hp|].
    split; [exact K|]. split; [exact Hg|]. split; [reflexivity|].
    split; [right; right; exact Hin|].
    split; [|exact Hlocal].
    intros H. exfalso. apply (H r p (or_introl Hin) Hp K). }
  destruct (Hlocal pf r1 r2 Hkf) as [s [Hs Hne]].
  unfold final_fallback. rewrite Hf. cbn [mbind option_bind].
  rewrite Hpf. cbn [mbind option_bind]. rewrite Hs. cbn [mbind option_bind].
  exists s, f, pf. cbn [fst snd record_exchange set_heap heap active_provider].
  split; [reflexivity|]. split; [exact Hne|]. split; [exact Hpf|].
  split; [exact Hkf|]. split; [exact Hs|]. split; [reflexivity|].
  split; [left; reflexivity|].
  split; [|exact Hlocal].
  intros _. split; reflexivity.
Qed.

Lemma generate_response_witness :
  (mgr_ready Examples.flaky_manager
   /\ others_fail Examples.flaky_world Examples.flaky_manager "hello" (default ∅ None))
  /\ exists s r p,
       fst (Manager.generate_response Examples.flaky_world 0 0 Examples.flaky_manager
              "hello" None) = Some s
       /\ s <> ""
       /\ heap Examples.flaky_manager !! r = Some p
       /\ kind p = Local
       /\ Providers.generate_response Examples.flaky_world 0 0 p "hello"
            (default ∅ None) = Some s.
Proof.
  assert (H1 : mgr_ready Examples.flaky_manager).
  { split; [reflexivity|]. eexists. eexists.
    split; [reflexivity|]. split; reflexivity. }
  assert (H2 : others_fail Examples.flaky_world Examples.flaky_manager "hello"
                 (default ∅ None)).
  { intros r p Hr Hp Hk. right. intros r1 r2.
    assert (Er : r = 1%nat).
    { destruct Hr as [Hr|Hr]; vm_compute in Hr.
      - destruct Hr as [Hr|[]]. symmetry. exact Hr.
      - inversion Hr. reflexivity. }
    subst r. vm_compute in Hp. inversion Hp. reflexivity. }
  split; [exact (conj H1 H2)|].
  destruct (generate_response_never_empty Examples.flaky_world 0 0
              Examples.flaky_manager "hello" None H1 H2)
    as (s & r & p & G1 & G2 & G3 & G4 & G5 & _).
  exists s, r, p. exact (conj G1 (conj G2 (conj G3 (conj G4 G5)))).
Defined.

Lemma find_or_create_active w m name r m1 :
  _find_or_create_provider w m name = (r, m1) ->
  active_provider m1 = active_provider m.
Proof.
  unfold _find_or_create_provider, _create_new_provider.
  destruct (_find_existing_provider m name); [intros H; inversion H; reflexivity|].
  destruct (provider_configs (config m) !! PyStr.lower name);
    [|intros H; inversion H; reflexivity].
  destruct (initialize w _) as [ok target].
  destruct ok; intros H; inversion H; reflexivity.
Qed.

(** C6.  [switch_provider] returns [False] and changes nothing when the name
    matches no existing provider and no configuration; it returns [False] and
    keeps the active provider when the provider found or built reports
    unavailable; whenever it returns [False] the active provider is the one
    before the call, and when it returns [True] the active provider is an
    available one. *)
Theorem switch_provider_fails_safely w m name :
  (_find_existing_provider m name = None ->
   provider_configs (config m) !! PyStr.lower name = None ->
   switch_provider w m name = (false, m))
  /\ (forall r m1 p,
        _find_or_create_provider w m name = (Some r, m1) ->
        heap m1 !! r = Some p ->
        is_available p = false ->
        fst (switch_provider w m name) = false
        /\ active_provider (snd (switch_provider w m name)) = active_provider m)
  /\ (fst (switch_provider w m name) = false ->
      active_provider (snd (switch_provider w m name)) = active_provider m)
  /\ (fst (switch_provider w m name) = true ->
      exists r p,
        active_provider (snd (switch_provider w m name)) = Some r
        /\ heap (snd (switch_provider w m name)) !! r = Some p
        /\ is_available p = true).
Proof.
  repeat split.
  - intros Hfind Hcfg.
    unfold switch_provider, _find_or_create_provider, _create_new_provider.
    rewrite Hfind, Hcfg. reflexivity.
  - unfold switch_provider. rewrite H. unfold _activate_provider.
    rewrite H0, H1. reflexivity.
  - unfold switch_provider. rewrite H. unfold _activate_provider.
    rewrite H0, H1. cbn [snd]. apply (find_or_create_active w m name _ _ H).
  - unfold switch_provider.
    destruct (_find_or_create_provider w m name) as [[r|] m1] eqn:Hfc;
      pose proof (find_or_create_active w m name _ _ Hfc) as Hact.
    + unfold _activate_provider. destruct (heap m1 !! r) as [p|]; [|intros _; exact Hact].
      destruct (is_available p); [discriminate | intros _; exact Hact].
    + intros _. exact Hact.
  - unfold switch_provider.
    destruct (_find_or_create_provider w m name) as [[r|] m1] eqn:Hfc; [|discriminate].
    unfold _activate_provider. destruct (heap m1 !! r) as [p|] eqn:Hp; [|discriminate].
    destruct (is_available p) eqn:Hav; [|discriminate].
    intros _. exists r, p. cbn [snd set_active active_provider heap].
    repeat split; assumption.
Qed.

Lemma switch_provider_witness :
  (_find_existing_provider Examples.offline_manager "unknown-name" = None
   /\ provider_configs (config Examples.offline_manager) !! PyStr.lower "unknown-name" = None)
  /\ switch_provider Examples.offline_world Examples.offline_manager "unknown-name"
     = (false, Examples.offline_manager).
Proof.
  assert (H1 : _find_existing_provider Examples.offline_manager "unknown-name" = None)
    by (vm_compute; reflexivity).
  assert (H2 : provider_configs (config Examples.offline_manager)
                 !! PyStr.lower "unknown-name" = None)
    by (vm_compute; reflexivity).
  split; [exact (conj H1 H2)|].
  exact (proj1 (switch_provider_fails_safely Examples.offline_world
                  Examples.offline_manager "unknown-name") H1 H2).
Defined.

End ManagerFacts.

(* ===================================================================== *)
(** ** Further properties of the memory store *)
(* ===================================================================== *)

Module MemoryExtras.

Import Memory Spec PyList.
Local Open Scope Q_scope.

Lemma rstrip_empty_iff s : PyStr.rstrip s = "" <-> all_space s = true.
Proof.
  induction s as [|c t IH]; simpl; [tauto|].
  destruct (PyStr.rstrip t) eqn:E.
  - destruct (PyStr.is_space c); simpl.
    + rewrite <- IH. tauto.
    + split; discriminate.
  - split; [discriminate|]. intros H. apply andb_true_iff in H as [_ H].
    apply IH in H. discriminate.
Qed.

Lemma lstrip_all_space s : all_space (PyStr.lstrip s) = all_space s.
Proof.
  induction s as [|c t IH]; simpl; [reflexivity|].
  destruct (PyStr.is_space c) eqn:E; simpl; [exact IH | rewrite E; reflexivity].
Qed.

Lemma strip_truthy s : PyStr.truthy (PyStr.strip s) = negb (all_space s).
Proof.
  unfold PyStr.strip. rewrite <- lstrip_all_space.
  destruct (PyStr.rstrip (PyStr.lstrip s)) eqn:E.
  - apply rstrip_empty_iff in E. rewrite E. reflexivity.
  - destruct (all_space (PyStr.lstrip s)) eqn:A; [|reflexivity].
    apply rstrip_empty_iff in A. congruence.
Qed.

Lemma has_visible_not_blank s : has_visible s = true -> all_space s = false.
Proof.
  induction s as [|c t IH]; [discriminate|].
  cbn [has_visible all_space].
  intros H. apply orb_true_iff in H as [H|H].
  - apply andb_true_iff in H as [H1 H2].
    apply Nat.leb_le in H1. apply Nat.leb_le in H2.
    assert (E : PyStr.is_space c = false).
    { unfold PyStr.is_space. apply orb_false_iff. split; apply andb_false_iff.
      - right. apply Nat.leb_gt. lia.
      - right. apply Nat.leb_gt. lia. }
    rewrite E. reflexivity.
  - rewrite (IH H). apply andb_false_r.
Qed.

(** X1.  [remember] ignores a content made of ASCII whitespace only: the
    store and the file stay as they are.  A content that holds a printable
    ASCII character, in a store below its capacity, is appended as one new
    entry at the end; the file then holds the whole store when the write
    succeeds, is untouched when [open] fails, and holds no JSON document
    when [json.dump] fails after [open] has emptied it. *)
Theorem remember_blank_or_append now io st c mt imp tgs :
  (all_space c = true -> remember now io st c mt imp tgs = st)
  /\ (has_visible c = true ->
      (length (memories st) < max_memories st)%nat ->
      memories (remember now io st c mt imp tgs)
        = (memories st ++ [new_entry now c mt imp tgs])%list
      /\ max_memories (remember now io st c mt imp tgs) = max_memories st
      /\ disk (remember now io st c mt imp tgs)
         = match io with
           | WriteOk =>
               Some (DocEntries
                       (map to_dict (memories st ++ [new_entry now c mt imp tgs])%list))
           | OpenFails => disk st
           | DumpFails => Some DocInvalid
           end).
Proof.
  unfold remember. rewrite strip_truthy, negb_involutive. split.
  - intros ->. reflexivity.
  - intros Hv Hlen. rewrite (has_visible_not_blank c Hv).
    unfold save_memory. cbn [memories max_memories set_memories disk].
    assert (E : (max_memories st <? length (memories st ++ [new_entry now c mt imp tgs]))%nat
                = false).
    { apply Nat.ltb_ge. rewrite length_app. simpl. lia. }
    rewrite E. cbn [memories max_memories disk]. repeat split.
Qed.

Lemma remember_blank_or_append_witness :
  (has_visible "hello" = true
   /\ (length (memories Examples.small_store) < max_memories Examples.small_store)%nat)
  /\ memories (remember 7 DumpFails Examples.small_store "hello" "conversation" 0.5 None)
     = (memories Examples.small_store
          ++ [new_entry 7 "hello" "conversation" 0.5 None])%list
  /\ disk (remember 7 DumpFails Examples.small_store "hello" "conversation" 0.5 None)
     = Some DocInvalid.
Proof.
  assert (H1 : has_visible "hello" = true) by reflexivity.
  assert (H2 : (length (memories Examples.small_store)
                < max_memories Examples.small_store)%nat) by (vm_compute; lia).
  split; [exact (conj H1 H2)|].
  destruct (proj2 (remember_blank_or_append 7%Z DumpFails Examples.small_store
                     "hello" "conversation" 0.5 None) H1 H2) as (G1 & _ & G3).
  exact (conj G1 G3).
Defined.

Lemma from_dict_of_to_dict now e :
  entry_ok e ->
  exists e', from_dict now (to_dict e) = Some e' /\ same_fields e' e.
Proof.
  intros Hok.
  destruct (MemoryFacts.to_dict_lookups e) as (Hc & Hm & Ht & Hi & Hg & Ha & Hl).
  unfold from_dict, get_or. rewrite Hc, Hm, Ht, Hi, Hg, Ha, Hl. simpl.
  eexists. split; [reflexivity|].
  unfold same_fields. simpl. repeat split.
  - apply MemoryFacts.clamp01_id, Hok.
  - destruct (tags e); reflexivity.
Qed.

Lemma mapM_from_dict now ms :
  Forall entry_ok ms ->
  exists ms', mapM (from_dict now) (map to_dict ms) = Some ms'
              /\ Forall2 same_fields ms' ms.
Proof.
  induction 1 as [|e ms He _ IH]; simpl.
  - exists []. split; [reflexivity | constructor].
  - destruct (from_dict_of_to_dict now e He) as [e' [He' Hs]].
    destruct IH as [ms' [Hms' Hall]].
    exists (e' :: ms'). split; [|constructor; assumption].
    cbn [mapM]. rewrite He'. cbn [mbind option_bind]. rewrite Hms'. reflexivity.
Qed.

(** X2.  Persistence across instances: a store that is within its capacity
    and is saved is read back, by a new [SpectraMemory] on the same file,
    with the same entries in the same order, field for field. *)
Theorem save_then_init_restores now now' st :
  store_ok st ->
  (length (memories st) <= max_memories st)%nat ->
  Forall2 same_fields
    (memories (init_memory now' (disk (save_memory now WriteOk st))))
    (memories st).
Proof.
  intros Hok Hlen. unfold save_memory.
  assert (E : (max_memories st <? length (memories st))%nat = false)
    by (apply Nat.ltb_ge; exact Hlen).
  rewrite E. cbn [disk memories]. unfold init_memory, load_memory. cbn [disk].
  destruct (mapM_from_dict now' (memories st) Hok) as [ms' [-> Hall]].
  exact Hall.
Qed.

Lemma save_then_init_restores_witness :
  (store_ok Examples.small_store
   /\ (length (memories Examples.small_store) <= max_memories Examples.small_store)%nat)
  /\ Forall2 same_fields
       (memories (init_memory 9 (disk (save_memory 8 WriteOk Examples.small_store))))
       (memories Examples.small_store).
Proof.
  assert (H1 : store_ok Examples.small_store)
    by (repeat constructor; vm_compute; discriminate).
  assert (H2 : (length (memories Examples.small_store)
                <= max_memories Examples.small_store)%nat) by (vm_compute; lia).
  split; [exact (conj H1 H2)|].
  exact (save_then_init_restores 8%Z 9%Z Examples.small_store H1 H2).
Defined.

Lemma mapM_from_dict_bad now items d :
  In d items -> d !! "content" = None -> mapM (from_dict now) items = None.
Proof.
  induction items as [|x xs IH]; intros Hin Hd; [destruct Hin|].
  cbn [mapM]. destruct Hin as [->|Hin].
  - unfold from_dict. rewrite Hd. reflexivity.
  - destruct (from_dict now x); [|reflexivity]. cbn [mbind option_bind].
    rewrite (IH Hin Hd). reflexivity.
Qed.

(** X3.  Loading never raises, and a list of objects loads all or nothing:
    a missing file, a file without a JSON document, a document that is not
    a list, and a list of objects one of which has no ["content"] key all
    give an empty store, whatever the other objects hold.  A legacy list
    made of strings only gives one entry per string, in order, of type
    "conversation" and importance 0.5. *)
Theorem load_memory_outcomes now :
  memories (init_memory now None) = []
  /\ memories (init_memory now (Some DocInvalid)) = []
  /\ memories (init_memory now (Some DocOther)) = []
  /\ (forall items d,
        In d items -> d !! "content" = None ->
        memories (init_memory now (Some (DocEntries items))) = [])
  /\ (forall items,
        map content (memories (init_memory now (Some (DocLegacy items)))) = items
        /\ Forall (fun m => memory_type m = "conversation"
                            /\ importance m == 0.5
                            /\ access_count m = 0%Z
                            /\ timestamp m = now)
             (memories (init_memory now (Some (DocLegacy items))))).
Proof.
  repeat split; try reflexivity.
  - intros items d Hin Hd. unfold init_memory, load_memory. cbn [disk].
    rewrite (mapM_from_dict_bad now items d Hin Hd). reflexivity.
  - unfold init_memory, load_memory. cbn [disk memories set_memories].
    rewrite map_map. cbn [content new_entry]. apply map_id.
  - unfold init_memory, load_memory. cbn [disk memories set_memories].
    apply List.Forall_forall. intros m Hm. apply in_map_iff in Hm as [c [<- _]].
    repeat split; reflexivity.
Qed.

Lemma load_memory_outcomes_witness :
  (In (<["importance" := JNum 0.9]> ∅ : gmap string jval)
      [to_dict Examples.launch_entry; <["importance" := JNum 0.9]> ∅]
   /\ (<["importance" := JNum 0.9]> ∅ : gmap string jval) !! "content" = None)
  /\ memories (init_memory 3
                 (Some (DocEntries [to_dict Examples.launch_entry;
                                    <["importance" := JNum 0.9]> ∅]))) = [].
Proof.
  assert (H1 : In (<["importance" := JNum 0.9]> ∅ : gmap string jval)
                 [to_dict Examples.launch_entry; <["importance" := JNum 0.9]> ∅])
    by (right; left; reflexivity).
  assert (H2 : (<["importance" := JNum 0.9]> ∅ : gmap string jval) !! "content" = None)
    by reflexivity.
  split; [exact (conj H1 H2)|].
  exact (proj1 (proj2 (proj2 (proj2 (load_memory_outcomes 3%Z)))) _ _ H1 H2).
Defined.

Lemma enumerate_from_snd {A} (i : nat) (l : list A) :
  map snd (enumerate_from i l) = l.
Proof.
  revert i. induction l as [|x xs IH]; intros i; simpl; [reflexivity|].
  rewrite IH. reflexivity.
Qed.

Lemma filter_snd {A} (f : A -> bool) (l : list (nat * A)) :
  map snd (List.filter (fun p => f (snd p)) l) = List.filter f (map snd l).
Proof.
  induction l as [|x xs IH]; simpl; [reflexivity|].
  destruct (f (snd x)); simpl; rewrite IH; reflexivity.
Qed.

Lemma filter_filter {A} (f g : A -> bool) (l : list A) :
  List.filter g (List.filter f l) = List.filter (fun x => f x && g x)%bool l.
Proof.
  induction l as [|x xs IH]; simpl; [reflexivity|].
  destruct (f x); simpl; [destruct (g x); rewrite IH; reflexivity | exact IH].
Qed.

Lemma filter_true {A} (l : list A) : List.filter (fun _ => true) l = l.
Proof. induction l as [|x xs IH]; simpl; [|rewrite IH]; reflexivity. Qed.

(** The list that [recall] sorts: the selected entries with their positions,
    in store order. *)
Lemma recall_ranked_spec now st keyword mtype min_importance :
  exists filtered,
    recall_ranked now st keyword mtype min_importance
      = sort_desc (score_geb now) filtered
    /\ StronglySorted (fun a b : nat * MemoryEntry => (fst a < fst b)%nat) filtered
    /\ map snd filtered
       = List.filter (recall_selects keyword mtype min_importance) (memories st)
    /\ (forall i m, In (i, m) filtered -> memories st !! i = Some m).
Proof.
  unfold recall_ranked.
  set (base := enumerate_from 0 (memories st)).
  set (f1 := fun m : MemoryEntry =>
               match keyword with
               | Some k => if PyStr.truthy k then keyword_match k m else true
               | None => true
               end).
  set (f2 := fun m : MemoryEntry =>
               match mtype with
               | Some t => if PyStr.truthy t then String.eqb (memory_type m) t else true
               | None => true
               end).
  set (l1 := match keyword with
             | Some k => if PyStr.truthy k
                         then List.filter (fun p => keyword_match k (snd p)) base
                         else base
             | None => base
             end).
  assert (E1 : l1 = List.filter (fun p => f1 (snd p)) base).
  { subst l1 f1. destruct keyword as [k|]; [destruct (PyStr.truthy k)|];
      try reflexivity; symmetry; apply filter_true. }
  set (l2 := match mtype with
             | Some t => if PyStr.truthy t
                         then List.filter (fun p => String.eqb (memory_type (snd p)) t) l1
                         else l1
             | None => l1
             end).
  assert (E2 : l2 = List.filter (fun p => f2 (snd p)) l1).
  { subst l2 f2. destruct mtype as [t|]; [destruct (PyStr.truthy t)|];
      try reflexivity; symmetry; apply filter_true. }
  exists (List.filter (fun p => Qle_bool min_importance (importance (snd p))) l2).
  split; [reflexivity|]. split; [|split].
  - rewrite E2, E1. repeat apply ListFacts.StronglySorted_filter.
    apply ListFacts.enumerate_from_sorted.
  - rewrite (filter_snd (fun m => Qle_bool min_importance (importance m))).
    rewrite E2, (filter_snd f2), E1, (filter_snd f1).
    subst base. rewrite enumerate_from_snd, !filter_filter.
    apply filter_ext. intros m. unfold recall_selects, f1, f2.
    rewrite andb_assoc. reflexivity.
  - intros i m Hin. apply filter_In in Hin as [Hin _]. rewrite E2 in Hin.
    apply filter_In in Hin as [Hin _]. rewrite E1 in Hin.
    apply filter_In in Hin as [Hin _].
    apply ListFacts.enumerate_from_In in Hin as [_ Hin].
    rewrite Nat.sub_0_r in Hin. exact Hin.
Qed.

Lemma sorted_positions_NoDup {A} (l : list (nat * A)) :
  StronglySorted (fun a b : nat * A => (fst a < fst b)%nat) l ->
  List.NoDup (map fst l).
Proof.
  induction 1 as [|x xs _ IH Hx]; simpl; constructor; [|exact IH].
  intros Hin. apply in_map_iff in Hin as [y [Hy Hin]].
  rewrite List.Forall_forall in Hx. specialize (Hx y Hin). lia.
Qed.

Lemma NoDup_firstn {A} (n : nat) (l : list A) :
  List.NoDup l -> List.NoDup (firstn n l).
Proof.
  intros H. revert n. induction H as [|x xs Hx _ IH]; intros [|n]; simpl;
    try constructor; [|apply IH].
  intros Hin. apply Hx. apply (ListFacts.In_firstn n), Hin.
Qed.

Lemma within_limit_NoDup {A} limit (l : list (nat * A)) :
  List.NoDup (map fst l) -> List.NoDup (map fst (within_limit limit l)).
Proof.
  intros H. unfold within_limit, slice_to.
  destruct limit as [n|]; [|exact H].
  destruct (n =? 0)%Z; [exact H|].
  destruct (0 <=? n)%Z; rewrite <- firstn_map; apply NoDup_firstn, H.
Qed.

Lemma fold_alter_lookup {A B} (f : A -> A) (l : list (nat * B)) (ms : list A) (i : nat) :
  List.NoDup (map fst l) ->
  fold_left (fun ms p => alter f (fst p) ms) l ms !! i
  = if position_in i l then f <$> (ms !! i) else ms !! i.
Proof.
  unfold position_in. revert ms.
  induction l as [|[j b] rest IH]; intros ms Hnd; simpl; [reflexivity|].
  apply List.NoDup_cons_iff in Hnd as [Hj Hnd]. rewrite (IH _ Hnd).
  destruct (Nat.eqb i j) eqn:E; simpl.
  - apply Nat.eqb_eq in E. subst j.
    assert (Hno : existsb (Nat.eqb i) (map fst rest) = false).
    { apply Bool.not_true_iff_false. intros H. apply existsb_exists in H as [x [Hx Ex]].
      apply Nat.eqb_eq in Ex. subst x. exact (Hj Hx). }
    rewrite Hno. apply list_lookup_alter_eq.
  - apply Nat.eqb_neq in E.
    rewrite (list_lookup_alter_ne f ms j i) by congruence. reflexivity.
Qed.

Lemma fold_alter_length {A B} (f : A -> A) (l : list (nat * B)) (ms : list A) :
  length (fold_left (fun ms p => alter f (fst p) ms) l ms) = length ms.
Proof.
  revert ms. induction l as [|p rest IH]; intros ms; simpl; [reflexivity|].
  rewrite IH. apply length_alter.
Qed.

Lemma recall_length_bound now st keyword mtype n min_importance :
  (0 < n)%Z ->
  (length (fst (recall now st keyword mtype (Some n) min_importance)) <= Z.to_nat n)%nat.
Proof.
  intros Hn. unfold recall. cbn [fst]. rewrite length_map. unfold within_limit.
  destruct (n =? 0)%Z eqn:E; [apply Z.eqb_eq in E; lia|].
  unfold slice_to. destruct (0 <=? n)%Z eqn:E'; [|apply Z.leb_gt in E'; lia].
  apply firstn_le_length.
Qed.

(** X4.  [recall] updates the access bookkeeping of exactly the entries it
    returns: the store keeps its length and order, an entry whose position
    is among the returned ones gets [access_count + 1] and [last_accessed =
    now] (once), every other entry is left as it was; with a positive limit
    at most [limit] contents are returned. *)
Theorem recall_touches_returned now st keyword mtype limit min_importance :
  let returned :=
    within_limit limit (recall_ranked now st keyword mtype min_importance) in
  let after := snd (recall now st keyword mtype limit min_importance) in
  length (fst (recall now st keyword mtype limit min_importance)) = length returned
  /\ length (memories after) = length (memories st)
  /\ (forall i, memories after !! i
               = if position_in i returned
                 then touch now <$> (memories st !! i)
                 else memories st !! i)
  /\ (forall n, limit = Some n -> (0 < n)%Z ->
        (length (fst (recall now st keyword mtype limit min_importance))
         <= Z.to_nat n)%nat).
Proof.
  intros returned after. subst after. unfold recall. cbn [fst snd memories set_memories].
  fold returned. split; [apply length_map|]. split; [apply fold_alter_length|]. split.
  - intros i. apply fold_alter_lookup. subst returned.
    apply within_limit_NoDup.
    destruct (recall_ranked_spec now st keyword mtype min_importance)
      as (filtered & -> & Hs & _ & _).
    apply (Permutation_NoDup (l := map fst filtered)).
    + apply Permutation_map, Permutation_sym, ListFacts.sort_desc_perm.
    + apply sorted_positions_NoDup, Hs.
  - intros n -> Hn.
    apply (recall_length_bound now st keyword mtype n min_importance Hn).
Qed.

(** X5.  Without a limit [recall] returns every selected entry exactly once:
    its result is a rearrangement of the contents of the stored entries that
    pass the keyword, type and importance filters. *)
Theorem recall_returns_all_selected now st keyword mtype min_importance :
  Permutation
    (fst (recall now st keyword mtype None min_importance))
    (map content
       (List.filter (recall_selects keyword mtype min_importance) (memories st))).
Proof.
  unfold recall. cbn [fst within_limit].
  destruct (recall_ranked_spec now st keyword mtype min_importance)
    as (filtered & -> & _ & Hsnd & _).
  rewrite <- Hsnd, map_map.
  apply Permutation_map, ListFacts.sort_desc_perm.
Qed.

Lemma recall_touches_returned_witness :
  (Some 1%Z = Some 1%Z /\ (0 < 1)%Z)
  /\ (length (fst (recall 5 Examples.small_store None None (Some 1%Z) 0))
      <= Z.to_nat 1)%nat.
Proof.
  assert (H1 : Some 1%Z = Some 1%Z) by reflexivity.
  assert (H2 : (0 < 1)%Z) by lia.
  split; [exact (conj H1 H2)|].
  exact (proj2 (proj2 (proj2 (recall_touches_returned 5%Z Examples.small_store
                                None None (Some 1%Z) 0))) 1%Z H1 H2).
Defined.

Lemma by_content_consistent (ms : list MemoryEntry) d :
  Forall (fun kv => content (snd kv) = fst kv) d ->
  Forall (fun kv => content (snd kv) = fst kv)
    (fold_left (fun d m => ODict.set (content m) m d) ms d).
Proof.
  intros H. apply List.Forall_forall. intros [k v] Hin.
  apply MemoryFacts.by_content_In_inv in Hin as [Hin|[_ E]]; [|exact E].
  rewrite List.Forall_forall in H. apply (H _ Hin).
Qed.

Lemma by_content_contents (ms : list MemoryEntry) :
  map content (ODict.values (by_content ms)) = ODict.keys (by_content ms).
Proof.
  pose proof (by_content_consistent ms [] (List.Forall_nil _)) as H.
  unfold by_content, ODict.values, ODict.keys in *.
  induction H as [|[k v] r Hk _ IH]; simpl; [reflexivity|].
  simpl in Hk. rewrite Hk, IH. reflexivity.
Qed.

(** X6.  What [_cleanup_memories] keeps: entries of the store that are
    important (importance at least 0.8) or recent (at most seven days old),
    and no two with the same content.  An entry that is neither is always
    removed. *)
Theorem cleanup_survivors now st :
  List.NoDup (map content (memories (_cleanup_memories now st)))
  /\ forall m, In m (memories (_cleanup_memories now st)) ->
       In m (memories st)
       /\ (0.8 <= importance m \/ (now - seven_days <= timestamp m)%Z).
Proof.
  unfold _cleanup_memories. cbn [memories set_memories].
  set (cands := (List.filter is_important (memories st)
                  ++ List.filter (is_recent now) (memories st))%list).
  set (keep := ODict.values (by_content cands)).
  assert (Hnd : List.NoDup (map content keep)).
  { subst keep. rewrite by_content_contents.
    apply (MemoryFacts.by_content_NoDup cands []). constructor. }
  assert (Hin : forall m, In m keep ->
            In m (memories st)
            /\ (0.8 <= importance m \/ (now - seven_days <= timestamp m)%Z)).
  { intros m Hm. apply MemoryFacts.values_In_inv in Hm as [k Hk].
    apply MemoryFacts.by_content_In_inv in Hk as [[]|[Hk _]].
    apply in_app_iff in Hk as [Hk|Hk]; apply filter_In in Hk as [Hk1 Hk2];
      (split; [exact Hk1|]).
    - left. apply Qle_bool_iff, Hk2.
    - right. apply Z.leb_le, Hk2. }
  destruct (max_memories st <? length keep)%nat; [|split; assumption].
  split.
  - rewrite <- firstn_map. apply NoDup_firstn.
    apply (Permutation_NoDup (l := map content keep)); [|exact Hnd].
    apply Permutation_map, Permutation_sym, ListFacts.sort_desc_perm.
  - intros m Hm. apply Hin. apply ListFacts.In_firstn in Hm.
    apply (proj1 (ListFacts.sort_desc_In more_accessed _ _)) in Hm. exact Hm.
Qed.

Lemma cleanup_survivors_witness :
  In Examples.launch_entry
    (memories (_cleanup_memories (30 * one_day) Examples.small_store))
  /\ In Examples.launch_entry (memories Examples.small_store)
  /\ (0.8 <= importance Examples.launch_entry
      \/ (30 * one_day - seven_days <= timestamp Examples.launch_entry)%Z).
Proof.
  assert (H : In Examples.launch_entry
                (memories (_cleanup_memories (30 * one_day) Examples.small_store)))
    by (vm_compute; left; reflexivity).
  split; [exact H|].
  exact (proj2 (cleanup_survivors (30 * one_day) Examples.small_store)
           Examples.launch_entry H).
Defined.

Lemma search_results_In now ql ms r :
  In r (fst (search_loop now ql ms)) ->
  exists m, In m ms /\ PyStr.contains ql (PyStr.lower (content m)) = true
            /\ r = result_of m.
Proof.
  rewrite MemoryFacts.search_loop_spec. cbn [fst]. intros H.
  apply in_map_iff in H as [m [<- Hm]]. apply filter_In in Hm as [Hm Hq].
  exists m. repeat split; assumption.
Qed.

(** X7.  [search_memories] with a non-negative limit returns at most [limit]
    results, each describing a stored entry that contains the query; the
    empty query matches every entry, so such a search counts as an access to
    the whole store. *)
Theorem search_memories_results now st query limit :
  ((0 <= limit)%Z ->
   (length (fst (search_memories now st query limit)) <= Z.to_nat limit)%nat)
  /\ (forall r, In r (fst (search_memories now st query limit)) ->
        exists m, In m (memories st)
                  /\ PyStr.contains (PyStr.lower query) (PyStr.lower (content m)) = true
                  /\ r_content r = content m /\ r_type r = memory_type m
                  /\ r_importance r = importance m /\ r_timestamp r = timestamp m
                  /\ r_tags r = tags m)
  /\ memories (snd (search_memories now st "" limit)) = map (touch now) (memories st).
Proof.
  unfold search_memories. split; [|split].
  - intros Hl. destruct (search_loop now (PyStr.lower query) (memories st)) as [rs ms].
    cbn [fst]. unfold slice_to. destruct (0 <=? limit)%Z eqn:E;
      [apply firstn_le_length | apply Z.leb_gt in E; lia].
  - intros r Hr.
    destruct (search_loop now (PyStr.lower query) (memories st)) as [rs ms] eqn:E.
    cbn [fst] in Hr. apply ListFacts.slice_to_incl in Hr.
    apply (proj1 (ListFacts.sort_desc_In result_geb _ _)) in Hr.
    assert (Hr' : In r (fst (search_loop now (PyStr.lower query) (memories st))))
      by (rewrite E; exact Hr).
    apply search_results_In in Hr' as [m (Hm & Hq & ->)].
    exists m. repeat split; assumption.
  - rewrite MemoryFacts.search_loop_spec. cbn [snd memories set_memories].
    apply map_ext. intros m. cbn [PyStr.lower].
    rewrite MemoryFacts.contains_empty. reflexivity.
Qed.

Lemma search_memories_results_witness :
  (0 <= 1)%Z
  /\ (length (fst (search_memories 5 Examples.small_store "e" 1)) <= Z.to_nat 1)%nat.
Proof.
  assert (H : (0 <= 1)%Z) by lia.
  split; [exact H|].
  exact (proj1 (search_memories_results 5%Z Examples.small_store "e" 1%Z) H).
Defined.

Lemma get_default_set_any {V} k0 k (v dflt : V) d :
  ODict.get_default k0 dflt (ODict.set k v d) =
  if String.eqb k0 k then v else ODict.get_default k0 dflt d.
Proof.
  unfold ODict.get_default. rewrite EmotionFacts.get_set.
  destruct (String.eqb k0 k); reflexivity.
Qed.

Lemma count_types_get (t : string) (ms : list MemoryEntry) d :
  ODict.get_default t 0%Z
    (fold_left
       (fun types m =>
          ODict.set (memory_type m)
            (ODict.get_default (memory_type m) 0%Z types + 1)%Z types) ms d)
  = (ODict.get_default t 0%Z d
     + Z.of_nat (length (List.filter (fun m => String.eqb t (memory_type m)) ms)))%Z.
Proof.
  revert d. induction ms as [|m ms IH]; intros d; simpl; [lia|].
  rewrite IH, get_default_set_any.
  destruct (String.eqb t (memory_type m)) eqn:E; simpl length.
  - apply String.eqb_eq in E. subst t. lia.
  - lia.
Qed.

Lemma count_types_keys (ms : list MemoryEntry) d :
  List.NoDup (ODict.keys d) ->
  List.NoDup (ODict.keys
    (fold_left
       (fun types m =>
          ODict.set (memory_type m)
            (ODict.get_default (memory_type m) 0%Z types + 1)%Z types) ms d)).
Proof.
  revert d. induction ms as [|m ms IH]; intros d H; simpl; [exact H|].
  apply IH, DictFacts.set_keys_NoDup, H.
Qed.

Lemma fold_min_spec (ms : list MemoryEntry) (a : Z) :
  (fold_left (fun acc x => Z.min acc (timestamp x)) ms a <= a)%Z
  /\ Forall (fun m => (fold_left (fun acc x => Z.min acc (timestamp x)) ms a
                        <= timestamp m)%Z) ms.
Proof.
  revert a. induction ms as [|m ms IH]; intros a; simpl; [split; [lia | constructor]|].
  destruct (IH (Z.min a (timestamp m))) as [H1 H2]. split; [lia|].
  constructor; [lia | exact H2].
Qed.

Lemma fold_max_spec (ms : list MemoryEntry) (a : Z) :
  (a <= fold_left (fun acc x => Z.max acc (timestamp x)) ms a)%Z
  /\ Forall (fun m => (timestamp m
                        <= fold_left (fun acc x => Z.max acc (timestamp x)) ms a)%Z) ms.
Proof.
  revert a. induction ms as [|m ms IH]; intros a; simpl; [split; [lia | constructor]|].
  destruct (IH (Z.max a (timestamp m))) as [H1 H2]. split; [lia|].
  constructor; [lia | exact H2].
Qed.

Lemma fold_importance_bounds (ms : list MemoryEntry) (a : Q) :
  Forall entry_ok ms ->
  a <= fold_left (fun acc x => acc + importance x) ms a
    <= a + inject_Z (Z.of_nat (length ms)).
Proof.
  intros H. revert a. induction H as [|m ms [Hm0 Hm1] _ IH]; intros a.
  - cbn [fold_left length]. change (inject_Z (Z.of_nat 0)) with 0. lra.
  - cbn [fold_left length]. specialize (IH (a + importance m)).
    assert (E : inject_Z (Z.of_nat (S (length ms)))
                == inject_Z (Z.of_nat (length ms)) + 1).
    { rewrite Nat2Z.inj_succ. unfold Z.succ. rewrite inject_Z_plus. reflexivity. }
    rewrite E. lra.
Qed.

(** X8.  [get_stats] on an empty store is [{"total": 0}]; otherwise the
    total is the number of entries, [by_type] holds for every type exactly
    the number of entries of that type (and only the types that occur, each
    once), [oldest] and [newest] bound every timestamp, and the average
    importance lies in [0, 1] when every importance does. *)
Theorem get_stats_consistent st :
  match get_stats st with
  | StatsEmpty => memories st = []
  | StatsFull total by_type average_importance oldest newest =>
      total = length (memories st) /\ (0 < total)%nat
      /\ (forall t, ODict.get_default t 0%Z by_type
                    = Z.of_nat (length (List.filter
                                          (fun m => String.eqb t (memory_type m))
                                          (memories st))))
      /\ List.NoDup (ODict.keys by_type)
      /\ (forall t, In t (ODict.keys by_type) -> In t (map memory_type (memories st)))
      /\ Forall (fun m => (oldest <= timestamp m <= newest)%Z) (memories st)
      /\ (store_ok st -> 0 <= average_importance <= 1)
  end.
Proof.
  unfold get_stats, store_ok. destruct (memories st) as [|m rest] eqn:E; [reflexivity|].
  split; [reflexivity|]. split; [simpl; lia|]. split; [|split; [|split; [|split]]].
  - intros t. unfold count_types. rewrite count_types_get. reflexivity.
  - apply count_types_keys. constructor.
  - intros t Ht. apply DictFacts.mem_keys in Ht. unfold ODict.mem in Ht.
    pose proof (count_types_get t (m :: rest) []) as Hc.
    fold (count_types (m :: rest)) in Hc. unfold ODict.get_default in Hc at 1.
    destruct (ODict.get t (count_types (m :: rest))) as [n|] eqn:G; [|discriminate].
    destruct (List.filter (fun x => String.eqb t (memory_type x)) (m :: rest))
      as [|x xs] eqn:F.
    + (* a key of the dictionary was set by some entry of that type *)
      exfalso. clear Hc Ht.
      assert (Hk : In t (ODict.keys (count_types (m :: rest)))).
      { apply DictFacts.mem_keys. unfold ODict.mem. rewrite G. reflexivity. }
      assert (Hall : forall (ms : list MemoryEntry) d,
                In t (ODict.keys
                        (fold_left
                           (fun types x =>
                              ODict.set (memory_type x)
                                (ODict.get_default (memory_type x) 0%Z types + 1)%Z types)
                           ms d)) ->
                In t (ODict.keys d) \/ In t (map memory_type ms)).
      { induction ms as [|y ys IH]; intros d Hd; simpl in *; [left; exact Hd|].
        apply IH in Hd as [Hd|Hd]; [|right; right; exact Hd].
        apply DictFacts.set_keys_In in Hd as [Hd|Hd]; [right; left; congruence | left; exact Hd]. }
      apply Hall in Hk as [[]|Hk].
      apply in_map_iff in Hk as [y [Hy Hin]].
      assert (In y (List.filter (fun x => String.eqb t (memory_type x)) (m :: rest))).
      { apply filter_In. split; [exact Hin|]. rewrite Hy. apply String.eqb_refl. }
      rewrite F in H. destruct H.
    + assert (Hx : In x (List.filter (fun x => String.eqb t (memory_type x)) (m :: rest)))
        by (rewrite F; left; reflexivity).
      apply filter_In in Hx as [Hx Ex]. apply String.eqb_eq in Ex.
      rewrite Ex. apply in_map, Hx.
  - destruct (fold_min_spec rest (timestamp m)) as [Hmin1 Hmin2].
    destruct (fold_max_spec rest (timestamp m)) as [Hmax1 Hmax2].
    constructor; [lia|].
    rewrite List.Forall_forall in *. intros x Hx.
    specialize (Hmin2 x Hx). specialize (Hmax2 x Hx). lia.
  - intros Hok.
    pose proof (fold_importance_bounds (m :: rest) 0 Hok) as [Hlo Hhi].
    set (n := inject_Z (Z.of_nat (length (m :: rest)))) in *.
    assert (Hn : 0 < n).
    { subst n. rewrite <- (Zlt_Qlt 0). simpl length. lia. }
    split.
    + apply Qle_shift_div_l; [exact Hn | lra].
    + apply Qle_shift_div_r; [exact Hn | lra].
Qed.

Lemma get_stats_consistent_witness :
  store_ok Examples.small_store
  /\ match get_stats Examples.small_store with
     | StatsEmpty => False
     | StatsFull _ _ average_importance _ _ => 0 <= average_importance <= 1
     end.
Proof.
  assert (H : store_ok Examples.small_store)
    by (repeat constructor; vm_compute; discriminate).
  split; [exact H|].
  pose proof (get_stats_consistent Examples.small_store) as G.
  destruct (get_stats Examples.small_store) as [|total by_type avg oldest newest] eqn:E.
  - discriminate G.
  - exact (proj2 (proj2 (proj2 (proj2 (proj2 (proj2 G))))) H).
Defined.

Lemma slice_from_short {A} (n : Z) (l : list A) :
  (0 < n)%Z -> (length l <= Z.to_nat n)%nat -> slice_from (- n) l = l.
Proof.
  intros Hn Hl. unfold slice_from.
  destruct (0 <=? - n)%Z eqn:E; [apply Z.leb_le in E; lia|].
  rewrite Z.opp_involutive.
  replace (length l - Z.to_nat n)%nat with 0%nat by lia. reflexivity.
Qed.

(** X9.  [get_recent_context(limit)] with a positive limit is the contents
    returned by [recall(memory_type="conversation", limit=limit)] joined by
    line feeds (the slice [[-limit:]] never removes anything), the empty text
    when there is no such content; it updates the access bookkeeping exactly
    as that [recall] does; a missing or zero limit stands for 5. *)
Theorem get_recent_context_is_recall now st :
  (forall n, (0 < n)%Z ->
     get_recent_context now st (Some n)
     = (PyStr.join PyStr.newline
          (fst (recall now st None (Some "conversation") (Some n) 0)),
        snd (recall now st None (Some "conversation") (Some n) 0)))
  /\ get_recent_context now st None = get_recent_context now st (Some 5%Z)
  /\ get_recent_context now st (Some 0%Z) = get_recent_context now st (Some 5%Z).
Proof.
  split; [|split; reflexivity].
  intros n Hn. unfold get_recent_context.
  assert (E : (n =? 0)%Z = false) by (apply Z.eqb_neq; lia). rewrite E.
  pose proof (recall_length_bound now st None (Some "conversation") n 0 Hn) as Hl.
  destruct (recall now st None (Some "conversation") (Some n) 0) as [recent st'].
  cbn [fst snd] in *. destruct recent as [|x xs]; [reflexivity|].
  rewrite (slice_from_short n (x :: xs) Hn Hl). reflexivity.
Qed.

Lemma get_recent_context_witness :
  (0 < 2)%Z
  /\ get_recent_context 5 Examples.small_store (Some 2%Z)
     = (PyStr.join PyStr.newline
          (fst (recall 5 Examples.small_store None (Some "conversation") (Some 2%Z) 0)),
        snd (recall 5 Examples.small_store None (Some "conversation") (Some 2%Z) 0)).
Proof.
  assert (H : (0 < 2)%Z) by lia.
  split; [exact H|].
  exact (proj1 (get_recent_context_is_recall 5%Z Examples.small_store) 2%Z H).
Defined.

End MemoryExtras.

(* ===================================================================== *)
(** ** Further properties of the emotion engine *)
(* ===================================================================== *)

Module EmotionExtras.

Import Emotions Spec PyList.
Local Open Scope Q_scope.

(** X10.  [update_emotion] on a name that is not a channel returns [False]
    and changes nothing; on a channel it returns [True], stores the old
    value plus [change * (1 - stability * 0.5)] clamped to [0, 1], and leaves
    every other channel, the order of the channels, the stability and the
    intensity as they were. *)
Theorem update_emotion_effect now st emotion change reason :
  (ODict.get emotion (emotions st) = None ->
   update_emotion now st emotion change reason = (false, st))
  /\ (forall v,
       ODict.get emotion (emotions st) = Some v ->
       fst (update_emotion now st emotion change reason) = true
       /\ ODict.get emotion (emotions (snd (update_emotion now st emotion change reason)))
          = Some (Qmax 0 (Qmin 1 (v + change * (1 - stability st * 0.5))))
       /\ 0 <= Qmax 0 (Qmin 1 (v + change * (1 - stability st * 0.5))) <= 1
       /\ (forall k, k <> emotion ->
             ODict.get k (emotions (snd (update_emotion now st emotion change reason)))
             = ODict.get k (emotions st))
       /\ ODict.keys (emotions (snd (update_emotion now st emotion change reason)))
          = ODict.keys (emotions st)
       /\ stability (snd (update_emotion now st emotion change reason)) = stability st
       /\ intensity (snd (update_emotion now st emotion change reason)) = intensity st).
Proof.
  unfold update_emotion. split.
  - intros ->. reflexivity.
  - intros v Hv. rewrite Hv. cbn [fst snd emotions stability intensity].
    split; [reflexivity|]. split; [apply DictFacts.get_set_same|].
    split; [apply MemoryFacts.clamp01_bounds|].
    split; [intros k Hk; apply DictFacts.get_set_other, Hk|].
    split; [|split; reflexivity].
    apply (DictFacts.set_keys_present emotion _ v), Hv.
Qed.

Lemma update_emotion_effect_witness :
  ODict.get "joy" (emotions (new_state 0)) = Some 0.6
  /\ fst (update_emotion 1 (new_state 0) "joy" 0.2 "test reason") = true.
Proof.
  assert (H : ODict.get "joy" (emotions (new_state 0)) = Some 0.6) by reflexivity.
  split; [exact H|].
  exact (proj1 (proj2 (update_emotion_effect 1%Z (new_state 0) "joy" 0.2 "test reason")
                  0.6 H)).
Defined.

Lemma set_in_range k v d :
  in_range d -> 0 <= v <= 1 -> in_range (ODict.set k v d).
Proof.
  unfold in_range. intros H Hv.
  induction H as [|[k' v'] r Hk Hr IH]; simpl.
  - constructor; [exact Hv | constructor].
  - destruct (String.eqb k k').
    + constructor; [exact Hv | exact Hr].
    + constructor; [exact Hk | exact IH].
Qed.

Lemma update_emotion_in_range now st e c r :
  in_range (emotions st) -> in_range (emotions (snd (update_emotion now st e c r))).
Proof.
  intros H. unfold update_emotion.
  destruct (ODict.get e (emotions st)); [|exact H].
  cbn [snd emotions]. apply set_in_range; [exact H | apply MemoryFacts.clamp01_bounds].
Qed.

Lemma decay_loop_in_range rate table ems ems' :
  in_range ems -> decay_loop rate table ems = Some ems' -> in_range ems'.
Proof.
  revert ems. induction table as [|[k b] rest IH]; intros ems H Hl.
  - inversion Hl. subst. exact H.
  - change (decay_loop rate ((k, b) :: rest) ems)
      with (decay_one rate ems (k, b) ≫= fun e => decay_loop rate rest e) in Hl.
    destruct (decay_one rate ems (k, b)) as [ems1|] eqn:E1; [|discriminate].
    cbn [mbind option_bind] in Hl. apply (IH ems1); [|exact Hl].
    unfold decay_one in E1. destruct (ODict.get k ems) as [cur|]; [|discriminate].
    cbn [mbind option_bind] in E1.
    destruct (negb (Qeq_bool cur b)); inversion E1; subst; [|exact H].
    apply set_in_range; [exact H | apply MemoryFacts.clamp01_bounds].
Qed.

Lemma decay_emotions_in_range rate st st' :
  in_range (emotions st) -> decay_emotions rate st = Some st' -> in_range (emotions st').
Proof.
  intros H Hd. unfold decay_emotions in Hd.
  destruct (decay_loop rate baselines (emotions st)) as [ems|] eqn:E; [|discriminate].
  cbn [mbind option_bind] in Hd. inversion Hd; subst. cbn [emotions].
  apply (decay_loop_in_range rate baselines (emotions st) ems H E).
Qed.

Lemma fold_updates_in_range now reason changes st :
  in_range (emotions st) ->
  in_range (emotions
    (fold_left (fun st '(emotion, change) =>
                  snd (update_emotion now st emotion change reason)) changes st)).
Proof.
  revert st. induction changes as [|[e c] rest IH]; intros st H; simpl; [exact H|].
  apply IH, update_emotion_in_range, H.
Qed.

(** What [process_input] returns, in terms of the engine after the idle
    decay. *)
Lemma process_input_inv now eng text context out eng' :
  process_input now eng text context = Some (out, eng') ->
  exists eng1,
    _auto_decay now eng = Some eng1
    /\ state eng'
       = fold_left
           (fun st '(emotion, change) =>
              snd (update_emotion now st emotion change
                     ("Response to: " ++ PyStr.take 30 text ++ "...")%string))
           (_analyze_emotional_content eng1 text context) (state eng1)
    /\ emotional_response out = _analyze_emotional_content eng1 text context
    /\ get_emotional_tone (state eng') = Some (tone out)
    /\ emotion_triggers eng' = emotion_triggers eng1
    /\ last_decay eng' = last_decay eng1.
Proof.
  unfold process_input. intros H.
  destruct (_auto_decay now eng) as [eng1|]; [|discriminate].
  cbn [mbind option_bind] in H. exists eng1. split; [reflexivity|].
  match type of H with
  | mbind _ ?x = _ => destruct x as [tn|] eqn:Et; [|discriminate]
  end.
  cbn [mbind option_bind] in H. inversion H; subst. cbn [state emotional_response tone].
  repeat split; try reflexivity. exact Et.
Qed.

Lemma auto_decay_in_range now eng eng1 :
  in_range (emotions (state eng)) -> _auto_decay now eng = Some eng1 ->
  in_range (emotions (state eng1)).
Proof.
  unfold _auto_decay. intros H Hd.
  destruct (five_minutes <? now - last_decay eng)%Z; [|inversion Hd; subst; exact H].
  destruct (decay_emotions _ (state eng)) as [st|] eqn:E; [|discriminate].
  cbn [mbind option_bind] in Hd. inversion Hd; subst. cbn [state].
  apply (decay_emotions_in_range _ _ _ H E).
Qed.

(** X11.  Every channel value stays in [0, 1]: [update_emotion] with any
    change, [decay_emotions] with any rate and [process_input] with any text
    map a state whose values are in [0, 1] to such a state. *)
Theorem emotions_stay_in_range :
  (forall now st emotion change reason,
     in_range (emotions st) ->
     in_range (emotions (snd (update_emotion now st emotion change reason))))
  /\ (forall rate st st',
        in_range (emotions st) -> decay_emotions rate st = Some st' ->
        in_range (emotions st'))
  /\ (forall now eng text context out eng',
        in_range (emotions (state eng)) ->
        process_input now eng text context = Some (out, eng') ->
        in_range (emotions (state eng'))).
Proof.
  split; [|split].
  - intros. apply update_emotion_in_range. assumption.
  - intros rate st st'. apply decay_emotions_in_range.
  - intros now eng text context out eng' H Hp.
    apply process_input_inv in Hp as (eng1 & Hd & -> & _).
    apply fold_updates_in_range. apply (auto_decay_in_range now eng eng1 H Hd).
Qed.

Lemma emotions_stay_in_range_witness :
  in_range (emotions (Examples.state_with "joy" 1))
  /\ in_range (emotions (snd (update_emotion 1 (Examples.state_with "joy" 1)
                                "joy" 5 "overflow"))).
Proof.
  assert (H : in_range (emotions (Examples.state_with "joy" 1)))
    by (repeat constructor; vm_compute; discriminate).
  split; [exact H|].
  exact (proj1 emotions_stay_in_range 1%Z (Examples.state_with "joy" 1)
           "joy" 5 "overflow" H).
Defined.

Lemma Forall_set {V} (P : string * V -> Prop) k v d :
  Forall P d -> P (k, v) -> Forall P (ODict.set k v d).
Proof.
  intros H Hkv. induction H as [|[k' v'] r Hk Hr IH]; simpl.
  - constructor; [exact Hkv | constructor].
  - destruct (String.eqb k k') eqn:E.
    + apply String.eqb_eq in E. subst k'. constructor; [exact Hkv | exact Hr].
    + constructor; [exact Hk | exact IH].
Qed.

Lemma get_default_nonneg k d :
  Forall good_change d -> 0 <= ODict.get_default k 0 d.
Proof.
  unfold ODict.get_default. intros H.
  induction H as [|[k' v'] r [Hv _] _ IH]; simpl; [lra|].
  destruct (String.eqb k k'); [exact Hv | exact IH].
Qed.

Lemma add_changes_good i deltas changes :
  0 <= i -> Forall good_change deltas -> Forall good_change changes ->
  Forall good_change (add_changes i deltas changes).
Proof.
  intros Hi Hd. unfold add_changes. revert changes.
  induction Hd as [|[e base] rest [Hb He] _ IH]; intros changes Hc; simpl; [exact Hc|].
  apply IH. apply Forall_set; [exact Hc|]. split; [|exact He].
  cbn [snd fst] in *. pose proof (get_default_nonneg e changes Hc).
  assert (0 <= base * i) by (apply Qmult_le_0_compat; assumption). lra.
Qed.

Lemma setup_triggers_good :
  Forall (fun t => Forall good_change (snd t)) _setup_triggers.
Proof.
  unfold _setup_triggers.
  repeat (constructor;
          [cbn [snd];
           repeat (constructor;
                   [split; [vm_compute; discriminate
                           | unfold baselines, ODict.keys; simpl; tauto]|]);
           constructor|]).
  constructor.
Qed.

Lemma get_In {V} k (d : list (string * V)) v :
  ODict.get k d = Some v -> exists k', In (k', v) d.
Proof.
  induction d as [|[k' v'] r IH]; simpl; [discriminate|].
  destruct (String.eqb k k').
  - intros H. inversion H; subst. exists k'. left; reflexivity.
  - intros H. destruct (IH H) as [k0 H0]. exists k0. right; exact H0.
Qed.

Lemma apply_trigger_good text changes entry :
  Forall good_change changes ->
  Forall good_change (apply_trigger _setup_triggers text changes entry).
Proof.
  intros Hc. destruct entry as [ttype words]. unfold apply_trigger.
  destruct (ODict.get ttype _setup_triggers) as [deltas|] eqn:G; [|exact Hc].
  destruct (0 <? count_matches words text)%nat; [|exact Hc].
  apply add_changes_good; [q_minmax; try lra | | exact Hc].
  - assert (0 <= inject_Z (Z.of_nat (count_matches words text)))
      by (rewrite <- (Zle_Qle 0); lia). lra.
  - apply get_In in G as [k' Hin].
    pose proof setup_triggers_good as Hall. rewrite List.Forall_forall in Hall.
    apply (Hall _ Hin).
Qed.

Lemma trigger_changes_good text :
  Forall good_change (trigger_changes _setup_triggers text).
Proof.
  unfold trigger_changes.
  assert (H : forall entries changes,
            Forall good_change changes ->
            Forall good_change
              (fold_left (apply_trigger _setup_triggers text) entries changes)).
  { induction entries as [|e rest IH]; intros changes Hc; simpl; [exact Hc|].
    apply IH, apply_trigger_good, Hc. }
  apply H. constructor.
Qed.

(** The changes before the final clamp. *)
Lemma adjusted_changes_good text combined :
  Forall good_change
    (richie_adjust (PyStr.lower text) (trigger_changes _setup_triggers combined)).
Proof.
  set (tc := trigger_changes _setup_triggers combined).
  assert (Htc : Forall good_change tc) by apply trigger_changes_good.
  unfold richie_adjust. destruct (PyStr.contains "richie" _); [|exact Htc].
  apply Forall_set; [exact Htc|]. split.
  - cbn [snd]. pose proof (get_default_nonneg "affection" tc Htc). lra.
  - unfold baselines, ODict.keys. simpl. tauto.
Qed.

Lemma analyze_changes_nonneg eng text context :
  emotion_triggers eng = _setup_triggers ->
  Forall (fun kc => 0 <= snd kc) (_analyze_emotional_content eng text context).
Proof.
  intros Htrig. unfold _analyze_emotional_content. rewrite Htrig.
  pose proof (adjusted_changes_good text
                (PyStr.lower (text ++ " " ++ context)%string)) as Hadj.
  unfold normalize.
  induction Hadj as [|[k c] rest [Hc _] _ IH]; simpl; constructor; [|exact IH].
  cbn [fst snd] in *. q_minmax; lra.
Qed.

(** X12.  Whatever the text and the context, every change computed by
    [_analyze_emotional_content] belongs to one of the ten channels and lies
    in [0, 0.5]: the trigger tables never lower an emotion, and no change is
    addressed to a name that [update_emotion] would reject. *)
Theorem analyze_changes_bounded eng text context :
  emotion_triggers eng = _setup_triggers ->
  Forall (fun kc => 0 <= snd kc <= 0.5 /\ In (fst kc) (ODict.keys baselines))
    (_analyze_emotional_content eng text context).
Proof.
  intros Htrig. unfold _analyze_emotional_content. rewrite Htrig.
  pose proof (adjusted_changes_good text
                (PyStr.lower (text ++ " " ++ context)%string)) as Hadj.
  unfold normalize.
  induction Hadj as [|[k c] rest [Hc Hk] _ IH]; simpl; constructor; [|exact IH].
  cbn [fst snd] in *. split; [q_minmax; lra | exact Hk].
Qed.

Lemma analyze_changes_bounded_witness :
  emotion_triggers (new_engine 0) = _setup_triggers
  /\ Forall (fun kc => 0 <= snd kc <= 0.5 /\ In (fst kc) (ODict.keys baselines))
       (_analyze_emotional_content (new_engine 0) "I feel sad and hurt" "").
Proof.
  assert (H : emotion_triggers (new_engine 0) = _setup_triggers) by reflexivity.
  split; [exact H|].
  exact (analyze_changes_bounded (new_engine 0) "I feel sad and hurt" "" H).
Defined.

Lemma fold_updates_never_lower now reason changes :
  Forall (fun kc => 0 <= snd kc) changes ->
  forall st k v,
    in_range (emotions st) ->
    0 <= stability st <= 1 ->
    ODict.get k (emotions st) = Some v ->
    exists v',
      ODict.get k (emotions
        (fold_left (fun st '(emotion, change) =>
                      snd (update_emotion now st emotion change reason)) changes st))
      = Some v' /\ v <= v'.
Proof.
  induction 1 as [|[e c] rest Hc _ IH]; intros st k v Hr Hs Hk.
  - exists v. split; [exact Hk | lra].
  - cbn [fold_left]. cbn [snd] in Hc.
    set (st1 := snd (update_emotion now st e c reason)).
    assert (Hr1 : in_range (emotions st1)) by (apply update_emotion_in_range, Hr).
    assert (Hs1 : stability st1 = stability st).
    { subst st1. unfold update_emotion. destruct (ODict.get e (emotions st)); reflexivity. }
    assert (Hk1 : exists v1, ODict.get k (emotions st1) = Some v1 /\ v <= v1).
    { subst st1. unfold update_emotion.
      destruct (ODict.get e (emotions st)) as [old|] eqn:Ee;
        [|exists v; split; [exact Hk | lra]].
      cbn [snd emotions]. rewrite EmotionFacts.get_set.
      destruct (String.eqb k e) eqn:E; [|exists v; split; [exact Hk | lra]].
      apply String.eqb_eq in E. subst e. rewrite Hk in Ee. inversion Ee; subst old.
      eexists. split; [reflexivity|].
      assert (Hv1 : v <= 1).
      { unfold in_range in Hr. rewrite List.Forall_forall in Hr.
        apply get_In in Hk as [k' Hin]. apply (Hr _ Hin). }
      assert (0 <= c * (1 - stability st * 0.5))
        by (apply Qmult_le_0_compat; lra).
      q_minmax; lra. }
    destruct Hk1 as [v1 [Hk1 Hle1]].
    destruct (IH st1 k v1 Hr1 ltac:(rewrite Hs1; exact Hs) Hk1) as [v' [Hv' Hle']].
    exists v'. split; [exact Hv' | lra].
Qed.

(** X13.  When no idle decay is due, [process_input] never lowers a channel:
    for a state with values in [0, 1] and stability in [0, 1], every channel
    is afterwards at least what it was, whatever the text.  Only the decay
    pass brings a value down. *)
Theorem process_input_never_lowers now eng text context out eng' k v :
  emotion_triggers eng = _setup_triggers ->
  (now - last_decay eng <= five_minutes)%Z ->
  in_range (emotions (state eng)) ->
  0 <= stability (state eng) <= 1 ->
  process_input now eng text context = Some (out, eng') ->
  ODict.get k (emotions (state eng)) = Some v ->
  exists v', ODict.get k (emotions (state eng')) = Some v' /\ v <= v'.
Proof.
  intros Htrig Hdue Hr Hs Hp Hk.
  apply process_input_inv in Hp as (eng1 & Hd & -> & _).
  rewrite (EmotionFacts.auto_decay_not_due now eng Hdue) in Hd.
  inversion Hd; subst eng1.
  apply fold_updates_never_lower; try assumption.
  apply (analyze_changes_nonneg eng text context Htrig).
Qed.

Lemma process_input_never_lowers_witness :
  (emotion_triggers (new_engine 0) = _setup_triggers
   /\ (0 - last_decay (new_engine 0) <= five_minutes)%Z
   /\ in_range (emotions (state (new_engine 0)))
   /\ 0 <= stability (state (new_engine 0)) <= 1
   /\ ODict.get "sadness" (emotions (state (new_engine 0))) = Some 0.2)
  /\ match process_input 0 (new_engine 0) "I feel sad" "" with
     | Some (_, eng') =>
         exists v', ODict.get "sadness" (emotions (state eng')) = Some v' /\ 0.2 <= v'
     | None => False
     end.
Proof.
  assert (H1 : emotion_triggers (new_engine 0) = _setup_triggers) by reflexivity.
  assert (H2 : (0 - last_decay (new_engine 0) <= five_minutes)%Z)
    by (vm_compute; discriminate).
  assert (H3 : in_range (emotions (state (new_engine 0))))
    by (repeat constructor; vm_compute; discriminate).
  assert (H4 : 0 <= stability (state (new_engine 0)) <= 1)
    by (split; vm_compute; discriminate).
  assert (H5 : ODict.get "sadness" (emotions (state (new_engine 0))) = Some 0.2)
    by reflexivity.
  split; [exact (conj H1 (conj H2 (conj H3 (conj H4 H5))))|].
  destruct (process_input 0 (new_engine 0) "I feel sad" "") as [[out eng']|] eqn:E.
  - exact (process_input_never_lowers 0%Z (new_engine 0) "I feel sad" "" out eng'
             "sadness" 0.2 H1 H2 H3 H4 E H5).
  - vm_compute in E. discriminate E.
Defined.

(** X14.  The idle decay is a fixed step: when more than five minutes have
    passed since the last decay, [_auto_decay] moves every channel 5% of the
    way to its baseline, however long the idle time was, and records the
    time; otherwise it changes nothing. *)
Theorem auto_decay_is_five_percent now eng :
  ((now - last_decay eng <= five_minutes)%Z -> _auto_decay now eng = Some eng)
  /\ ((five_minutes < now - last_decay eng)%Z ->
      channels_present (emotions (state eng)) ->
      in_range (emotions (state eng)) ->
      exists eng',
        _auto_decay now eng = Some eng'
        /\ last_decay eng' = now
        /\ forall c b v,
             ODict.get c baselines = Some b ->
             ODict.get c (emotions (state eng)) = Some v ->
             exists v', ODict.get c (emotions (state eng')) = Some v'
                        /\ v' == v + 0.05 * (b - v)).
Proof.
  split; [apply EmotionFacts.auto_decay_not_due|].
  intros Hdue Hpres Hr. unfold _auto_decay.
  assert (E : (five_minutes <? now - last_decay eng)%Z = true) by (apply Z.ltb_lt, Hdue).
  rewrite E.
  pose proof (EmotionFacts.idle_rate (now - last_decay eng) Hdue) as Hrate.
  set (rate := Qmin 0.05 (inject_Z (now - last_decay eng) / 1000000 / 3600)) in *.
  destruct (EmotionFacts.decay_loop_spec rate baselines EmotionFacts.baselines_NoDup
              (emotions (state eng)) Hpres) as [ems' [Hloop Hget]].
  unfold decay_emotions. rewrite Hloop. cbn [mbind option_bind].
  eexists. split; [reflexivity|]. cbn [last_decay state emotions].
  split; [reflexivity|].
  intros c b v Hb Hv. rewrite Hget, Hb, Hv. cbn [option_map].
  eexists. split; [reflexivity|].
  assert (Hv01 : 0 <= v <= 1).
  { unfold in_range in Hr. rewrite List.Forall_forall in Hr.
    apply get_In in Hv as [k' Hin]. apply (Hr _ Hin). }
  rewrite (EmotionFacts.decay_value_closed rate b v);
    [rewrite Hrate; reflexivity | rewrite Hrate; lra
    | apply (EmotionFacts.baselines_range c b Hb) | exact Hv01].
Qed.

Lemma auto_decay_is_five_percent_witness :
  ((five_minutes < Examples.six_minutes - last_decay (new_engine 0))%Z
   /\ channels_present (emotions (state (new_engine 0)))
   /\ in_range (emotions (state (new_engine 0))))
  /\ exists eng',
       _auto_decay Examples.six_minutes (new_engine 0) = Some eng'
       /\ last_decay eng' = Examples.six_minutes.
Proof.
  assert (H1 : (five_minutes < Examples.six_minutes - last_decay (new_engine 0))%Z)
    by (vm_compute; reflexivity).
  assert (H2 : channels_present (emotions (state (new_engine 0))))
    by exact EmotionFacts.baselines_present.
  assert (H3 : in_range (emotions (state (new_engine 0))))
    by (repeat constructor; vm_compute; discriminate).
  split; [exact (conj H1 (conj H2 H3))|].
  destruct (proj2 (auto_decay_is_five_percent Examples.six_minutes (new_engine 0))
              H1 H2 H3) as [eng' [Hd [Hl _]]].
  exists eng'. split; assumption.
Defined.

Lemma precedes_sorted {A} (pre l : list A) :
  StronglySorted (precedes (pre ++ l)) l.
Proof.
  revert pre. induction l as [|x xs IH]; intros pre; constructor.
  - replace (pre ++ x :: xs)%list with ((pre ++ [x]) ++ xs)%list
      by (rewrite <- app_assoc; reflexivity).
    apply IH.
  - apply List.Forall_forall. intros y Hy.
    apply in_split in Hy as [l2 [l3 ->]]. exists pre, l2, l3. reflexivity.
Qed.

Lemma value_geb_total a b : value_geb a b = true \/ value_geb b a = true.
Proof.
  unfold value_geb. rewrite !Qle_bool_iff.
  destruct (Qlt_le_dec (snd a) (snd b)); [right | left]; lra.
Qed.

Lemma value_geb_trans a b c :
  value_geb a b = true -> value_geb b c = true -> value_geb a c = true.
Proof. unfold value_geb. rewrite !Qle_bool_iff. lra. Qed.

(** X15.  [get_dominant_emotions(count)] is the first [count] channels of
    the state ranked by value in descending order, channels of equal value
    in the order of the dictionary; it never holds more than [count]
    channels (for [count >= 0]) and never a channel the state lacks. *)
Theorem dominant_emotions_ranked st count :
  exists ranked,
    get_dominant_emotions st count = slice_to count ranked
    /\ Permutation ranked (emotions st)
    /\ StronglySorted
         (fun a b => snd b < snd a
                     \/ (snd a == snd b /\ precedes (emotions st) a b)) ranked
    /\ ((0 <= count)%Z ->
        (length (get_dominant_emotions st count) <= Z.to_nat count)%nat).
Proof.
  exists (sort_desc value_geb (emotions st)).
  split; [reflexivity|]. split; [apply ListFacts.sort_desc_perm|]. split.
  - apply (ListFacts.StronglySorted_weaken
             (ListFacts.stable_desc value_geb (precedes (emotions st)))).
    + intros a b _ _ [Hge Hst]. unfold value_geb in *.
      apply Qle_bool_iff in Hge.
      destruct (Qlt_le_dec (snd b) (snd a)) as [Hlt|Hle]; [left; exact Hlt|].
      right. split; [lra|]. apply Hst, Qle_bool_iff, Hle.
    + apply ListFacts.sort_desc_stable;
        [apply value_geb_total | apply value_geb_trans|].
      apply (precedes_sorted [] (emotions st)).
  - intros Hc. unfold get_dominant_emotions, slice_to.
    destruct (0 <=? count)%Z eqn:E; [apply firstn_le_length | apply Z.leb_gt in E; lia].
Qed.

Lemma dominant_emotions_ranked_witness :
  (0 <= 3)%Z
  /\ (length (get_dominant_emotions (new_state 0) 3) <= Z.to_nat 3)%nat.
Proof.
  assert (H : (0 <= 3)%Z) by lia.
  split; [exact H|].
  destruct (dominant_emotions_ranked (new_state 0) 3) as [ranked (_ & _ & _ & Hl)].
  exact (Hl H).
Defined.

Lemma decay_loop_at_rest rate table ems :
  (forall c b, In (c, b) table -> exists v, ODict.get c ems = Some v /\ v == b) ->
  decay_loop rate table ems = Some ems.
Proof.
  induction table as [|[c b] rest IH]; intros H; [reflexivity|].
  change (decay_loop rate ((c, b) :: rest) ems)
    with (decay_one rate ems (c, b) ≫= fun e => decay_loop rate rest e).
  destruct (H c b (or_introl eq_refl)) as [v [Hv Hvb]].
  unfold decay_one. rewrite Hv. cbn [mbind option_bind].
  rewrite (Qeq_eq_bool _ _ Hvb). cbn [negb mbind option_bind].
  apply IH. intros c' b' Hin. apply H. right. exact Hin.
Qed.

(** X16.  The baselines are where decay rests: a channel that equals its
    baseline is left exactly as it is by [decay_emotions] at any rate,
    whatever the other channels hold, and a state whose channels all equal
    their baselines is unchanged. *)
Theorem decay_fixed_points st :
  ((forall c b, In (c, b) baselines ->
      exists v, ODict.get c (emotions st) = Some v /\ v == b) ->
   forall rate, decay_emotions rate st = Some st)
  /\ (forall rate c b v,
        channels_present (emotions st) ->
        ODict.get c baselines = Some b ->
        ODict.get c (emotions st) = Some v ->
        v == b ->
        exists st',
          decay_emotions rate st = Some st'
          /\ ODict.get c (emotions st') = Some v).
Proof.
  split.
  - intros H rate. unfold decay_emotions.
    rewrite (decay_loop_at_rest rate baselines (emotions st) H).
    cbn [mbind option_bind]. destruct st; reflexivity.
  - intros rate c b v Hpres Hb Hv Hvb.
    destruct (EmotionFacts.decay_emotions_step rate st c b v Hpres Hb Hv)
      as (st' & Hd & Hg & _).
    exists st'. split; [exact Hd|]. rewrite Hg.
    unfold decay_value. rewrite (Qeq_eq_bool _ _ Hvb). reflexivity.
Qed.

Lemma decay_fixed_points_witness :
  (channels_present (emotions (Examples.state_with "excitement" 1))
   /\ ODict.get "joy" baselines = Some 0.6
   /\ ODict.get "joy" (emotions (Examples.state_with "excitement" 1)) = Some 0.6
   /\ 0.6 == 0.6)
  /\ exists st',
       decay_emotions 4 (Examples.state_with "excitement" 1) = Some st'
       /\ ODict.get "joy" (emotions st') = Some 0.6.
Proof.
  assert (H1 : channels_present (emotions (Examples.state_with "excitement" 1)))
    by (apply EmotionFacts.channels_present_set, EmotionFacts.baselines_present).
  assert (H2 : ODict.get "joy" baselines = Some 0.6) by reflexivity.
  assert (H3 : ODict.get "joy" (emotions (Examples.state_with "excitement" 1))
               = Some 0.6) by reflexivity.
  assert (H4 : 0.6 == 0.6) by reflexivity.
  split; [exact (conj H1 (conj H2 (conj H3 H4)))|].
  exact (proj2 (decay_fixed_points (Examples.state_with "excitement" 1))
           4 "joy" 0.6 0.6 H1 H2 H3 H4).
Defined.



Lemma join_nonempty sep x r : x <> "" -> PyStr.join sep (x :: r) <> "".
Proof.
  intros Hx. cbn [PyStr.join]. destruct r; [exact Hx|].
  apply ManagerFacts.append_nonempty_l, Hx.
Qed.

(** X18.  [get_emotional_modifier] always has something to say: for a state
    that holds the ten channels it returns a text that is not empty
    ("Respond naturally" when no rule applies). *)
Theorem emotional_modifier_never_empty eng :
  channels_present (emotions (state eng)) ->
  exists s, get_emotional_modifier eng = Some s /\ s <> "".
Proof.
  intros Hpres. unfold get_emotional_modifier.
  destruct (EmotionFacts.tone_defined (state eng) Hpres) as [t ->].
  cbn [mbind option_bind].
  set (m0 := if String.eqb t "joyful" then _ else _).
  assert (H0 : Forall (fun s => s <> "") m0).
  { subst m0.
    repeat (match goal with
            | |- Forall _ (if ?c then _ else _) => destruct c
            end; [constructor; [discriminate | constructor]|]).
    constructor. }
  generalize dependent m0. generalize (get_dominant_emotions (state eng) 2).
  intros dominant. induction dominant as [|[e v] rest IH]; intros m0 H0.
  - cbn [fold_left]. destruct m0 as [|x r].
    + eexists. split; [reflexivity | discriminate].
    + eexists. split; [reflexivity|]. apply join_nonempty.
      apply (Forall_inv H0).
  - cbn [fold_left]. apply IH.
    destruct (Qltb 0.8 v); [|exact H0].
    repeat (match goal with
            | |- Forall _ (if ?c then _ else _) => destruct c
            end;
            [apply Forall_app; split;
               [exact H0 | constructor; [discriminate | constructor]]|]).
    exact H0.
Qed.

Lemma emotional_modifier_witness :
  channels_present (emotions (state (new_engine 0)))
  /\ exists s, get_emotional_modifier (new_engine 0) = Some s /\ s <> "".
Proof.
  assert (H : channels_present (emotions (state (new_engine 0))))
    by exact EmotionFacts.baselines_present.
  split; [exact H|].
  exact (emotional_modifier_never_empty (new_engine 0) H).
Defined.

End EmotionExtras.

(* ===================================================================== *)
(** ** Further properties of the providers and the manager *)
(* ===================================================================== *)

Module ProviderExtras.

Import Providers Manager Spec PyList.

Lemma skipn_all_but_last {A} (l : list A) (x : A) :
  skipn (length l) (l ++ [x]) = [x].
Proof. induction l as [|y ys IH]; simpl; [reflexivity | exact IH]. Qed.

Lemma add_to_history_frame p user_input ai_response :
  kind (add_to_history p user_input ai_response) = kind p
  /\ is_initialized (add_to_history p user_input ai_response) = is_initialized p
  /\ max_history (add_to_history p user_input ai_response) = max_history p
  /\ is_available (add_to_history p user_input ai_response) = is_available p.
Proof. repeat split. Qed.

(** X19.  [add_to_history] keeps the history bounded for a positive
    [max_history]: afterwards it holds min(old length + 1, max_history)
    exchanges, the new one last.  With [max_history = 0] the slice
    [[-0:]] keeps everything, so the history grows without bound.  Nothing
    else of the provider changes. *)
Theorem add_to_history_bound p user_input ai_response :
  ((0 < max_history p)%Z ->
   Z.of_nat (length (conversation_history (add_to_history p user_input ai_response)))
     = Z.min (Z.of_nat (length (conversation_history p)) + 1) (max_history p)
   /\ last (conversation_history (add_to_history p user_input ai_response))
      = Some (user_input, ai_response))
  /\ (max_history p = 0%Z ->
      conversation_history (add_to_history p user_input ai_response)
        = (conversation_history p ++ [(user_input, ai_response)])%list)
  /\ kind (add_to_history p user_input ai_response) = kind p
  /\ is_initialized (add_to_history p user_input ai_response) = is_initialized p
  /\ max_history (add_to_history p user_input ai_response) = max_history p
  /\ is_available (add_to_history p user_input ai_response) = is_available p.
Proof.
  unfold add_to_history. cbn [conversation_history kind is_initialized max_history].
  set (h := (conversation_history p ++ [(user_input, ai_response)])%list).
  assert (Hlen : length h = S (length (conversation_history p)))
    by (subst h; rewrite length_app; simpl; lia).
  split; [|split; [|repeat split]].
  - intros Hpos. destruct (max_history p <? Z.of_nat (length h))%Z eqn:E.
    + apply Z.ltb_lt in E. unfold slice_from.
      assert (E0 : (0 <=? - max_history p)%Z = false) by (apply Z.leb_gt; lia).
      rewrite E0, Z.opp_involutive. split.
      * rewrite length_skipn. lia.
      * subst h. apply ListFacts.last_skipn_snoc. lia.
    + apply Z.ltb_ge in E. split; [lia|]. subst h. apply last_snoc.
  - intros H0. rewrite H0.
    assert (E : (0 <? Z.of_nat (length h))%Z = true) by (apply Z.ltb_lt; lia).
    rewrite E. reflexivity.
Qed.

Lemma add_to_history_bound_witness :
  (0 < max_history (new_provider Local empty_config))%Z
  /\ Z.of_nat (length (conversation_history
                         (add_to_history (new_provider Local empty_config) "hi" "hello")))
     = Z.min (Z.of_nat (length (conversation_history (new_provider Local empty_config)))
              + 1)
         (max_history (new_provider Local empty_config)).
Proof.
  assert (H : (0 < max_history (new_provider Local empty_config))%Z) by reflexivity.
  split; [exact H|].
  exact (proj1 (proj1 (add_to_history_bound (new_provider Local empty_config)
                         "hi" "hello") H)).
Defined.

(** X20.  What one exchange looks like in the prompt context: after
    [add_to_history(u, a)] on a provider whose [max_history] is not
    negative, [get_conversation_context(1)] is the two lines
    "Human: u" and "Assistant: a". *)
Theorem context_shows_last_exchange p user_input ai_response :
  (0 <= max_history p)%Z ->
  get_conversation_context (add_to_history p user_input ai_response) 1
  = (("Human: " ++ user_input) ++ PyStr.newline ++ ("Assistant: " ++ ai_response))%string.
Proof.
  intros Hm.
  assert (Hh : exists pre,
            conversation_history (add_to_history p user_input ai_response)
            = (pre ++ [(user_input, ai_response)])%list).
  { unfold add_to_history. cbn [conversation_history].
    set (h := (conversation_history p ++ [(user_input, ai_response)])%list).
    destruct (max_history p <? Z.of_nat (length h))%Z eqn:E;
      [|exists (conversation_history p); reflexivity].
    apply Z.ltb_lt in E. unfold slice_from.
    destruct (0 <=? - max_history p)%Z eqn:E0.
    - apply Z.leb_le in E0. assert (max_history p = 0%Z) as -> by lia.
      exists (conversation_history p). reflexivity.
    - rewrite Z.opp_involutive.
      assert (Hlen : length h = S (length (conversation_history p)))
        by (subst h; rewrite length_app; simpl; lia).
      exists (skipn (length h - Z.to_nat (max_history p)) (conversation_history p)).
      subst h. rewrite skipn_app.
      replace (length (conversation_history p ++ [(user_input, ai_response)])
               - Z.to_nat (max_history p) - length (conversation_history p))%nat
        with 0%nat by lia.
      reflexivity. }
  destruct Hh as [pre Hpre]. unfold get_conversation_context. rewrite Hpre.
  destruct (pre ++ [(user_input, ai_response)])%list as [|x xs] eqn:Ex.
  { destruct pre; discriminate. }
  rewrite <- Ex. unfold slice_from.
  assert (E1 : (0 <=? - (1))%Z = false) by reflexivity. rewrite E1.
  replace (length (pre ++ [(user_input, ai_response)]) - Z.to_nat (- - (1)))%nat
    with (length pre) by (rewrite length_app; simpl; lia).
  rewrite skipn_all_but_last. reflexivity.
Qed.

Lemma context_shows_last_exchange_witness :
  (0 <= max_history (new_provider Local empty_config))%Z
  /\ get_conversation_context
       (add_to_history (new_provider Local empty_config) "hi" "hello") 1
     = (("Human: " ++ "hi") ++ PyStr.newline ++ ("Assistant: " ++ "hello"))%string.
Proof.
  assert (H : (0 <= max_history (new_provider Local empty_config))%Z)
    by (vm_compute; discriminate).
  split; [exact H|].
  exact (context_shows_last_exchange (new_provider Local empty_config) "hi" "hello" H).
Defined.

(** X21.  What [create_provider] builds: a provider that is not initialised
    and has no history; it is a [LocalProvider] exactly when the lower-cased
    type is none of "openai", "ollama", "huggingface" (so any unknown type
    falls back to local); only a local one is available before
    [initialize], and every other one raises in [generate_response]. *)
Theorem create_provider_fresh provider_type cfg :
  is_initialized (create_provider provider_type cfg) = false
  /\ conversation_history (create_provider provider_type cfg) = []
  /\ (kind (create_provider provider_type cfg) = Local <->
      PyStr.lower provider_type <> "openai"
      /\ PyStr.lower provider_type <> "ollama"
      /\ PyStr.lower provider_type <> "huggingface")
  /\ (is_available (create_provider provider_type cfg) = true <->
      kind (create_provider provider_type cfg) = Local)
  /\ (kind (create_provider provider_type cfg) <> Local ->
      forall w r1 r2 prompt context,
        Providers.generate_response w r1 r2 (create_provider provider_type cfg)
          prompt context = None).
Proof.
  unfold create_provider.
  destruct (String.eqb (PyStr.lower provider_type) "openai") eqn:E1;
    [|destruct (String.eqb (PyStr.lower provider_type) "ollama") eqn:E2;
      [|destruct (String.eqb (PyStr.lower provider_type) "huggingface") eqn:E3]];
    rewrite ?String.eqb_eq, ?String.eqb_neq in *;
    (split; [reflexivity|]); (split; [reflexivity|]);
    unfold is_available, Providers.generate_response;
    cbn [kind new_provider is_initialized andb];
    repeat split; try discriminate; try congruence; try tauto;
    try (intros [? [? ?]]; congruence).
Qed.

Lemma create_provider_fresh_witness :
  kind (create_provider "GPT-5" empty_config) = Local.
Proof.
  apply (proj2 (proj1 (proj2 (proj2 (create_provider_fresh "GPT-5" empty_config))))).
  repeat split; vm_compute; discriminate.
Defined.

Lemma initialize_true w p :
  fst (Providers.initialize w p) = true ->
  is_initialized (snd (Providers.initialize w p)) = true
  /\ is_available (snd (Providers.initialize w p)) = true.
Proof.
  unfold Providers.initialize, is_available.
  destruct (kind p) eqn:K.
  - destruct (PyStr.truthy (api_key p)) eqn:T; cbn [negb]; [|discriminate].
    destruct (openai_test_call w (pconfig p)); [|discriminate].
    intros _. cbn [snd set_initialized kind is_initialized api_key].
    rewrite K, T. split; reflexivity.
  - destruct (ollama_probe w (pconfig p));
      cbn [fst snd set_initialized kind is_initialized]; rewrite ?K;
      try discriminate; try (intros _; split; reflexivity).
    intros H. split; exact H.
  - destruct (huggingface_load w (pconfig p)); [|discriminate].
    intros _. cbn [snd set_initialized kind is_initialized]. rewrite K.
    split; reflexivity.
  - intros _. cbn [snd set_initialized kind is_initialized]. rewrite K.
    split; reflexivity.
Qed.

Lemma initialize_kind w p : kind (snd (Providers.initialize w p)) = kind p.
Proof.
  unfold Providers.initialize.
  destruct (kind p) eqn:K;
    [destruct (negb (PyStr.truthy (api_key p)));
       [|destruct (openai_test_call w (pconfig p))]
    |destruct (ollama_probe w (pconfig p))
    |destruct (huggingface_load w (pconfig p))
    |]; cbn [snd set_initialized kind]; congruence.
Qed.

(** X22.  The contract of [initialize] for the four classes: when it returns
    [True] the provider is initialised and available; when it returns
    [False] the provider is exactly as before; the class and the history
    never change; a [LocalProvider] always succeeds and an [OpenAIProvider]
    without a key always fails. *)
Theorem initialize_outcome w p :
  (fst (Providers.initialize w p) = true ->
   is_initialized (snd (Providers.initialize w p)) = true
   /\ is_available (snd (Providers.initialize w p)) = true)
  /\ (fst (Providers.initialize w p) = false -> snd (Providers.initialize w p) = p)
  /\ kind (snd (Providers.initialize w p)) = kind p
  /\ conversation_history (snd (Providers.initialize w p)) = conversation_history p
  /\ (kind p = Local -> fst (Providers.initialize w p) = true)
  /\ (kind p = OpenAI -> api_key p = "" -> fst (Providers.initialize w p) = false).
Proof.
  split; [apply initialize_true|].
  unfold Providers.initialize.
  destruct (kind p) eqn:K.
  - destruct (PyStr.truthy (api_key p)) eqn:T; cbn [negb];
      [destruct (openai_test_call w (pconfig p))|];
      cbn [fst snd set_initialized kind conversation_history];
      repeat split; try discriminate; try congruence.
    intros _ He. rewrite He in T. discriminate.
  - destruct (ollama_probe w (pconfig p));
      cbn [fst snd set_initialized kind conversation_history];
      repeat split; try discriminate; congruence.
  - destruct (huggingface_load w (pconfig p));
      cbn [fst snd set_initialized kind conversation_history];
      repeat split; try discriminate; congruence.
  - cbn [fst snd set_initialized kind conversation_history].
    repeat split; try discriminate; congruence.
Qed.

Lemma initialize_outcome_witness :
  fst (Providers.initialize Examples.online_world (new_provider Ollama empty_config))
  = true
  /\ is_available
       (snd (Providers.initialize Examples.online_world
               (new_provider Ollama empty_config))) = true.
Proof.
  assert (H : fst (Providers.initialize Examples.online_world
                     (new_provider Ollama empty_config)) = true) by reflexivity.
  split; [exact H|].
  exact (proj2 (proj1 (initialize_outcome Examples.online_world
                         (new_provider Ollama empty_config)) H)).
Defined.

(** *** The manager *)

Lemma append_provider_refs m p :
  refs_available m -> is_available p = true ->
  refs_available (snd (append_provider m p))
  /\ heap (snd (append_provider m p)) !! fst (append_provider m p) = Some p
  /\ (forall r q, heap m !! r = Some q ->
        heap (snd (append_provider m p)) !! r = Some q).
Proof.
  intros [Hps Hact] Hav. unfold append_provider.
  cbn [fst snd heap providers active_provider].
  assert (Hold : forall r q, heap m !! r = Some q ->
                   (heap m ++ [p])%list !! r = Some q).
  { intros r q Hq. apply lookup_app_l_Some. exact Hq. }
  assert (Hnew : (heap m ++ [p])%list !! length (heap m) = Some p).
  { apply list_lookup_middle. reflexivity. }
  split; [split|split; [exact Hnew | exact Hold]].
  - intros r Hin. apply in_app_or in Hin as [Hin|[<-|[]]].
    + destruct (Hps r Hin) as [q [Hq Hqa]]. exists q. split; [apply Hold, Hq | exact Hqa].
    + exists p. split; [exact Hnew | exact Hav].
  - intros a Ha. destruct (Hact a Ha) as [q [Hq Hqa]].
    exists q. split; [apply Hold, Hq | exact Hqa].
Qed.

Lemma set_active_refs m r p :
  refs_available m -> heap m !! r = Some p -> is_available p = true ->
  refs_available (set_active m (Some r)).
Proof.
  intros [Hps Hact] Hp Hav. split; cbn [set_active providers heap active_provider].
  - exact Hps.
  - intros a Ha. inversion Ha; subst a. exists p. split; assumption.
Qed.

Lemma init_preferred_inv w names : forall m,
  refs_available m ->
  active_provider m = head (providers m) ->
  refs_available (init_preferred w names m)
  /\ active_provider (init_preferred w names m)
     = head (providers (init_preferred w names m))
  /\ fallback_provider (init_preferred w names m) = fallback_provider m
  /\ config (init_preferred w names m) = config m
  /\ mgr_initialized (init_preferred w names m) = mgr_initialized m
  /\ (forall r q, heap m !! r = Some q ->
        heap (init_preferred w names m) !! r = Some q).
Proof.
  induction names as [|name rest IH]; intros m Hrefs Hhead; cbn [init_preferred].
  { repeat split; try assumption; try apply Hrefs. auto. }
  destruct (String.eqb name "local"); [apply IH; assumption|].
  destruct (Providers.initialize w (create_provider name (config_for m name)))
    as [ok provider] eqn:Hinit.
  destruct ok; [|apply IH; assumption].
  assert (Hav : is_available provider = true).
  { pose proof (initialize_true w (create_provider name (config_for m name))) as Ht.
    rewrite Hinit in Ht. apply Ht. reflexivity. }
  destruct (append_provider_refs m provider Hrefs Hav) as (Hrefs1 & Hnew & Hold).
  unfold append_provider in *. cbn [fst snd] in *.
  set (m1 := {| config := config m; heap := (heap m ++ [provider])%list;
                providers := (providers m ++ [length (heap m)])%list;
                active_provider := active_provider m;
                fallback_provider := fallback_provider m;
                mgr_initialized := mgr_initialized m |}) in *.
  set (m2 := match active_provider m1 with
             | Some _ => m1
             | None => set_active m1 (Some (length (heap m)))
             end).
  assert (H2 : refs_available m2
               /\ active_provider m2 = head (providers m2)
               /\ fallback_provider m2 = fallback_provider m
               /\ config m2 = config m
               /\ mgr_initialized m2 = mgr_initialized m
               /\ heap m2 = heap m1).
  { subst m2. destruct (active_provider m1) as [a|] eqn:Ha.
    - repeat split; try apply Hrefs1. subst m1. cbn [active_provider providers] in *.
      rewrite Ha. rewrite Hhead in Ha.
      destruct (providers m) as [|r0 rs]; [discriminate | symmetry; exact Ha].
    - split; [apply (set_active_refs m1 _ provider Hrefs1 Hnew Hav)|].
      repeat split. subst m1. cbn [set_active active_provider providers] in *.
      rewrite Hhead in Ha. destruct (providers m) as [|r0 rs]; [reflexivity | discriminate]. }
  destruct H2 as (R2 & A2 & F2 & C2 & I2 & Hp2).
  destruct (IH m2 R2 A2) as (R & A & F & C & I & Hp).
  repeat split; try apply R; try congruence.
  intros r q Hq. apply Hp. rewrite Hp2. apply Hold, Hq.
Qed.

(** [AIManager.initialize] on a new manager, up to its last step: the
    manager [m1] left by the loop over the preferred providers. *)
Lemma initialize_manager_loop w cfg :
  exists fallback m1,
    kind fallback = Local
    /\ refs_available m1
    /\ active_provider m1 = head (providers m1)
    /\ fallback_provider m1 = Some 0%nat
    /\ config m1 = cfg
    /\ heap m1 !! 0%nat = Some fallback
    /\ initialize_manager w (new_manager cfg)
       = let m := match active_provider m1 with
                  | None => set_active m1 (fallback_provider m1)
                  | Some _ => m1
                  end in
         {| config := config m; heap := heap m; providers := providers m;
            active_provider := active_provider m;
            fallback_provider := fallback_provider m;
            mgr_initialized := true |}.
Proof.
  unfold initialize_manager.
  destruct (Providers.initialize w
              (create_provider "local" (config_for (new_manager cfg) "local")))
    as [ok fallback] eqn:Hinit.
  assert (Hk : kind fallback = Local).
  { pose proof (initialize_kind w
                  (create_provider "local" (config_for (new_manager cfg) "local")))
      as K.
    rewrite Hinit in K. exact K. }
  cbn [new_manager heap config providers active_provider mgr_initialized length app].
  set (m0 := {| config := cfg; heap := [fallback]; providers := [];
                active_provider := None; fallback_provider := Some 0%nat;
                mgr_initialized := false |}).
  assert (R0 : refs_available m0) by (split; [intros r [] | intros a Ha; discriminate]).
  destruct (init_preferred_inv w (preferred_providers cfg) m0 R0 eq_refl)
    as (R & A & F & C & I & Hp).
  exists fallback, (init_preferred w (preferred_providers cfg) m0).
  repeat split; try assumption; try apply R.
  apply Hp. reflexivity.
Qed.

Lemma initialize_manager_inv w cfg :
  mgr_ready (initialize_manager w (new_manager cfg))
  /\ refs_available (initialize_manager w (new_manager cfg)).
Proof.
  destruct (initialize_manager_loop w cfg)
    as (fallback & m1 & Hk & R & A & F & C & Hf & ->).
  destruct (active_provider m1) as [a|] eqn:Ha;
    cbn [set_active mgr_ready refs_available mgr_initialized fallback_provider heap
         providers active_provider config];
    (split; [split; [reflexivity | exists 0%nat, fallback; rewrite F; auto]|]);
    (split; [apply R|]); unfold active_provider at 1.
  - intros a' Ha'. apply R. exact Ha'.
  - intros a' Ha'. rewrite F in Ha'. inversion Ha'; subst a'.
    exists fallback. split; [exact Hf|]. unfold is_available. rewrite Hk. reflexivity.
Qed.

(** X23.  [AIManager.initialize] on a new manager, whatever the services
    answer: afterwards the manager is initialised, its fallback is a local
    provider, every listed provider and the active one are available, and
    the active provider is the first preferred provider that initialised,
    or the fallback when none did. *)
Theorem initialize_manager_ready w cfg :
  mgr_ready (initialize_manager w (new_manager cfg))
  /\ refs_available (initialize_manager w (new_manager cfg))
  /\ active_provider (initialize_manager w (new_manager cfg))
     = match providers (initialize_manager w (new_manager cfg)) with
       | [] => fallback_provider (initialize_manager w (new_manager cfg))
       | r :: _ => Some r
       end
  /\ config (initialize_manager w (new_manager cfg)) = cfg.
Proof.
  split; [apply initialize_manager_inv|].
  split; [apply initialize_manager_inv|].
  destruct (initialize_manager_loop w cfg)
    as (fallback & m1 & _ & _ & A & _ & C & _ & ->).
  destruct (active_provider m1) as [a|] eqn:Ha;
    cbn [set_active fallback_provider providers active_provider config];
    (split; [|exact C]).
  - rewrite Ha. destruct (providers m1); [discriminate | exact A].
  - destruct (providers m1); [reflexivity | discriminate].
Qed.

Lemma set_active_same m : set_active m (active_provider m) = m.
Proof. destruct m; reflexivity. Qed.

(** The three ways in which an initialised manager answers. *)
Lemma generate_ready_cases w r1 r2 m prompt context :
  mgr_ready m ->
  exists s r p a,
    Manager.generate_response w r1 r2 m prompt context
      = (Some s, record_exchange (set_active m a) r prompt s)
    /\ heap m !! r = Some p
    /\ Providers.generate_response w r1 r2 p prompt (default ∅ context) = Some s
    /\ ((a = active_provider m /\ (a = Some r \/ fallback_provider m = Some r))
        \/ (a = Some r /\ In r (providers m) /\ is_available p = true)).
Proof.
  intros [Hinit (f & pf & Hf & Hpf & Hkf)].
  unfold Manager.generate_response. rewrite Hinit.
  set (ctx := default ∅ context).
  destruct (try_active w r1 r2 prompt ctx m) as [[s m']|] eqn:Hact.
  { apply ManagerFacts.try_active_inv in Hact as (a & p & Ha & Hp & _ & Hg & ->).
    exists s, a, p, (active_provider m). rewrite set_active_same.
    repeat split; try assumption. left. split; [reflexivity | left; exact Ha]. }
  destruct (try_providers w r1 r2 prompt ctx m (providers m)) as [[s m']|] eqn:Hothers.
  { apply ManagerFacts.try_providers_inv in Hothers as (r & p & Hin & Hp & Hav & Hg & ->).
    exists s, r, p, (Some r). repeat split; try assumption.
    right. repeat split; assumption. }
  destruct (ManagerFacts.local_generate_nonempty w r1 r2 pf prompt ctx Hkf)
    as [s [Hs _]].
  unfold final_fallback. rewrite Hf. cbn [mbind option_bind].
  rewrite Hpf. cbn [mbind option_bind]. rewrite Hs. cbn [mbind option_bind].
  exists s, f, pf, (active_provider m). rewrite set_active_same.
  repeat split; try assumption. left. split; [reflexivity | right; reflexivity].
Qed.

Lemma alter_lookup_history (h : list Provider) i j q prompt s :
  h !! j = Some q ->
  exists q', alter (fun p => add_to_history p prompt s) i h !! j = Some q'
             /\ kind q' = kind q /\ is_available q' = is_available q.
Proof.
  intros Hq. destruct (Nat.eq_dec i j) as [->|Hne].
  - rewrite list_lookup_alter_eq, Hq. cbn [fmap option_fmap option_map].
    eexists. split; [reflexivity|].
    pose proof (add_to_history_frame q prompt s) as (K & _ & _ & Av).
    split; assumption.
  - rewrite list_lookup_alter_ne by exact Hne. exists q. auto.
Qed.

Lemma record_exchange_inv m a r prompt s :
  mgr_ready m -> refs_available m ->
  (a = active_provider m
   \/ exists p, a = Some r /\ heap m !! r = Some p /\ is_available p = true) ->
  mgr_ready (record_exchange (set_active m a) r prompt s)
  /\ refs_available (record_exchange (set_active m a) r prompt s).
Proof.
  intros [Hinit (f & pf & Hf & Hpf & Hkf)] [Hps Hact] Ha.
  unfold record_exchange, set_heap, set_active, mgr_ready, refs_available.
  cbn [mgr_initialized fallback_provider heap providers active_provider].
  split; [split; [exact Hinit|]|split].
  - destruct (alter_lookup_history (heap m) r f pf prompt s Hpf) as (q' & Hq' & K & _).
    exists f, q'. repeat split; [exact Hf | exact Hq' | congruence].
  - intros r0 Hin. destruct (Hps r0 Hin) as (q & Hq & Hqa).
    destruct (alter_lookup_history (heap m) r r0 q prompt s Hq) as (q' & Hq' & _ & Av).
    exists q'. split; [exact Hq' | congruence].
  - intros a0 Ha0.
    assert (Hq : exists q, heap m !! a0 = Some q /\ is_available q = true).
    { destruct Ha as [->|(p & -> & Hp & Hav)]; [apply Hact, Ha0|].
      inversion Ha0; subst a0. exists p. split; assumption. }
    destruct Hq as (q & Hq & Hqa).
    destruct (alter_lookup_history (heap m) r a0 q prompt s Hq) as (q' & Hq' & _ & Av).
    exists q'. split; [exact Hq' | congruence].
Qed.

Lemma generate_ready_inv w r1 r2 m prompt context :
  mgr_ready m -> refs_available m ->
  mgr_ready (snd (Manager.generate_response w r1 r2 m prompt context))
  /\ refs_available (snd (Manager.generate_response w r1 r2 m prompt context)).
Proof.
  intros Hr Hrefs.
  destruct (generate_ready_cases w r1 r2 m prompt context Hr)
    as (s & r & p & a & -> & Hp & _ & Hcase).
  cbn [snd]. apply record_exchange_inv; try assumption.
  destruct Hcase as [[-> _]|(-> & _ & Hav)]; [left; reflexivity|].
  right. exists p. repeat split; assumption.
Qed.

(** X24.  How an initialised manager answers: [generate_response] never
    raises; the text comes from one provider of the manager, and the
    exchange is appended to the history of that provider alone.  That
    provider is the active one afterwards, or it is the local fallback and
    the active provider is unchanged.  The list of providers, the fallback
    and the configuration are untouched. *)
Theorem generate_response_records_once w r1 r2 m prompt context :
  mgr_ready m ->
  exists s r p,
    fst (Manager.generate_response w r1 r2 m prompt context) = Some s
    /\ heap m !! r = Some p
    /\ Providers.generate_response w r1 r2 p prompt (default ∅ context) = Some s
    /\ heap (snd (Manager.generate_response w r1 r2 m prompt context))
       = alter (fun q => add_to_history q prompt s) r (heap m)
    /\ (active_provider (snd (Manager.generate_response w r1 r2 m prompt context))
        = Some r
        \/ (active_provider (snd (Manager.generate_response w r1 r2 m prompt context))
            = active_provider m
            /\ fallback_provider m = Some r))
    /\ providers (snd (Manager.generate_response w r1 r2 m prompt context))
       = providers m
    /\ fallback_provider (snd (Manager.generate_response w r1 r2 m prompt context))
       = fallback_provider m
    /\ config (snd (Manager.generate_response w r1 r2 m prompt context)) = config m.
Proof.
  intros Hr.
  destruct (generate_ready_cases w r1 r2 m prompt context Hr)
    as (s & r & p & a & -> & Hp & Hg & Hcase).
  exists s, r, p.
  cbn [fst snd record_exchange set_heap set_active heap active_provider providers
       fallback_provider config].
  repeat split; try assumption; try reflexivity.
  destruct Hcase as [[-> [Ha|Hf]]|(-> & _)].
  - left. exact Ha.
  - right. split; [reflexivity | exact Hf].
  - left. reflexivity.
Qed.

Lemma generate_response_records_once_witness :
  mgr_ready Examples.flaky_manager
  /\ exists s r p,
       fst (Manager.generate_response Examples.flaky_world 0 0 Examples.flaky_manager
              "hello" None) = Some s
       /\ heap Examples.flaky_manager !! r = Some p
       /\ Providers.generate_response Examples.flaky_world 0 0 p "hello"
            (default ∅ None) = Some s.
Proof.
  assert (H : mgr_ready Examples.flaky_manager).
  { split; [reflexivity|]. eexists. eexists.
    split; [reflexivity|]. split; reflexivity. }
  split; [exact H|].
  destruct (generate_response_records_once Examples.flaky_world 0 0
              Examples.flaky_manager "hello" None H)
    as (s & r & p & H1 & H2 & H3 & _).
  exists s, r, p. exact (conj H1 (conj H2 H3)).
Defined.

(** X25.  A manager that was never initialised initialises itself on the
    first [generate_response]: whatever the configuration and whatever the
    services answer, the call returns a text and leaves an initialised
    manager whose listed and active providers are available. *)
Theorem generate_response_initialises w r1 r2 cfg prompt context :
  exists s m',
    Manager.generate_response w r1 r2 (new_manager cfg) prompt context = (Some s, m')
    /\ mgr_ready m' /\ refs_available m'.
Proof.
  destruct (initialize_manager_inv w cfg) as (Hr & Hrefs).
  set (m1 := initialize_manager w (new_manager cfg)) in *.
  assert (E : Manager.generate_response w r1 r2 (new_manager cfg) prompt context
              = Manager.generate_response w r1 r2 m1 prompt context).
  { unfold Manager.generate_response at 1 2.
    destruct Hr as [Hinit _]. rewrite Hinit. reflexivity. }
  rewrite E.
  destruct (generate_ready_cases w r1 r2 m1 prompt context Hr)
    as (s & r & p & a & Hgen & _).
  pose proof (generate_ready_inv w r1 r2 m1 prompt context Hr Hrefs) as Hinv.
  rewrite Hgen in *. cbn [snd] in Hinv.
  eexists. eexists. split; [reflexivity | exact Hinv].
Qed.

(** X26.  [switch_provider] and the providers that already exist.  On an
    initialised manager the name "local", in any letter case, always
    switches to the fallback and creates nothing.  Any other name is
    matched as a prefix of the lower-cased class name, in list order: when
    the first listed provider matches and is available it becomes active,
    so the empty name selects the first listed provider. *)
Theorem switch_provider_existing w m name :
  (mgr_ready m -> PyStr.lower name = "local" ->
   switch_provider w m name = (true, set_active m (fallback_provider m)))
  /\ (forall r rest p,
        PyStr.lower name <> "local" ->
        providers m = r :: rest ->
        heap m !! r = Some p ->
        is_available p = true ->
        PyStr.startswith (PyStr.lower name) (PyStr.lower (class_name (kind p))) = true ->
        switch_provider w m name = (true, set_active m (Some r))).
Proof.
  split.
  - intros [_ (f & pf & Hf & Hpf & Hkf)] Hn.
    unfold switch_provider, _find_or_create_provider, _find_existing_provider.
    rewrite Hn. cbn [String.eqb Ascii.eqb Bool.eqb andb]. rewrite Hf.
    unfold _activate_provider. rewrite Hpf.
    unfold is_available. rewrite Hkf. reflexivity.
  - intros r rest p Hn Hps Hp Hav Hpre.
    unfold switch_provider, _find_or_create_provider, _find_existing_provider.
    apply String.eqb_neq in Hn. rewrite Hn, Hps.
    cbn [List.find]. rewrite Hp, Hpre.
    unfold _activate_provider. rewrite Hp, Hav. reflexivity.
Qed.

Lemma switch_provider_existing_witness :
  (mgr_ready Examples.ollama_manager /\ PyStr.lower "LOCAL" = "local")
  /\ switch_provider Examples.online_world Examples.ollama_manager "LOCAL"
     = (true, set_active Examples.ollama_manager
                (fallback_provider Examples.ollama_manager)).
Proof.
  assert (H1 : mgr_ready Examples.ollama_manager).
  { split; [reflexivity|]. eexists. eexists.
    split; [reflexivity|]. split; reflexivity. }
  assert (H2 : PyStr.lower "LOCAL" = "local") by reflexivity.
  split; [exact (conj H1 H2)|].
  exact (proj1 (switch_provider_existing Examples.online_world
                  Examples.ollama_manager "LOCAL") H1 H2).
Defined.

Lemma append_provider_ready m p :
  mgr_ready m -> mgr_ready (snd (append_provider m p)).
Proof.
  intros [Hinit (f & pf & Hf & Hpf & Hkf)]. split; [exact Hinit|].
  exists f, pf. repeat split; try assumption.
  unfold append_provider. cbn [snd heap]. apply lookup_app_l_Some. exact Hpf.
Qed.

Lemma switch_provider_inv w m name :
  mgr_ready m -> refs_available m ->
  mgr_ready (snd (switch_provider w m name))
  /\ refs_available (snd (switch_provider w m name)).
Proof.
  intros Hr Hrefs.
  assert (Hact : forall m1 r, mgr_ready m1 -> refs_available m1 ->
            mgr_ready (snd (_activate_provider m1 r))
            /\ refs_available (snd (_activate_provider m1 r))).
  { intros m1 r Hr1 Hrefs1. unfold _activate_provider.
    destruct (heap m1 !! r) as [p|] eqn:Hp; [|split; assumption].
    destruct (is_available p) eqn:Hav; [|split; assumption].
    cbn [snd]. split; [exact Hr1|].
    apply (set_active_refs m1 r p Hrefs1 Hp Hav). }
  unfold switch_provider, _find_or_create_provider.
  destruct (_find_existing_provider m name) as [r|]; [apply Hact; assumption|].
  unfold _create_new_provider.
  destruct (provider_configs (config m) !! PyStr.lower name) as [cfg|];
    [|split; assumption].
  destruct (Providers.initialize w (create_provider (PyStr.lower name) cfg))
    as [ok target] eqn:Hinit.
  destruct ok; [|split; assumption].
  assert (Hav : is_available target = true).
  { pose proof (initialize_true w (create_provider (PyStr.lower name) cfg)) as Ht.
    rewrite Hinit in Ht. apply Ht. reflexivity. }
  destruct (append_provider_refs m target Hrefs Hav) as (Hrefs1 & _).
  pose proof (append_provider_ready m target Hr) as Hr1.
  destruct (append_provider m target) as [r m1]. cbn [snd] in *.
  apply Hact; assumption.
Qed.

(** X27.  The invariant of the manager: once it is initialised with a local
    fallback and with every listed provider and the active provider
    available, [generate_response] and [switch_provider] keep it so,
    whatever the services answer and whatever name is asked for. *)
Theorem manager_invariant_preserved w m :
  mgr_ready m -> refs_available m ->
  (forall r1 r2 prompt context,
     mgr_ready (snd (Manager.generate_response w r1 r2 m prompt context))
     /\ refs_available (snd (Manager.generate_response w r1 r2 m prompt context)))
  /\ (forall name,
        mgr_ready (snd (switch_provider w m name))
        /\ refs_available (snd (switch_provider w m name))).
Proof.
  intros Hr Hrefs. split.
  - intros r1 r2 prompt context. apply generate_ready_inv; assumption.
  - intros name. apply switch_provider_inv; assumption.
Qed.

Lemma manager_invariant_preserved_witness :
  (mgr_ready Examples.ollama_manager /\ refs_available Examples.ollama_manager)
  /\ mgr_ready (snd (switch_provider Examples.offline_world Examples.ollama_manager
                       "huggingface")).
Proof.
  destruct (initialize_manager_inv Examples.online_world Examples.ollama_config)
    as (H1 & H2).
  split; [exact (conj H1 H2)|].
  exact (proj1 (proj2 (manager_invariant_preserved Examples.offline_world
                         Examples.ollama_manager H1 H2) "huggingface")).
Defined.

End ProviderExtras.

(* ===================================================================== *)
(** ** Properties of the personality *)
(* ===================================================================== *)

Module PersonalityExtras.

Import Personality Spec.
Local Open Scope Q_scope.

Lemma get_None_mem {V} k (d : list (string * V)) :
  ODict.get k d = None <-> ~ In k (ODict.keys d).
Proof.
  rewrite <- DictFacts.mem_keys. unfold ODict.mem.
  destruct (ODict.get k d).
  - split; [discriminate | intros H; exfalso; apply H; reflexivity].
  - split; [intros _; discriminate | reflexivity].
Qed.



Lemma mood_modifiers_nonneg mood :
  Forall (fun km => 0 <= snd km) (ODict.get_default mood [] mood_modifiers).
Proof.
  destruct (ManagerFacts.get_default_cases mood [] mood_modifiers) as [->|Hin];
    [constructor|].
  revert Hin. generalize (ODict.get_default mood [] mood_modifiers).
  intros l Hin. unfold mood_modifiers, ODict.values in Hin. simpl in Hin.
  repeat (destruct Hin as [<-|Hin];
          [repeat (constructor; [vm_compute; discriminate|]); constructor|]).
  destruct Hin.
Qed.

Lemma apply_modifiers_keys mods : forall base,
  ODict.keys (apply_modifiers mods base) = ODict.keys base.
Proof.
  unfold apply_modifiers.
  induction mods as [|[trait modifier] rest IH]; intros base; simpl; [reflexivity|].
  destruct (ODict.get trait base) as [u|] eqn:G; [|apply IH].
  rewrite IH. apply (DictFacts.set_keys_present _ _ u), G.
Qed.

Lemma apply_modifiers_bounds mods k :
  Forall (fun km => 0 <= snd km) mods ->
  forall base v,
    ODict.get k base = Some v -> v <= 1 ->
    exists v', ODict.get k (apply_modifiers mods base) = Some v' /\ v <= v' <= 1.
Proof.
  unfold apply_modifiers.
  induction 1 as [|[trait modifier] rest Hm _ IH]; intros base v G Hv; simpl.
  { exists v. split; [exact G | lra]. }
  cbn [snd] in Hm.
  destruct (ODict.get trait base) as [u|] eqn:Gt; [|apply IH; assumption].
  destruct (String.eqb k trait) eqn:E.
  - apply String.eqb_eq in E. subst trait.
    assert (u = v) by congruence. subst u.
    destruct (IH (ODict.set k (Qmin 1 (v + modifier)) base) (Qmin 1 (v + modifier)))
      as (v' & Hv' & Hb).
    + apply DictFacts.get_set_same.
    + q_minmax; lra.
    + exists v'. split; [exact Hv'|]. revert Hb. q_minmax; lra.
  - apply String.eqb_neq in E. apply IH; [|exact Hv].
    rewrite DictFacts.get_set_other by exact E. exact G.
Qed.

(** X29.  The mood only strengthens traits and never pushes one above 1:
    [get_effective_traits] has the keys of the stored traits, in the same
    order, and for a stored value [v <= 1] the effective value lies between
    [v] and 1.  In the mood "balanced", and in any mood without a modifier
    table, the effective traits are the stored ones. *)
Theorem effective_traits_bounds p :
  ODict.keys (get_effective_traits p) = ODict.keys (traits p)
  /\ (forall k v,
        ODict.get k (traits p) = Some v -> v <= 1 ->
        exists v', ODict.get k (get_effective_traits p) = Some v' /\ v <= v' <= 1)
  /\ (ODict.get (mood_state p) mood_modifiers = None ->
      get_effective_traits p = traits p).
Proof.
  unfold get_effective_traits, get_mood_modifier. split; [|split].
  - apply apply_modifiers_keys.
  - intros k v G Hv. apply apply_modifiers_bounds; try assumption.
    apply mood_modifiers_nonneg.
  - intros Hn. unfold ODict.get_default. rewrite Hn. reflexivity.
Qed.

Lemma effective_traits_bounds_witness :
  (ODict.get "creativity" (traits (snd (set_mood 5 (new_personality 0) "creative")))
   = Some 0.95
   /\ 0.95 <= 1)
  /\ exists v',
       ODict.get "creativity"
         (get_effective_traits (snd (set_mood 5 (new_personality 0) "creative")))
       = Some v'
       /\ 0.95 <= v' <= 1.
Proof.
  assert (H1 : ODict.get "creativity"
                 (traits (snd (set_mood 5 (new_personality 0) "creative")))
               = Some 0.95) by reflexivity.
  assert (H2 : 0.95 <= 1) by (vm_compute; discriminate).
  split; [exact (conj H1 H2)|].
  exact (proj1 (proj2 (effective_traits_bounds
                         (snd (set_mood 5 (new_personality 0) "creative"))))
           "creativity" 0.95 H1 H2).
Defined.

(** X30.  [generate_response_style] reads the five traits empathy,
    creativity, humor, curiosity and warmth: it raises [KeyError] exactly
    when one of them is missing from the stored traits, whatever the mood;
    otherwise it returns at most five notes, none of them empty. *)
Theorem response_style_defined p :
  (generate_response_style p = None <->
   exists k, In k ["empathy"; "creativity"; "humor"; "curiosity"; "warmth"]%string
             /\ ~ In k (ODict.keys (traits p)))
  /\ (forall notes,
        generate_response_style p = Some notes ->
        (length notes <= 5)%nat /\ Forall (fun s => s <> ""%string) notes).
Proof.
  assert (Hk : forall k, ODict.get k (get_effective_traits p) = None
                         <-> ~ In k (ODict.keys (traits p))).
  { intros k. rewrite get_None_mem.
    unfold get_effective_traits. rewrite apply_modifiers_keys. reflexivity. }
  unfold generate_response_style.
  destruct (ODict.get "empathy" (get_effective_traits p)) as [e|] eqn:G1;
    [|split; [split; [intros _; exists "empathy"%string; split;
                        [simpl; tauto | apply Hk, G1]
                     | reflexivity]
             | discriminate]].
  destruct (ODict.get "creativity" (get_effective_traits p)) as [c|] eqn:G2;
    [|split; [split; [intros _; exists "creativity"%string; split;
                        [simpl; tauto | apply Hk, G2]
                     | reflexivity]
             | discriminate]].
  destruct (ODict.get "humor" (get_effective_traits p)) as [h|] eqn:G3;
    [|split; [split; [intros _; exists "humor"%string; split;
                        [simpl; tauto | apply Hk, G3]
                     | reflexivity]
             | discriminate]].
  destruct (ODict.get "curiosity" (get_effective_traits p)) as [u|] eqn:G4;
    [|split; [split; [intros _; exists "curiosity"%string; split;
                        [simpl; tauto | apply Hk, G4]
                     | reflexivity]
             | discriminate]].
  destruct (ODict.get "warmth" (get_effective_traits p)) as [w|] eqn:G5;
    [|split; [split; [intros _; exists "warmth"%string; split;
                        [simpl; tauto | apply Hk, G5]
                     | reflexivity]
             | discriminate]].
  cbn [mbind option_bind]. split.
  - split; [discriminate|]. intros (k & Hin & Hno). apply Hk in Hno.
    simpl in Hin. destruct Hin as [<-|[<-|[<-|[<-|[<-|[]]]]]]; congruence.
  - intros notes H. inversion H; subst notes. clear H.
    destruct (Qltb 0.8 e), (Qltb 0.9 c), (Qltb 0.7 h), (Qltb 0.8 u), (Qltb 0.8 w);
      (split; [simpl; lia | repeat constructor; discriminate]).
Qed.

Lemma response_style_defined_witness :
  generate_response_style (new_personality 0)
  = Some ["Show deep understanding and emotional resonance";
          "Offer unique perspectives and imaginative solutions";
          "Ask thoughtful follow-up questions";
          "Express genuine care and affection"]%string
  /\ (length ["Show deep understanding and emotional resonance";
              "Offer unique perspectives and imaginative solutions";
              "Ask thoughtful follow-up questions";
              "Express genuine care and affection"]%string <= 5)%nat.
Proof.
  assert (H : generate_response_style (new_personality 0)
              = Some ["Show deep understanding and emotional resonance";
                      "Offer unique perspectives and imaginative solutions";
                      "Ask thoughtful follow-up questions";
                      "Express genuine care and affection"]%string)
    by (vm_compute; reflexivity).
  split; [exact H|].
  exact (proj1 (proj2 (response_style_defined (new_personality 0)) _ H)).
Defined.

End PersonalityExtras.

